(** * csvi / csview: the editing and data engine

    A shallow embedding of the terminal CSV editor:

    - [uncsv]: the format-preserving cell and row model, the line reader and
      the row serialiser;
    - [Writer]: [writeCsvTo], the document writer of the [main] package;
    - [Grid]: [searchForward] and [searchBackward] over a grid of strings;
    - [Render]: [drawPage] and its per-line cache;
    - [csvi]: the main loop [edit] of package [csvi] with its command set.

    Go's [int] is embedded as [Z]; every integer the code computes here is an
    index into, or the length of, a slice that is held in memory, so the
    64-bit wrap-around is never reached and is not written out.  Byte strings
    and Go strings are [string] (a list of 8-bit characters). *)

From Stdlib Require Import ZArith Lia Ascii String.
From stdpp Require Import base list gmap strings.

Local Open Scope string_scope.
Local Open Scope Z_scope.
Local Open Scope list_scope.

(** ** Characters and byte strings *)

Definition LF : ascii := "010"%char.
Definition CR : ascii := "013"%char.
Definition DQUOTE : ascii := "034"%char.
Definition COMMA : ascii := ","%char.

Definition str1 (c : ascii) : string := String c EmptyString.

Definition strLF : string := str1 LF.
Definition strCRLF : string := String CR (str1 LF).

(** [strings.Join]-free concatenation of the pieces written to a writer. *)
Fixpoint concatS (l : list string) : string :=
  match l with
  | [] => EmptyString
  | s :: rest => s +:+ concatS rest
  end.

(** [s] with the character [c] appended (the Go [append(source, c)]). *)
Definition snoc (s : string) (c : ascii) : string := s +:+ str1 c.

(** [dropCR] of package [bufio]: one trailing carriage return is removed. *)
Fixpoint dropCR (s : string) : string :=
  match s with
  | EmptyString => EmptyString
  | String c EmptyString => if Ascii.eqb c CR then EmptyString else s
  | String c rest => String c (dropCR rest)
  end.

(** Whether [s] ends with a carriage return. *)
Fixpoint endsWithCR (s : string) : bool :=
  match s with
  | EmptyString => false
  | String c EmptyString => Ascii.eqb c CR
  | String _ rest => endsWithCR rest
  end.

(** Whether some character of [s] satisfies [p]. *)
Fixpoint hasChar (p : ascii -> bool) (s : string) : bool :=
  match s with
  | EmptyString => false
  | String c rest => p c || hasChar p rest
  end.

(** [strings.Contains s target]. *)
Definition Contains (s target : string) : bool :=
  match String.index 0 target s with
  | Some _ => true
  | None => false
  end.

(** ** Package uncsv: cells, rows, reader and serialiser *)

Module uncsv.

(** Modelled from the spec: the per-document configuration [uncsv.Mode]; its
    declaration is not in the sources at hand.  Only the field delimiter
    and the default line terminator are read by the code embedded below. *)
Record Mode := mkMode {
  Comma : ascii;
  DefaultTerm : string
}.

(** Modelled from the spec: [uncsv.Cell], one field with its decoded text, the
    source representation it was first read from, and the two flags.  The
    accessors carry the names of the Go methods [Text], [Original],
    [Modified] and [IsQuoted]. *)
Record Cell := mkCell {
  Text : string;
  Original : string;
  Modified : bool;
  IsQuoted : bool
}.

(** Modelled from the spec: decoding strips the quotes, turns a doubled quote
    inside a quoted part into one quote and keeps everything after an
    unterminated quote as it is.  [inq] tells whether a quote is open. *)
Fixpoint dequote (inq : bool) (s : string) : string :=
  match s with
  | EmptyString => EmptyString
  | String c rest =>
      if Ascii.eqb c DQUOTE then
        if inq then
          match rest with
          | String c' rest' =>
              if Ascii.eqb c' DQUOTE then String DQUOTE (dequote true rest')
              else dequote false rest
          | EmptyString => EmptyString
          end
        else dequote true rest
      else String c (dequote inq rest)
  end.

Definition startsWithQuote (s : string) : bool :=
  match s with
  | String c _ => Ascii.eqb c DQUOTE
  | EmptyString => false
  end.

(** Modelled from the spec: [decode], the cell read from the source bytes
    [src]; the bytes are recorded verbatim and the cell is unmodified. *)
Definition decode (src : string) : Cell :=
  {| Text := dequote false src;
     Original := src;
     Modified := false;
     IsQuoted := startsWithQuote src |}.

(** Modelled from the spec: a text needs quoting when it contains the
    delimiter, a double quote, a line feed or a carriage return. *)
Definition needsQuote (mode : Mode) (t : string) : bool :=
  hasChar (fun c => Ascii.eqb c (Comma mode) || Ascii.eqb c DQUOTE
                    || Ascii.eqb c LF || Ascii.eqb c CR) t.

(** Modelled from the spec: [setText]. *)
Definition setText (mode : Mode) (t : string) (c : Cell) : Cell :=
  {| Text := t;
     Original := Original c;
     Modified := true;
     IsQuoted := needsQuote mode t |}.

(** Modelled from the spec: [Cell.Quote], the forced quoting.  The decoded
    text stays; the serialiser consults the quoted flag only for a modified
    cell, so the forced form is marked as a modification. *)
Definition Quote (mode : Mode) (c : Cell) : Cell :=
  {| Text := Text c;
     Original := Original c;
     Modified := true;
     IsQuoted := true |}.

(** Modelled from the spec: [Cell.Restore] discards the edits. *)
Definition Restore (mode : Mode) (c : Cell) : Cell := decode (Original c).

(** Every quote of the text is doubled. *)
Fixpoint doubleQuotes (s : string) : string :=
  match s with
  | EmptyString => EmptyString
  | String c rest =>
      if Ascii.eqb c DQUOTE then String DQUOTE (String DQUOTE (doubleQuotes rest))
      else String c (doubleQuotes rest)
  end.

(** Modelled from the spec: [serialize], the method [Cell.SourceText]. *)
Definition SourceText (mode : Mode) (c : Cell) : string :=
  if Modified c then
    if IsQuoted c then String DQUOTE (doubleQuotes (Text c)) +:+ str1 DQUOTE
    else Text c
  else Original c.

(** Modelled from the spec: [uncsv.Row], the cells (the Go field [Cell]) and
    the line terminator that followed them in the source. *)
Record Row := mkRow {
  Cells : list Cell;
  Term : string
}.

(** Modelled from the spec: [uncsv.NewRow]; a row always has a cell, so the
    fresh row holds one empty cell, and it ends with the default terminator
    of the mode. *)
Definition NewRow (mode : Mode) : Row :=
  {| Cells := [decode EmptyString]; Term := DefaultTerm mode |}.

(** Modelled from the spec: the cell-level mutations of a row.  The spec
    gives them no meaning outside the row; as with Go slices, an index out
    of range is a run-time fault, here [None]. *)
Definition Insert (i : Z) (text : string) (mode : Mode) (row : Row) : option Row :=
  if bool_decide (0 <= i <= Z.of_nat (length (Cells row))) then
    Some {| Cells := take (Z.to_nat i) (Cells row)
                     ++ setText mode text (decode EmptyString)
                     :: drop (Z.to_nat i) (Cells row);
            Term := Term row |}
  else None.

Definition Replace (i : Z) (text : string) (mode : Mode) (row : Row) : option Row :=
  if bool_decide (0 <= i) then
    match Cells row !! Z.to_nat i with
    | Some c =>
        Some {| Cells := <[Z.to_nat i := setText mode text c]> (Cells row);
                Term := Term row |}
    | None => None
    end
  else None.

Definition Delete (i : Z) (row : Row) : option Row :=
  if bool_decide (0 <= i < Z.of_nat (length (Cells row))) then
    Some {| Cells := take (Z.to_nat i) (Cells row)
                     ++ drop (S (Z.to_nat i)) (Cells row);
            Term := Term row |}
  else None.

(** The fields of a line, separated by the delimiter. *)
Fixpoint joinFields (comma : ascii) (fs : list string) : string :=
  match fs with
  | [] => EmptyString
  | [f] => f
  | f :: rest => f +:+ String comma (joinFields comma rest)
  end.

(** Modelled from the spec: [Row.Rebuild], the serialised row. *)
Definition Rebuild (mode : Mode) (row : Row) : string :=
  joinFields (Comma mode) (map (SourceText mode) (Cells row)) +:+ Term row.

(** Modelled from the spec: [uncsv.ReadLine], one row decoded from the head
    of the input.  [quoted] tells whether a quote is open, [cur] is the
    source of the field being read and [done] holds the fields completed.
    The result is the row, whether the input ended before a line feed
    ([io.EOF]) and the input left. *)
Fixpoint readLine (mode : Mode) (input : string) (quoted : bool)
    (cur : string) (done : list Cell) : Row * bool * string :=
  match input with
  | EmptyString =>
      ({| Cells := done ++ [decode cur]; Term := EmptyString |}, true, EmptyString)
  | String c rest =>
      let quoted' := if Ascii.eqb c DQUOTE then negb quoted else quoted in
      if negb quoted' && Ascii.eqb c (Comma mode) then
        readLine mode rest quoted' EmptyString (done ++ [decode cur])
      else if negb quoted' && Ascii.eqb c LF then
        if endsWithCR cur then
          ({| Cells := done ++ [decode (dropCR cur)]; Term := strCRLF |}, false, rest)
        else
          ({| Cells := done ++ [decode cur]; Term := strLF |}, false, rest)
      else readLine mode rest quoted' (snoc cur c) done
  end.

Definition ReadLine (mode : Mode) (input : string) : Row * bool * string :=
  readLine mode input false EmptyString [].

(** Modelled from the spec: [uncsv.ReadAll]; the all-empty row found at
    the end of the input after a line terminator is not part of the
    document.  [fuel] bounds the number of rows. *)
Fixpoint readAll (fuel : nat) (mode : Mode) (input : string) : list Row :=
  match fuel with
  | O => []
  | S fuel' =>
      let '(row, eof, rest) := ReadLine mode input in
      if eof then
        match Cells row with
        | [c] => if bool_decide (Original c = EmptyString) then [] else [row]
        | _ => [row]
        end
      else row :: readAll fuel' mode rest
  end.

Definition ReadAll (mode : Mode) (input : string) : list Row :=
  readAll (S (String.length input)) mode input.

End uncsv.

Definition csvMode : uncsv.Mode := uncsv.mkMode COMMA strLF.

(** ** Package main: the document writer (writeCsvTo) *)

Module Writer.

Import uncsv.

(** The bits of [_CodeFlag]. *)
Definition nonBomUtf8 : Z := 0.





End Writer.


(** ** Package main: search over the grid (searchForward, searchBackward) *)

Module Grid.

(** The inner loop of [searchForward], [for c < len(row) { ... c++ }], over
    the cells from index [c] on: the index of the first cell that contains
    the target. *)
Fixpoint findUp (target : string) (cells : list string) (c : Z) : option Z :=
  match cells with
  | [] => None
  | s :: rest => if Contains s target then Some c else findUp target rest (c + 1)
  end.

(** The outer loop of [searchForward], [for r < len(csvlines) { ... r++; c = 0 }],
    over the rows from index [r] on.  A negative [c] indexes the row out of
    range, a run-time fault ([None]). *)
Fixpoint forwardRows (target : string) (rows : list (list string)) (r c : Z)
    : option (bool * Z * Z) :=
  match rows with
  | [] => Some (false, r, c)
  | row :: rest =>
      if bool_decide (c < 0) then None
      else
        match findUp target (drop (Z.to_nat c) row) c with
        | Some c' => Some (true, r, c')
        | None => forwardRows target rest (r + 1) 0
        end
  end.

(** [searchForward]: found or not, and the indices the code returns.  A
    negative [r] makes [csvlines[r]] fault. *)
Definition searchForward (csvlines : list (list string)) (r c : Z)
    (target : string) : option (bool * Z * Z) :=
  let c := c + 1 in
  if bool_decide (r < 0) then None
  else forwardRows target (drop (Z.to_nat r) csvlines) r c.

(** The inner loop of [searchBackward], [for c >= 0 { ... c-- }], over the
    cells from index [c] down to 0, given in that order. *)
Fixpoint findDown (target : string) (cellsDown : list string) (c : Z) : option Z :=
  match cellsDown with
  | [] => None
  | s :: rest => if Contains s target then Some c else findDown target rest (c - 1)
  end.

(** The unbounded loop of [searchBackward] from its second turn on: the rows
    above, given from the nearest to row 0, each searched from its last
    cell; [r] is the index of the first of them and [c] the column the
    inner loop stopped at. *)
Fixpoint backwardRows (target : string) (above : list (list string)) (r c : Z)
    : bool * Z * Z :=
  match above with
  | [] => (false, r, c)
  | row :: rest =>
      match findDown target (rev row) (Z.of_nat (length row) - 1) with
      | Some c' => (true, r, c')
      | None => backwardRows target rest (r - 1) (-1)
      end
  end.

(** [r--; if r < 0 { return false, r, c }; c = len(csvlines[r]) - 1] and the
    turns that follow; [r] is the row just searched. *)
Definition backwardFrom (target : string) (csvlines : list (list string)) (r c : Z)
    : option (bool * Z * Z) :=
  if bool_decide (r - 1 < 0) then Some (false, r - 1, c)
  else if bool_decide (Z.of_nat (length csvlines) <= r - 1) then None
  else Some (backwardRows target (rev (take (Z.to_nat r) csvlines)) (r - 1) c).

(** [searchBackward].  The first turn reads [csvlines[r][c]] for the columns
    left of the start; it faults when the row or the column is out of
    range. *)
Definition searchBackward (csvlines : list (list string)) (r c : Z)
    (target : string) : option (bool * Z * Z) :=
  let c := c - 1 in
  if bool_decide (0 <= c) then
    if bool_decide (r < 0) then None
    else
      match csvlines !! Z.to_nat r with
      | None => None
      | Some row =>
          if bool_decide (Z.of_nat (length row) <= c) then None
          else
            match findDown target (rev (take (S (Z.to_nat c)) row)) c with
            | Some c' => Some (true, r, c')
            | None => backwardFrom target csvlines r (-1)
            end
      end
  else backwardFrom target csvlines r c.

(** The number of cells of the grid that contain the target. *)
Definition countRow (target : string) (row : list string) : nat :=
  length (filter (fun s => Contains s target = true) row).

Fixpoint occurrences (target : string) (csvlines : list (list string)) : nat :=
  match csvlines with
  | [] => O
  | row :: rest => (countRow target row + occurrences target rest)%nat
  end.

End Grid.

(** ** Package csvi: the page renderer (drawPage) *)

Module Render.

(** [_ColorStyle]: the pair of escape sequences that open and close the
    colour of the cursor cell and of the two row bands. *)
Record ColorStyle := mkColorStyle {
  Cursor : string * string;
  Even : string * string;
  Odd : string * string
}.

Definition ESC : ascii := "027"%char.

Definition bodyColorStyle : ColorStyle :=
  {| Cursor := (String ESC "[107;30;22m", String ESC "[40;37m");
     Even := (String ESC "[48;5;235;37;1m", String ESC "[22;40m");
     Odd := (String ESC "[40;37;1m", String ESC "[22m") |}.

Definition headColorStyle : ColorStyle :=
  {| Cursor := (String ESC "[107;30;22m", String ESC "[40;36m");
     Even := (String ESC "[48;5;235;36;1m", String ESC "[22;40m");
     Odd := (String ESC "[40;36;1m", String ESC "[22m") |}.

(** What [drawPage] writes to the terminal: the line break between two
    screen lines and the painted line. *)
Inductive Out :=
  | CRLF
  | Line (s : string).

(** One call of [drawPage]: the rows the [page] iterator yields and the
    layout arguments. *)
Record Frame := mkFrame {
  page : list (list uncsv.Cell);
  cellWidth : Z;
  csrpos : Z;
  csrlin : Z;
  w : Z;
  h : Z;
  style : ColorStyle
}.

Section Page.

(** [drawLine] paints one row into the in-memory buffer; the page renderer
    uses the buffer's content only.  Its arguments are the cells, the cell
    width, the screen width, the cursor position, the band and the style. *)
Variable drawLine :
  list uncsv.Cell -> Z -> Z -> Z -> bool -> ColorStyle -> string.

(** [cache[count]]: a key that is absent reads as the empty string. *)
Definition cached (cache : gmap Z string) (count : Z) : string :=
  default EmptyString (cache !! count).

(** The comparison of the line with the cache and the conditional write:
    [if f := cache[count]; f != line { io.WriteString(out, line); cache[count] = line }]. *)
Definition writeIfChanged (cache : gmap Z string) (count : Z) (line : string)
    : list Out * gmap Z string :=
  if bool_decide (cached cache count <> line)
  then ([Line line], <[count := line]> cache)
  else ([], cache).

(** The callback of [drawPage] applied to the rows the iterator yields, with
    its captured variables [count], [lfCount], [reverse] and the cache:
    what is written, the cache and [lfCount] at the end. *)
Fixpoint pageLoop (f : Frame) (records : list (list uncsv.Cell))
    (count lfCount : Z) (reverse : bool) (cache : gmap Z string)
    : list Out * gmap Z string * Z :=
  match records with
  | [] => ([], cache, lfCount)
  | record :: rest =>
      if bool_decide (h f <= count) then ([], cache, lfCount)
      else
        let lfCount1 := if bool_decide (0 < count) then lfCount + 1 else lfCount in
        let brk := if bool_decide (0 < count) then [CRLF] else [] in
        let cursorPos := if bool_decide (count = csrlin f) then csrpos f else -1 in
        let line := drawLine record (cellWidth f) (w f) cursorPos reverse (style f) in
        let '(wr, cache1) := writeIfChanged cache count line in
        let '(out, cache2, lfCount2) :=
          pageLoop f rest (count + 1) lfCount1 (negb reverse) cache1 in
        (brk ++ wr ++ out, cache2, lfCount2)
  end.

(** [drawPage]: what is written, the cache afterwards and the number of
    line breaks returned. *)
Definition drawPage (f : Frame) (cache : gmap Z string)
    : list Out * gmap Z string * Z :=
  let '(out, cache', lfCount) := pageLoop f (page f) 0 0 false cache in
  (out ++ [CRLF], cache', lfCount + 1).

(** The frames of a session drawn one after the other with the same cache:
    what each of them writes. *)
Fixpoint drawPages (frames : list Frame) (cache : gmap Z string)
    : list (list Out) :=
  match frames with
  | [] => []
  | f :: rest =>
      let '(out, cache', _) := drawPage f cache in
      out :: drawPages rest cache'
  end.

(** The reference the cache is compared with: the full redraw, which
    paints every line of the frame and keeps no cache. *)
Fixpoint fullLoop (f : Frame) (records : list (list uncsv.Cell))
    (count : Z) (reverse : bool) : list Out :=
  match records with
  | [] => []
  | record :: rest =>
      if bool_decide (h f <= count) then []
      else
        let brk := if bool_decide (0 < count) then [CRLF] else [] in
        let cursorPos := if bool_decide (count = csrlin f) then csrpos f else -1 in
        let line := drawLine record (cellWidth f) (w f) cursorPos reverse (style f) in
        brk ++ [Line line] ++ fullLoop f rest (count + 1) (negb reverse)
  end.

Definition fullRedraw (f : Frame) : list Out :=
  fullLoop f (page f) 0 false ++ [CRLF].

(** The terminal: what each screen row of the page shows.  [overlay old s]
    is the row that showed [old] after the bytes [s] are written from its
    first column. *)
Variable overlay : string -> string -> string.

Definition Screen := Z -> string.






End Page.

End Render.

(** ** The key codes *)

(** The key codes of package [keys], as the older [main] package spells them
    out in its [_KEY_] constants; [Enter], [ShiftTab] and [CtrlI] are the
    codes a terminal sends for them. *)
Module keys.

Definition ESC : ascii := "027"%char.
Definition CtrlA : string := str1 "001"%char.
Definition CtrlB : string := str1 "002"%char.
Definition CtrlE : string := str1 "005"%char.
Definition CtrlF : string := str1 "006"%char.
Definition CtrlI : string := str1 "009"%char.
Definition CtrlL : string := str1 "012"%char.
Definition CtrlN : string := str1 "014"%char.
Definition CtrlP : string := str1 "016"%char.
Definition Enter : string := str1 "013"%char.
Definition Escape : string := str1 ESC.
Definition Up : string := String ESC "[A".
Definition Down : string := String ESC "[B".
Definition Right : string := String ESC "[C".
Definition Left : string := String ESC "[D".
Definition ShiftTab : string := String ESC "[Z".
Definition F2 : string := String ESC "[OQ".

End keys.

(** ** Package csvi: the main loop (Config.edit) *)

Module csvi.

Import uncsv.

(** Go's [error] values the loop tells apart: [io.EOF], [readline.CtrlC] and
    any other error with its text. *)
Inductive error :=
  | EOF
  | CtrlC
  | Err (msg : string).

Definition errorText (e : error) : string :=
  match e with
  | EOF => "EOF"
  | CtrlC => "^C"
  | Err msg => msg
  end.

Definition isEOF (e : error) : bool :=
  match e with
  | EOF => true
  | _ => false
  end.

Definition isCtrlC (e : error) : bool :=
  match e with
  | CtrlC => true
  | _ => false
  end.

Definition nonEmpty (s : string) : bool :=
  match s with
  | EmptyString => false
  | _ => true
  end.

(** Modelled from the spec: the fetch source, a lazy, finite sequence of rows.
    [fetch()] delivers the rows of [pending] with a nil error, then the row
    [last] together with the error [failure] that ends the sequence; a
    source read again after its end has nothing left but an empty row. *)
Record Source := mkSource {
  pending : list Row;
  last : Row;
  failure : error
}.

Definition emptyRow : Row := {| Cells := [decode EmptyString]; Term := EmptyString |}.

Definition fetchRow (src : Source) : Row * option error * Source :=
  match pending src with
  | row :: rest => (row, None, mkSource rest (last src) (failure src))
  | [] => (last src, Some (failure src), mkSource [] emptyRow (failure src))
  end.

(** [isEmptyRow]. *)
Definition isEmptyRow (row : Row) : bool :=
  match Cells row with
  | [] => true
  | [c] => bool_decide (String.length (Original c) <= 0)%nat
  | _ => false
  end.

(** [CommandResult] and [CellValidatedEvent]. *)
Record CommandResult := mkCommandResult {
  Message : string;
  Quit : bool
}.

Record CellValidatedEvent := mkCellValidatedEvent {
  EvText : string;
  EvRow : Z;
  EvCol : Z
}.

(** Modelled from the spec: [_Application], the document: the list of rows
    ([csvLines], a [container/list]) and the log of removed rows.  A row
    handle ([RowPtr]) is the position of its row in the list, which is its
    line number [lnum]. *)
Record Application := mkApplication {
  csvLines : list Row;
  removedRows : list Row
}.

(** A handler of [KeyMap] is given the application and the cursor; it
    returns its result, an error or none, and the application as it left it. *)
Record Handler := mkHandler {
  runHandler : Application -> nat -> Z -> CommandResult * option error * Application
}.

(** [Config].  [Mode] is a pointer in Go and may be nil.  [Pilot] is
    represented by what its methods return in each turn of the loop, see
    [Input]. *)
Record Config := mkConfig {
  Mode : option uncsv.Mode;
  CellWidth : Z;
  HeaderLines : Z;
  FixColumn : bool;
  ReadOnly : bool;
  ProtectHeader : bool;
  CfgMessage : string;
  KeyMap : gmap string Handler;
  OnCellValidated : option (CellValidatedEvent -> string * option error)
}.

(** [&uncsv.Mode{}], the zero value the loop takes when [cfg.Mode] is nil. *)
Definition zeroMode : uncsv.Mode :=
  {| Comma := "000"%char; DefaultTerm := EmptyString |}.

Definition modeOf (cfg : Config) : uncsv.Mode := default zeroMode (Mode cfg).

(** [Config.validate]. *)
Definition validate (cfg : Config) (row : nat) (col : Z) (text : string)
    : string * option error :=
  match OnCellValidated cfg with
  | None => (text, None)
  | Some f => f {| EvRow := Z.of_nat row; EvCol := col; EvText := text |}
  end.

Definition msgReadOnly : string := "Read Only Mode !".
Definition msgProtectHeader : string := "Header is protected".
Definition msgColumnFixed : string := "The order of Columns is fixed !".

(** [Config.checkWriteProtect]; [lnum] is the line number of the cursor row. *)
Definition checkWriteProtect (cfg : Config) (lnum : nat) : string :=
  if ProtectHeader cfg && bool_decide (Z.of_nat lnum < HeaderLines cfg) then msgProtectHeader
  else if ReadOnly cfg then msgReadOnly
  else EmptyString.

(** [Config.checkWriteProtectAndColumn]. *)
Definition checkWriteProtectAndColumn (cfg : Config) (lnum : nat) : string :=
  let m := checkWriteProtect cfg lnum in
  if nonEmpty m then m
  else if FixColumn cfg then msgColumnFixed
  else EmptyString.

(** The two search functions the loop switches between. *)
Inductive Search :=
  | Forward
  | Backward.

(** The variables of [edit] that a turn of the loop reads or assigns.  The
    viewport ([startRow], [startCol]), the terminal size and the caches of
    the view decide what is drawn, never what a command does to the
    document; they are not part of this state.  [writeCalls] records the
    documents [cmdWrite] was called with. *)
Record State := mkState {
  app : Application;
  fetch : option Source;
  cursorRow : nat;
  cursorCol : Z;
  lastSearch : Search;
  lastSearchRev : Search;
  lastWord : string;
  message : string;
  killbuffer : string;
  writeCalls : list (list Row)
}.

Definition rows (st : State) : list Row := csvLines (app st).

Definition setRows (l : list Row) (st : State) : State :=
  mkState (mkApplication l (removedRows (app st))) (fetch st) (cursorRow st)
          (cursorCol st) (lastSearch st) (lastSearchRev st) (lastWord st)
          (message st) (killbuffer st) (writeCalls st).

Definition setApp (a : Application) (st : State) : State :=
  mkState a (fetch st) (cursorRow st) (cursorCol st) (lastSearch st)
          (lastSearchRev st) (lastWord st) (message st) (killbuffer st)
          (writeCalls st).

Definition setFetch (f : option Source) (st : State) : State :=
  mkState (app st) f (cursorRow st) (cursorCol st) (lastSearch st)
          (lastSearchRev st) (lastWord st) (message st) (killbuffer st)
          (writeCalls st).

Definition setCursorRow (r : nat) (st : State) : State :=
  mkState (app st) (fetch st) r (cursorCol st) (lastSearch st)
          (lastSearchRev st) (lastWord st) (message st) (killbuffer st)
          (writeCalls st).

Definition setCursorCol (c : Z) (st : State) : State :=
  mkState (app st) (fetch st) (cursorRow st) c (lastSearch st)
          (lastSearchRev st) (lastWord st) (message st) (killbuffer st)
          (writeCalls st).

Definition setSearch (s srev : Search) (word : string) (st : State) : State :=
  mkState (app st) (fetch st) (cursorRow st) (cursorCol st) s srev word
          (message st) (killbuffer st) (writeCalls st).

Definition setMessage (m : string) (st : State) : State :=
  mkState (app st) (fetch st) (cursorRow st) (cursorCol st) (lastSearch st)
          (lastSearchRev st) (lastWord st) m (killbuffer st) (writeCalls st).

Definition setKillbuffer (k : string) (st : State) : State :=
  mkState (app st) (fetch st) (cursorRow st) (cursorCol st) (lastSearch st)
          (lastSearchRev st) (lastWord st) (message st) k (writeCalls st).

Definition logWrite (st : State) : State :=
  mkState (app st) (fetch st) (cursorRow st) (cursorCol st) (lastSearch st)
          (lastSearchRev st) (lastWord st) (message st) (killbuffer st)
          (writeCalls st ++ [rows st]).

(** Modelled from the spec: [_Application.Push] appends the row at the tail. *)
Definition Push (row : Row) (st : State) : State := setRows (rows st ++ [row]) st.

(** The row under the cursor handle replaced by [row] (the handle gives
    access to the row in place). *)
Definition setCursorRowValue (row : Row) (st : State) : State :=
  setRows (<[cursorRow st := row]> (rows st)) st.

(** What the collaborators answer during one turn of the loop: [Pilot.Size],
    the number of idle turns the key worker left to the ingestion before the
    key arrived, the key, [Pilot.ReadLine] (called at most once a turn; text
    and error as Go returns them), the key read by [YesNo] and the result of
    [cmdWrite]. *)
Record Input := mkInput {
  sizeErr : option error;
  idle : nat;
  key : string;
  keyErr : option error;
  line : string * option error;
  yesKey : string * option error;
  writeErr : option error
}.

(** How a turn of the loop ends: the loop goes on; [edit] returns the
    result with an error or none; [edit] returns [nil] and an error; or a
    run-time fault (an index out of range, a nil handle). *)
Inductive Outcome :=
  | Next (st : State)
  | Done (st : State) (err : option error)
  | Failed (st : State) (err : error)
  | Panic.

Definition orPanic {A : Type} (o : option A) (k : A -> Outcome) : Outcome :=
  match o with
  | Some a => k a
  | None => Panic
  end.

Notation "'let?' x ':=' o 'in' k" := (orPanic o (fun x => k))
  (at level 10, x name, o at level 100, k at level 200).

(** The row the cursor handle points to. *)
Definition cursorRowValue (st : State) : option Row := rows st !! cursorRow st.

(** The initial prefetch of [edit]: at most [n] rows ([n] is 100 in the
    code).  The result is the document and the fetch function, nil once
    the source has ended, or the error that makes [edit] return. *)
Fixpoint prefetch (n : nat) (src : Source) (l : list Row)
    : list Row * option Source * option error :=
  match n with
  | O => (l, Some src, None)
  | S n' =>
      let '(row, err, src') := fetchRow src in
      match err with
      | Some e =>
          if negb (isEOF e) then (l, Some src', Some e)
          else if isEmptyRow row then (l, None, None)
          else (l ++ [row], None, None)
      | None => prefetch n' src' (l ++ [row])
      end
  end.

(** The state [edit] enters its loop with.  Without a fetch function the
    document is one fresh row.  [app.Front()] of an empty document is a nil
    handle, which the first frame dereferences. *)
Definition start (cfg : Config) (fetch0 : option Source) : Outcome :=
  let initial (l : list Row) (f : option Source) : State :=
    mkState (mkApplication l []) f O 0 Forward Backward EmptyString
            (CfgMessage cfg) EmptyString [] in
  match fetch0 with
  | Some src =>
      let '(l, f, err) := prefetch 100 src [] in
      match err with
      | Some e => Failed (initial l f) e
      | None => match l with
                | [] => Panic
                | _ => Next (initial l f)
                end
      end
  | None => Next (initial [NewRow (modeOf cfg)] None)
  end.

(** The function given to [keyWorker.GetOr]: one step of the ingestion.  It
    returns whether there is more to fetch. *)
Definition idleStep (st : State) : State * bool :=
  match fetch st with
  | None => (st, false)
  | Some src =>
      let '(row, err, src') := fetchRow src in
      match err with
      | Some e =>
          let st1 := setFetch None st in
          if negb (isEOF e) || isEmptyRow row then (st1, false)
          else (Push row st1, false)
      | None => (Push row (setFetch (Some src') st), true)
      end
  end.

(** Modelled from the spec: [nonblock.GetOr] calls the function while no key
    has arrived and stops calling it when it returns false; [n] is the
    number of calls the arrival of the key leaves room for. *)
Fixpoint await (n : nat) (st : State) : State :=
  match n with
  | O => st
  | S n' =>
      let '(st1, more) := idleStep st in
      if more then await n' st1 else st1
  end.

(** The synchronous drain of the write command, the loop
    [for { row, err := fetch(); ...; app.Push(row); if err == io.EOF { break } }]:
    the document at the end of the loop and the error that makes [edit]
    return, if any. *)
Fixpoint drainFrom (pend : list Row) (lastRow : Row) (fail : error) (l : list Row)
    : list Row * option error :=
  match pend with
  | row :: rest => drainFrom rest lastRow fail (l ++ [row])
  | [] => if isEOF fail then (l ++ [lastRow], None) else (l, Some fail)
  end.

Definition drain (src : Source) (l : list Row) : list Row * option error * Source :=
  (drainFrom (pending src) (last src) (failure src) l,
   mkSource [] emptyRow (failure src)).

(** The grid of cell texts the search reads. *)
Definition texts (st : State) : list (list string) :=
  map (fun row => map Text (Cells row)) (rows st).

(** Modelled from the spec: the two search functions on row handles, which
    are not in the sources at hand; they are taken to search the texts of
    the cells as [searchForward] and [searchBackward] of the older [main]
    package do.  A nil handle is the answer [false]. *)
Definition search (s : Search) (st : State) (word : string) : option (bool * Z * Z) :=
  match s with
  | Forward => Grid.searchForward (texts st) (Z.of_nat (cursorRow st)) (cursorCol st) word
  | Backward => Grid.searchBackward (texts st) (Z.of_nat (cursorRow st)) (cursorCol st) word
  end.

(** The part shared by the cases "n", "N", "/" and "?": the search and the
    move of the cursor, or the message. *)
Definition jump (s : Search) (st : State) : Outcome :=
  let? res := search s st (lastWord st) in
  let '(found, r, c) := res in
  if found then Next (setCursorCol c (setCursorRow (Z.to_nat r) st))
  else Next (setMessage (lastWord st +:+ ": not found") st).

(** [for len(newRow.Cell) < len(cursorRow.Cell) { newRow.Insert(0, "", mode) }];
    [n] is the number of cells that are missing. *)
Fixpoint padRow (n : nat) (mode : uncsv.Mode) (newRow : Row) : option Row :=
  match n with
  | O => Some newRow
  | S n' =>
      match Insert 0 EmptyString mode newRow with
      | Some r => padRow n' mode r
      | None => None
      end
  end.

(** The text entry and the replacement shared by "o" and "O", done on the
    new row the cursor has moved to; the error of [ReadLine] is dropped
    ([text, _ := pilot.ReadLine(...)]). *)
Definition fillNewRow (cfg : Config) (inp : Input) (st : State) : Outcome :=
  let? newRow := cursorRowValue st in
  let text := (line inp).1 in
  let newCol :=
    if bool_decide (Z.of_nat (length (Cells newRow)) <= cursorCol st)
    then Z.of_nat (length (Cells newRow)) - 1
    else cursorCol st in
  match validate cfg (cursorRow st) newCol text with
  | (_, Some err) => Next (setMessage (errorText err) st)
  | (tx, None) =>
      let? r := Replace newCol tx (modeOf cfg) newRow in
      Next (setCursorRowValue r st)
  end.

(** [if cfg.FixColumn { for len(newRow.Cell) < len(cursorRow.Cell) { ... } }]. *)
Definition padIfFixed (cfg : Config) (cur newRow : Row) : option Row :=
  if FixColumn cfg
  then padRow (length (Cells cur) - length (Cells newRow)) (modeOf cfg) newRow
  else Some newRow.

(** Modelled from the spec: [RowPtr.InsertAfter] and [RowPtr.InsertBefore]
    splice the row in next to the handle's row; the handle returned is that
    of the new row. *)
Definition InsertAfter (i : nat) (newRow : Row) (l : list Row) : list Row :=
  take (S i) l ++ newRow :: drop (S i) l.

Definition InsertBefore (i : nat) (newRow : Row) (l : list Row) : list Row :=
  take i l ++ newRow :: drop i l.

(** Modelled from the spec: [RowPtr.Remove] detaches the row. *)
Definition Remove (i : nat) (l : list Row) : list Row :=
  take i l ++ drop (S i) l.

(** case "o". *)
Definition cmdOpenBelow (cfg : Config) (inp : Input) (st : State) : Outcome :=
  let m := checkWriteProtect cfg (cursorRow st) in
  if nonEmpty m then Next (setMessage m st)
  else
    let mode := modeOf cfg in
    let? cur := cursorRowValue st in
    let newRow := {| Cells := Cells (NewRow mode); Term := Term cur |} in
    let cur' :=
      if bool_decide (Term cur = EmptyString)
      then {| Cells := Cells cur; Term := DefaultTerm mode |}
      else cur in
    let? newRow := padIfFixed cfg cur' newRow in
    let l := InsertAfter (cursorRow st) newRow (<[cursorRow st := cur']> (rows st)) in
    fillNewRow cfg inp (setCursorRow (S (cursorRow st)) (setRows l st)).

(** case "O". *)
Definition cmdOpenAbove (cfg : Config) (inp : Input) (st : State) : Outcome :=
  let m := checkWriteProtect cfg (cursorRow st) in
  if nonEmpty m then Next (setMessage m st)
  else
    let mode := modeOf cfg in
    let? cur := cursorRowValue st in
    let? newRow := padIfFixed cfg cur (NewRow mode) in
    let l := InsertBefore (cursorRow st) newRow (rows st) in
    fillNewRow cfg inp (setRows l st).

(** case "D". *)
Definition cmdDeleteRow (cfg : Config) (st : State) : Outcome :=
  let m := checkWriteProtect cfg (cursorRow st) in
  if nonEmpty m then Next (setMessage m st)
  else if bool_decide (length (rows st) <= 1)%nat then Next st
  else
    let i := cursorRow st in
    let? removedRow := cursorRowValue st in
    let l := Remove i (rows st) in
    let st1 := setApp (mkApplication l (removedRows (app st) ++ [removedRow])) st in
    match i with
    | O => Next (setCursorRow O st1)
    | S prevP =>
        if bool_decide (i < length l)%nat then Next st1
        else
          let? prevRow := l !! prevP in
          let st2 := setCursorRow prevP st1 in
          Next (setCursorRowValue
                  {| Cells := Cells prevRow; Term := Term removedRow |} st2)
    end.

(** [len(cells) == 1 && cells[0].Text() == ""]. *)
Definition onlyEmptyCell (cells : list Cell) : bool :=
  match cells with
  | [c] => bool_decide (Text c = EmptyString)
  | _ => false
  end.

(** case "i". *)
Definition cmdInsertCell (cfg : Config) (inp : Input) (st : State) : Outcome :=
  let m := checkWriteProtectAndColumn cfg (cursorRow st) in
  if nonEmpty m then Next (setMessage m st)
  else
    match (line inp).2 with
    | Some _ => Next st
    | None =>
        match validate cfg (cursorRow st) (cursorCol st) (line inp).1 with
        | (_, Some err) => Next (setMessage (errorText err) st)
        | (text, None) =>
            let? cur := cursorRowValue st in
            if onlyEmptyCell (Cells cur) then
              let? r := Replace (cursorCol st) text (modeOf cfg) cur in
              Next (setCursorRowValue r st)
            else
              let? r := Insert (cursorCol st) text (modeOf cfg) cur in
              Next (setCursorCol (cursorCol st + 1) (setCursorRowValue r st))
        end
    end.

(** case "a". *)
Definition cmdAppendCell (cfg : Config) (inp : Input) (st : State) : Outcome :=
  let m := checkWriteProtectAndColumn cfg (cursorRow st) in
  if nonEmpty m then Next (setMessage m st)
  else
    let mode := modeOf cfg in
    let? cur := cursorRowValue st in
    if onlyEmptyCell (Cells cur) then
      match (line inp).2 with
      | Some _ => Next st
      | None =>
          match validate cfg (cursorRow st) (cursorCol st) (line inp).1 with
          | (_, Some err) => Next (setMessage (errorText err) st)
          | (tx, None) =>
              let? r := Replace (cursorCol st) tx mode cur in
              Next (setCursorRowValue r st)
          end
      end
    else
      let col := cursorCol st + 1 in
      let? r1 := Insert col EmptyString mode cur in
      let st1 := setCursorCol col (setCursorRowValue r1 st) in
      match (line inp).2 with
      | Some _ =>
          let? r2 := Delete col r1 in
          Next (setCursorCol (col - 1) (setCursorRowValue r2 st1))
      | None =>
          match validate cfg (cursorRow st) col (line inp).1 with
          | (_, Some err) =>
              let? r2 := Delete col r1 in
              Next (setCursorCol (col - 1)
                      (setCursorRowValue r2 (setMessage (errorText err) st1)))
          | (tx, None) =>
              let? r2 := Replace col tx mode r1 in
              Next (setCursorRowValue r2 st1)
          end
      end.

(** The cell [cursorRow.Cell[cursorCol]]. *)
Definition cursorCell (st : State) (cur : Row) : option Cell :=
  if bool_decide (0 <= cursorCol st) then Cells cur !! Z.to_nat (cursorCol st)
  else None.

(** The cell behind the pointer [cursor := &cursorRow.Cell[cursorCol]]
    replaced by its image under [f]. *)
Definition updateCursorCell (f : Cell -> Cell) (st : State) (cur : Row) : option Row :=
  match cursorCell st cur with
  | Some c =>
      Some {| Cells := <[Z.to_nat (cursorCol st) := f c]> (Cells cur);
              Term := Term cur |}
  | None => None
  end.

(** case "r", "R", F2. *)
Definition cmdReplaceCell (cfg : Config) (inp : Input) (st : State) : Outcome :=
  let m := checkWriteProtect cfg (cursorRow st) in
  if nonEmpty m then Next (setMessage m st)
  else
    let mode := modeOf cfg in
    let? cur := cursorRowValue st in
    let? cursor := cursorCell st cur in
    let q := IsQuoted cursor in
    match (line inp).2 with
    | Some _ => Next st
    | None =>
        match validate cfg (cursorRow st) (cursorCol st) (line inp).1 with
        | (_, Some err) => Next (setMessage (errorText err) st)
        | (tx, None) =>
            let? r1 := Replace (cursorCol st) tx mode cur in
            if q then
              let? r2 := updateCursorCell (Quote mode) st r1 in
              Next (setCursorRowValue r2 st)
            else Next (setCursorRowValue r1 st)
        end
    end.

(** case "u". *)
Definition cmdUndo (cfg : Config) (st : State) : Outcome :=
  let? cur := cursorRowValue st in
  let? r := updateCursorCell (Restore (modeOf cfg)) st cur in
  Next (setCursorRowValue r st).

(** case "y". *)
Definition cmdYank (st : State) : Outcome :=
  let? cur := cursorRowValue st in
  let? c := cursorCell st cur in
  Next (setMessage ("yanked the current cell: " +:+ Text c)
          (setKillbuffer (Text c) st)).

(** case "p". *)
Definition cmdPaste (cfg : Config) (st : State) : Outcome :=
  let m := checkWriteProtect cfg (cursorRow st) in
  if nonEmpty m then Next (setMessage m st)
  else
    let? cur := cursorRowValue st in
    let? r := Replace (cursorCol st) (killbuffer st) (modeOf cfg) cur in
    Next (setMessage ("pasted: " +:+ killbuffer st) (setCursorRowValue r st)).

(** case "d", "x". *)
Definition cmdDeleteCell (cfg : Config) (st : State) : Outcome :=
  let m := checkWriteProtectAndColumn cfg (cursorRow st) in
  if nonEmpty m then Next (setMessage m st)
  else
    let? cur := cursorRowValue st in
    if bool_decide (length (Cells cur) <= 1)%nat then
      let? r := Replace 0 EmptyString (modeOf cfg) cur in
      Next (setCursorRowValue r st)
    else
      let? r := Delete (cursorCol st) cur in
      Next (setCursorRowValue r st).

(** The case of the double quote key. *)
Definition cmdQuote (cfg : Config) (st : State) : Outcome :=
  let mode := modeOf cfg in
  let? cur := cursorRowValue st in
  let? cursor := cursorCell st cur in
  if IsQuoted cursor then
    let? r := Replace (cursorCol st) (Text cursor) mode cur in
    Next (setCursorRowValue r st)
  else
    let? r := updateCursorCell (Quote mode) st cur in
    Next (setCursorRowValue r st).

(** Modelled from the spec: [cmdWrite] of this package is not in the
    sources at hand; it serialises the document it is called with.  The
    call is recorded and its error is that of the input. *)
Definition cmdWrite (inp : Input) (st : State) : State * option error :=
  (logWrite st, writeErr inp).

(** case "w". *)
Definition cmdWriteOut (inp : Input) (st : State) : Outcome :=
  let drained :=
    match fetch st with
    | Some src =>
        let '(l, err, src') := drain src (rows st) in
        (setFetch (Some src') (setRows l st), err)
    | None => (st, None)
    end in
  match drained with
  | (st1, Some err) => Failed st1 err
  | (st1, None) =>
      match cmdWrite inp st1 with
      | (st2, Some err) => Next (setMessage (errorText err) st2)
      | (st2, None) => Next st2
      end
  end.

(** [_Application.YesNo]. *)
Definition YesNo (inp : Input) : bool :=
  match yesKey inp with
  | (ch, None) => bool_decide (ch = "y")
  | (_, Some _) => false
  end.

(** The cases of [switch ch]. *)
Inductive Command :=
  | Redraw | QuitEditor | Down | Up | Left | Right | Home | End_
  | Top | Bottom | SearchNext | SearchPrev | SearchFor (s : Search)
  | OpenBelow | OpenAbove | DeleteRow | InsertCell | AppendCell
  | ReplaceCell | Undo | Yank | Paste | DeleteCell | ToggleQuote
  | WriteOut | NoCommand.

Definition oneOf (ch : string) (l : list string) : bool :=
  bool_decide (ch ∈ l).

(** The case a key selects. *)
Definition binding (ch : string) : Command :=
  if oneOf ch [keys.CtrlL] then Redraw
  else if oneOf ch ["q"; keys.Escape] then QuitEditor
  else if oneOf ch ["j"; keys.Down; keys.CtrlN; keys.Enter] then Down
  else if oneOf ch ["k"; keys.Up; keys.CtrlP] then Up
  else if oneOf ch ["h"; keys.Left; keys.CtrlB; keys.ShiftTab] then Left
  else if oneOf ch ["l"; keys.Right; keys.CtrlF; keys.CtrlI] then Right
  else if oneOf ch ["0"; "^"; keys.CtrlA] then Home
  else if oneOf ch ["$"; keys.CtrlE] then End_
  else if oneOf ch ["<"] then Top
  else if oneOf ch [">"; "G"] then Bottom
  else if oneOf ch ["n"] then SearchNext
  else if oneOf ch ["N"] then SearchPrev
  else if oneOf ch ["/"] then SearchFor Forward
  else if oneOf ch ["?"] then SearchFor Backward
  else if oneOf ch ["o"] then OpenBelow
  else if oneOf ch ["O"] then OpenAbove
  else if oneOf ch ["D"] then DeleteRow
  else if oneOf ch ["i"] then InsertCell
  else if oneOf ch ["a"] then AppendCell
  else if oneOf ch ["r"; "R"; keys.F2] then ReplaceCell
  else if oneOf ch ["u"] then Undo
  else if oneOf ch ["y"] then Yank
  else if oneOf ch ["p"] then Paste
  else if oneOf ch ["d"; "x"] then DeleteCell
  else if oneOf ch [str1 DQUOTE] then ToggleQuote
  else if oneOf ch ["w"] then WriteOut
  else NoCommand.

Definition opposite (s : Search) : Search :=
  match s with
  | Forward => Backward
  | Backward => Forward
  end.

(** The built-in commands, [switch ch { ... }]. *)
Definition command (cfg : Config) (inp : Input) (c : Command) (st : State) : Outcome :=
  match c with
  | Redraw => Next st
  | QuitEditor => if ReadOnly cfg || YesNo inp then Done st None else Next st
  | Down =>
      if bool_decide (S (cursorRow st) < length (rows st))%nat
      then Next (setCursorRow (S (cursorRow st)) st)
      else Next st
  | Up =>
      match cursorRow st with
      | S prev => Next (setCursorRow prev st)
      | O => Next st
      end
  | Left =>
      if bool_decide (0 < cursorCol st) then Next (setCursorCol (cursorCol st - 1) st)
      else Next st
  | Right => Next (setCursorCol (cursorCol st + 1) st)
  | Home => Next (setCursorCol 0 st)
  | End_ =>
      let? cur := cursorRowValue st in
      Next (setCursorCol (Z.of_nat (length (Cells cur)) - 1) st)
  | Top => Next (setCursorCol 0 (setCursorRow O st))
  | Bottom => Next (setCursorRow (length (rows st) - 1) st)
  | SearchNext =>
      if nonEmpty (lastWord st) then jump (lastSearch st) st else Next st
  | SearchPrev =>
      if nonEmpty (lastWord st) then jump (lastSearchRev st) st else Next st
  | SearchFor s =>
      let st1 := setSearch (lastSearch st) (lastSearchRev st) (line inp).1 st in
      match (line inp).2 with
      | Some err =>
          if negb (isCtrlC err) then Next (setMessage (errorText err) st1)
          else Next st1
      | None =>
          let st2 := setSearch s (opposite s) (lastWord st1) st1 in
          jump s st2
      end
  | OpenBelow => cmdOpenBelow cfg inp st
  | OpenAbove => cmdOpenAbove cfg inp st
  | DeleteRow => cmdDeleteRow cfg st
  | InsertCell => cmdInsertCell cfg inp st
  | AppendCell => cmdAppendCell cfg inp st
  | ReplaceCell => cmdReplaceCell cfg inp st
  | Undo => cmdUndo cfg st
  | Yank => cmdYank st
  | Paste => cmdPaste cfg st
  | DeleteCell => cmdDeleteCell cfg st
  | ToggleQuote => cmdQuote cfg st
  | WriteOut => cmdWriteOut inp st
  | NoCommand => Next st
  end.

(** The key handed to a handler of [KeyMap] or to the built-in commands. *)
Definition dispatch (cfg : Config) (inp : Input) (st : State) : Outcome :=
  match KeyMap cfg !! key inp with
  | Some handler =>
      let '(cmdResult, err, a) :=
        runHandler handler (app st) (cursorRow st) (cursorCol st) in
      let st1 := setApp a st in
      match err with
      | Some e => Done st1 (Some e)
      | None =>
          if Quit cmdResult then Done st1 None
          else Next (setMessage (Message cmdResult) st1)
      end
  | None => command cfg inp (binding (key inp)) st
  end.

(** The clamp of the cursor column at the end of a turn. *)
Definition clamp (st : State) : Outcome :=
  let? cur := cursorRowValue st in
  let L := Z.of_nat (length (Cells cur)) in
  if bool_decide (L <= 0) then Next (setCursorCol 0 st)
  else if bool_decide (L <= cursorCol st) then Next (setCursorCol (L - 1) st)
  else Next st.

(** The key that was read, handled. *)
Definition handleKey (cfg : Config) (inp : Input) (st : State) : Outcome :=
  match dispatch cfg inp (setMessage EmptyString st) with
  | Next st1 => clamp st1
  | o => o
  end.

(** One turn of the loop of [edit]: the frame is drawn, the key is awaited
    while the ingestion goes on, the key is handled and the cursor column
    clamped. *)
Definition iteration (cfg : Config) (inp : Input) (st : State) : Outcome :=
  match sizeErr inp with
  | Some e => Failed st e
  | None =>
      let st1 := await (idle inp) st in
      match keyErr inp with
      | Some e => Failed st1 e
      | None => handleKey cfg inp st1
      end
  end.

(** The loop, for the turns whose inputs are given. *)
Fixpoint turns (cfg : Config) (inps : list Input) (st : State) : Outcome :=
  match inps with
  | [] => Next st
  | inp :: rest =>
      match iteration cfg inp st with
      | Next st1 => turns cfg rest st1
      | o => o
      end
  end.

(** [Config.edit] for the turns whose inputs are given: the prefetch, then
    the loop. *)
Definition edit (cfg : Config) (fetch0 : option Source) (inps : list Input)
    : Outcome :=
  match start cfg fetch0 with
  | Next st0 => turns cfg inps st0
  | o => o
  end.

(** *** The predicates the properties are stated with *)

(** The row has at least one cell. *)
Definition hasCell (r : Row) : Prop := (0 < length (Cells r))%nat.

(** Every row the source has yet to deliver has at least one cell. *)
Definition sourceOK (f : option Source) : Prop :=
  match f with
  | Some src => Forall hasCell (pending src) /\ hasCell (last src)
  | None => True
  end.

(** What holds after a command and before the clamp: every row has a cell,
    the cursor handle points to a row of the document, the cursor column is
    not negative. *)
Definition pre (st : State) : Prop :=
  Forall hasCell (rows st)
  /\ (cursorRow st < length (rows st))%nat
  /\ 0 <= cursorCol st
  /\ sourceOK (fetch st).

(** [0 <= cursorCol < len(cursorRow.Cell)]. *)
Definition inBounds (st : State) : Prop :=
  exists cur, cursorRowValue st = Some cur
              /\ 0 <= cursorCol st < Z.of_nat (length (Cells cur)).

(** The invariant at the start of a turn of the loop. *)
Definition wf (st : State) : Prop := pre st /\ inBounds st.

(** The outcome is no fault and its state satisfies [P]. *)
Definition post (P : State -> Prop) (o : Outcome) : Prop :=
  match o with
  | Next s | Done s _ | Failed s _ => P s
  | Panic => False
  end.



(** What is the same in the two states: the document and the cursor. *)
Definition sameDocument (st st' : State) : Prop :=
  app st' = app st /\ cursorRow st' = cursorRow st /\ cursorCol st' = cursorCol st.

(** The terminators of the rows, in order. *)
Definition terms (l : list Row) : list string := map Term l.

(** A row has an empty terminator only if it is the last row. *)
Definition termOK (l : list Row) : Prop :=
  forall i r, l !! i = Some r -> Term r = EmptyString -> S i = length l.

(** The same, on the list of the terminators. *)
Definition termsOK (ts : list string) : Prop :=
  forall i, ts !! i = Some EmptyString -> S i = length ts.

End csvi.

(** ** Concrete documents used by the examples below *)

(** The scenario of the specification: two lines, the third field quoted. *)
Definition scenarioBytes : string :=
  "a,b," +:+ String DQUOTE "c,d" +:+ String DQUOTE (str1 LF) +:+ "1,2,3" +:+ strLF.

Definition rowLF : uncsv.Row :=
  uncsv.mkRow [uncsv.mkCell "a" "a" false false] strLF.


(** A grid with one line; the term [x] occurs in its second cell only. *)
Definition gridAX : list (list string) := [["a"; "x"]].

(** A line renderer, a terminal and two frames for the examples: the row is
    painted as the texts of its cells one after the other, the cursor row
    marked, and a painted line replaces what the row showed. *)
Definition plainLine (cells : list uncsv.Cell) (cellWidth w cursorPos : Z)
    (reverse : bool) (style : Render.ColorStyle) : string :=
  (if bool_decide (0 <= cursorPos) then ">" else " ")
  +:+ concatS (map uncsv.Text cells).


Definition frameAB : Render.Frame :=
  Render.mkFrame [[uncsv.decode "a"]; [uncsv.decode "b"]] 14 0 0 79 23
                 Render.bodyColorStyle.

Definition frameAB' : Render.Frame :=
  Render.mkFrame [[uncsv.decode "a"]; [uncsv.decode "b"]] 14 0 1 79 23
                 Render.bodyColorStyle.

(** Configurations: the defaults with the comma mode, the same read-only,
    and the configuration whose [Mode] is nil. *)
Definition cfgPlain : csvi.Config :=
  csvi.mkConfig (Some csvMode) 14 0 false false false EmptyString ∅ None.

Definition cfgReadOnly : csvi.Config :=
  csvi.mkConfig (Some csvMode) 14 0 false true false EmptyString ∅ None.

Definition cfgNilMode : csvi.Config :=
  csvi.mkConfig None 14 0 false false false EmptyString ∅ None.

(** A turn in which the key [ch] arrives at once and no dialog is answered;
    a turn in which the dialog is cancelled; a turn in which [text] is
    entered. *)
Definition pressed (ch : string) : csvi.Input :=
  csvi.mkInput None O ch None (EmptyString, None) (EmptyString, None) None.

Definition cancelled (ch : string) : csvi.Input :=
  csvi.mkInput None O ch None (EmptyString, Some csvi.CtrlC) (EmptyString, None) None.

Definition entered (ch text : string) : csvi.Input :=
  csvi.mkInput None O ch None (text, None) (EmptyString, None) None.

(** The same as [pressed], the key arriving after [n] idle turns. *)
Definition pressedAfter (n : nat) (ch : string) : csvi.Input :=
  csvi.mkInput None n ch None (EmptyString, None) (EmptyString, None) None.

(** The loop state over the document [l], the cursor on its first cell and
    the source exhausted. *)
Definition loaded (l : list uncsv.Row) : csvi.State :=
  csvi.mkState (csvi.mkApplication l []) None O 0 csvi.Forward csvi.Backward
               EmptyString EmptyString EmptyString [].

(** Rows: the line [a] without terminator, as read from the input [a]; the
    line [a,b] ended by a line feed. *)
Definition rowA : uncsv.Row := uncsv.mkRow [uncsv.decode "a"] EmptyString.
Definition rowAB : uncsv.Row := uncsv.mkRow [uncsv.decode "a"; uncsv.decode "b"] strLF.

(** A source of a hundred lines ended by a line feed: after them the
    reader finds the end of the input and delivers the all-empty row. *)
Definition source100 : csvi.Source :=
  csvi.mkSource (replicate 100 rowLF) csvi.emptyRow csvi.EOF.

(** A source with one line to come. *)
Definition source1 : csvi.Source :=
  csvi.mkSource [rowLF] csvi.emptyRow csvi.EOF.

(** The loop state with the document [l] and the source [src] not yet
    exhausted. *)
Definition loading (l : list uncsv.Row) (src : csvi.Source) : csvi.State :=
  csvi.mkState (csvi.mkApplication l []) (Some src) O 0 csvi.Forward csvi.Backward
               EmptyString EmptyString EmptyString [].

(** * Further parts of the program *)

From Stdlib Require DecimalString.

(** ** The grid in reading order *)

Module Reading.

(** The cell at row [r] and column [c] of the grid, if there is one. *)
Definition cellAt (csvlines : list (list string)) (r c : Z) : option string :=
  if bool_decide (0 <= r /\ 0 <= c) then
    match csvlines !! Z.to_nat r with
    | Some row => row !! Z.to_nat c
    | None => None
    end
  else None.

(** Whether the cell at ([r], [c]) exists and contains the target. *)
Definition matchAt (target : string) (csvlines : list (list string)) (r c : Z) : bool :=
  match cellAt csvlines r c with
  | Some cell => Contains cell target
  | None => false
  end.

(** Reading order: row by row, and from left to right within a row. *)
Definition before (r c r' c' : Z) : Prop := r < r' \/ (r = r' /\ c < c').

End Reading.

(** ** Notions about the commands of the main loop *)

Module Editing.

Import uncsv csvi.

(** The cases of [switch ch] that move the cursor, search, copy the cell,
    redraw or quit. *)
Definition navigation : list Command :=
  [Redraw; QuitEditor; Down; Up; Left; Right; Home; End_; Top; Bottom;
   SearchNext; SearchPrev; SearchFor Forward; SearchFor Backward; Yank; NoCommand].

(** The validation callback answers the text with the error [e], at
    whatever cell it is asked. *)
Definition rejects (cfg : Config) (text : string) (e : error) : Prop :=
  forall (row : nat) (col : Z), (validate cfg row col text).2 = Some e.


(** The number of cells of the row at index [r]; 0 when there is no such row. *)
Definition widthAt (st : State) (r : nat) : Z :=
  match rows st !! r with
  | Some row => Z.of_nat (length (Cells row))
  | None => 0
  end.

(** The cells of the rows, without their terminators. *)
Definition cellsOf (l : list Row) : list (list Cell) := map Cells l.

End Editing.

(** ** Text on the terminal *)

Module Text.

Definition ESC : ascii := "027"%char.

(** What a drawing routine writes to its writer, call by call: a fixed
    escape sequence, a piece of text, one space, and the formatted cursor
    move of [fmt.Fprintf(out, "\x1B[%dG", col)].

    A piece of text is held as the sequence of its runes, each rune by the
    bytes that encode it: the loop [for n, c := range s] steps over the
    runes of a Go string, and the prefix [s[:n]] is made of the runes
    before the byte offset [n]. *)
Inductive Piece :=
  | Esc (s : string)
  | Txt (rs : list string)
  | Sp
  | Goto (col : Z).

(** The verb [%d] of package [fmt] applied to an [int]. *)
Definition decimal (n : Z) : string :=
  DecimalString.NilZero.string_of_int (Z.to_int n).

(** The bytes a piece puts on the writer. *)
Definition bytesOf (p : Piece) : string :=
  match p with
  | Esc s => s
  | Txt rs => concatS rs
  | Sp => " "
  | Goto col => String ESC ("[" +:+ decimal col +:+ "G")
  end.

Definition bytes (ps : list Piece) : string := concatS (map bytesOf ps).

(** A [strings.Replacer] whose old strings are single bytes: every byte
    that has an entry in the table is replaced, the others are kept. *)
Fixpoint replaceBytes (table : ascii -> option string) (s : string) : string :=
  match s with
  | EmptyString => EmptyString
  | String c rest =>
      match table c with
      | Some new => new +:+ replaceBytes table rest
      | None => String c (replaceBytes table rest)
      end
  end.

(** The UTF-8 encoding of a code point from U+2000 to U+2FFF, given by its
    second and third byte. *)
Definition utf8_E2 (b2 b3 : ascii) : string :=
  String "226"%char (String b2 (String b3 EmptyString)).

Section Runes.

(** The runes of a string as [range] yields them, each by its bytes, and
    [runewidth.RuneWidth] of package [go-runewidth], the number of terminal
    columns a rune takes. *)
Variable runes : string -> list string.
Variable RuneWidth : string -> Z.

(** The loop of [cutStrInWidth] over the runes [rs] left, [w] being the
    width of the runes that were kept: the runes kept and the width
    reached. *)
Fixpoint cutRunes (rs : list string) (w cellwidth : Z) : list string * Z :=
  match rs with
  | [] => ([], w)
  | c :: rest =>
      let w1 := RuneWidth c in
      if bool_decide (cellwidth < w + w1) then ([], w)
      else
        let '(kept, w') := cutRunes rest (w + w1) cellwidth in
        (c :: kept, w')
  end.

(** [cutStrInWidth]: the longest prefix of [s] whose runes fit in
    [cellwidth] columns, and its width. *)
Definition cutStrInWidth (s : string) (cellwidth : Z) : list string * Z :=
  cutRunes (runes s) 0 cellwidth.

(** The width of a sequence of runes. *)
Definition widthOf (rs : list string) : Z :=
  fold_right (fun c acc => RuneWidth c + acc) 0 rs.

(** The number of columns the pieces fill when they are written one after
    the other: the text and the spaces. *)
Definition columnsOf (ps : list Piece) : Z :=
  fold_right (fun p acc =>
                match p with
                | Txt rs => widthOf rs + acc
                | Sp => 1 + acc
                | _ => acc
                end) 0 ps.

(** The columns at which the pieces of text begin and end when the pieces
    are written from column [col] on (columns count from 1): an escape
    sequence takes no column and [Goto] places the cursor. *)
Fixpoint spans (ps : list Piece) (col : Z) : list (Z * Z) :=
  match ps with
  | [] => []
  | Esc _ :: rest => spans rest col
  | Txt rs :: rest => (col, col + widthOf rs) :: spans rest (col + widthOf rs)
  | Sp :: rest => spans rest (col + 1)
  | Goto c :: rest => spans rest c
  end.

End Runes.

(** The runes and the widths of a text of printable ASCII characters: every
    byte is a rune and takes one column. *)
Fixpoint asciiRunes (s : string) : list string :=
  match s with
  | EmptyString => []
  | String c rest => str1 c :: asciiRunes rest
  end.

Definition asciiWidth (c : string) : Z := 1.

End Text.

(** ** Package csvi: the line renderer, the view and the viewport *)

Module Screen.

Import uncsv Render Text.

Definition _ANSI_UNDERLINE_ON : string := String ESC "[4m".
Definition _ANSI_UNDERLINE_OFF : string := String ESC "[24m".

(** The sequence [\x1B[K] that erases the line from the cursor on. *)
Definition eraseToEnd : string := String ESC "[K".

(** [replaceTable]: the carriage return, the escape character, the line
    feed and the tabulator are replaced by the control pictures U+240D,
    U+241B, U+240A and U+2409. *)
Definition replaceTable : string -> string :=
  replaceBytes (fun c =>
    if Ascii.eqb c CR then Some (utf8_E2 "144"%char "141"%char)
    else if Ascii.eqb c ESC then Some (utf8_E2 "144"%char "155"%char)
    else if Ascii.eqb c LF then Some (utf8_E2 "144"%char "138"%char)
    else if Ascii.eqb c "009"%char then Some (utf8_E2 "144"%char "137"%char)
    else None).

Section Line.

Variable runes : string -> list string.
Variable RuneWidth : string -> Z.

(** The inner loop of [drawLine],
    [for len(csvs) > 0 && csvs[0].Text() == "" && nextI != cursorPos],
    which lets a cell run over the empty cells that follow it: the cells
    left, [nextI] and [cw]. *)
Fixpoint mergeEmpty (csvs : list Cell) (nextI cursorPos cw cellWidth : Z)
    : list Cell * Z * Z :=
  match csvs with
  | c :: rest =>
      if bool_decide (Text c = EmptyString) && negb (bool_decide (nextI = cursorPos))
      then mergeEmpty rest (nextI + 1) cursorPos (cw + cellWidth) cellWidth
      else (csvs, nextI, cw)
  | [] => ([], nextI, cw)
  end.

(** The loop [for len(csvs) > 0 { ... }] of [drawLine].  Every turn takes
    one cell at least; [fuel] bounds the turns and is the number of cells
    at the start. *)
Fixpoint cellLoop (fuel : nat) (csvs : list Cell) (i screenWidth : Z)
    (cellWidth cursorPos : Z) (reverse : bool) (style : ColorStyle) : list Piece :=
  match fuel, csvs with
  | S fuel', cursor :: rest =>
      let '(csvs', nextI, cw) := mergeEmpty rest (i + 1) cursorPos cellWidth cellWidth in
      let cw :=
        if bool_decide (screenWidth < cw) || bool_decide (length csvs' <= 0)%nat
        then screenWidth else cw in
      let text := replaceTable (Text cursor) in
      let ss := (cutStrInWidth runes RuneWidth text cw).1 in
      let atCursor := bool_decide (i = cursorPos) in
      let band := if reverse then (Odd style).1 else (Even style).1 in
      (if atCursor then [Esc (Cursor style).1] else [])
      ++ (if Modified cursor then [Esc _ANSI_UNDERLINE_ON] else [])
      ++ [Txt ss]
      ++ (if Modified cursor then [Esc _ANSI_UNDERLINE_OFF] else [])
      ++ (if atCursor then [Esc eraseToEnd; Esc band] else [])
      ++ (let screenWidth' := screenWidth - cw in
          if bool_decide (screenWidth' <= 0) then []
          else
            [Goto (nextI * cellWidth + 1)]
            ++ (if atCursor then [Esc eraseToEnd] else [])
            ++ cellLoop fuel' csvs' nextI screenWidth' cellWidth cursorPos reverse style)
  | _, _ => []
  end.

(** [drawLine]: the pieces written for one row.  The closing sequence of
    the band is written by the deferred call, when the function returns. *)
Definition drawLinePieces (csvs : list Cell) (cellWidth screenWidth cursorPos : Z)
    (reverse : bool) (style : ColorStyle) : list Piece :=
  if bool_decide (length csvs <= 0)%nat && bool_decide (0 <= cursorPos) then
    [Esc (Cursor style).1; Esc eraseToEnd; Esc (Cursor style).2]
  else
    let band := if reverse then Odd style else Even style in
    [Esc band.1; Esc eraseToEnd]
    ++ cellLoop (length csvs) csvs 0 screenWidth cellWidth cursorPos reverse style
    ++ [Esc band.2].

(** [drawLine]: the bytes that reach the writer. *)
Definition drawLine (csvs : list Cell) (cellWidth screenWidth cursorPos : Z)
    (reverse : bool) (style : ColorStyle) : string :=
  bytes (drawLinePieces csvs cellWidth screenWidth cursorPos reverse style).

(** [cellsAfter]: the cells from index [n] on.  A negative [n] passes the
    test [n <= len(cells)] and makes the slice expression fault. *)
Definition cellsAfter (cells : list Cell) (n : Z) : option (list Cell) :=
  if bool_decide (n <= Z.of_nat (length cells)) then
    if bool_decide (0 <= n) then Some (drop (Z.to_nat n) cells) else None
  else Some [].

(** [_View]: the two caches. *)
Record View := mkView {
  headCache : gmap Z string;
  bodyCache : gmap Z string
}.

Definition newView : View := mkView ∅ ∅.

Definition clearCache (v : View) : View := mkView ∅ ∅.

(** Modelled from the spec: [RowPtr.Next] on row handles, a handle being the
    index of its row and nil being [None]: the handle [k] rows further
    down, nil when the document ends before. *)
Definition advance (rows : list Row) (p : nat) (k : nat) : option nat :=
  if bool_decide (p + k < length rows)%nat then Some (p + k)%nat else None.

(** The rows an iterator of [Draw] hands to its callback: [cellsAfter] of
    at most [count] rows from the handle [from] on. *)
Definition yield (rows : list Row) (from : option nat) (count : nat) (startCol : Z)
    : option (list (list Cell)) :=
  match from with
  | None => Some []
  | Some p => mapM (fun r => cellsAfter (Cells r) startCol) (take count (drop p rows))
  end.

(** The style of the body: the bands are exchanged when the number of
    header lines is odd. *)
Definition bodyStyle (headerLines : Z) : ColorStyle :=
  if bool_decide (Z.rem headerLines 2 = 1) then
    {| Cursor := Cursor bodyColorStyle;
       Even := Odd bodyColorStyle;
       Odd := Even bodyColorStyle |}
  else bodyColorStyle.

(** The header page of [Draw]: the iterator over at most [headerLines]
    rows from the handle [header] on, and the arguments of [drawPage]. *)
Definition headFrame (rows : list Row) (header cursorRow : option nat)
    (cellWidth headerLines startCol cursorCol screenWidth : Z) : option Frame :=
  cur ← cursorRow;
  page ← yield rows header (Z.to_nat headerLines) startCol;
  Some (mkFrame page cellWidth (cursorCol - startCol) (Z.of_nat cur)
                (screenWidth - 1) headerLines headColorStyle).

(** The handle the body starts at:
    [if startRow.lnum < headerLines { for i := 0; i < headerLines && startRow != nil; i++ { startRow = startRow.Next() } }]. *)
Definition bodyStart (rows : list Row) (startRow : nat) (headerLines : Z) : option nat :=
  if bool_decide (Z.of_nat startRow < headerLines)
  then advance rows startRow (Z.to_nat headerLines)
  else Some startRow.

(** The body page of [Draw]: the iterator over the rows from the handle
    [p] on, and the arguments of [drawPage]. *)
Definition bodyFrame (rows : list Row) (p : nat) (cursorRow : option nat)
    (cellWidth headerLines startCol cursorCol screenHeight screenWidth : Z)
    : option Frame :=
  cur ← cursorRow;
  page ← yield rows (Some p) (length rows) startCol;
  Some (mkFrame page cellWidth (cursorCol - startCol)
                (Z.of_nat cur - Z.of_nat p)
                (screenWidth - 1) (screenHeight - 1) (bodyStyle headerLines)).

(** [_View.Draw] over the document [rows]: what is written, the caches
    afterwards and the number of line breaks returned; [None] is a
    run-time fault (a nil handle dereferenced, a slice out of range). *)
Definition Draw (rows : list Row) (v : View) (header startRow cursorRow : option nat)
    (cellWidth headerLines startCol cursorCol screenHeight screenWidth : Z)
    : option (list Out * View * Z) :=
  head ← (if bool_decide (0 < headerLines) then
            f ← headFrame rows header cursorRow cellWidth headerLines startCol
                          cursorCol screenWidth;
            Some (drawPage drawLine f (headCache v))
          else Some ([], headCache v, 0));
  let '(outH, cacheH, lfH) := head in
  s ← startRow;
  match bodyStart rows s headerLines with
  | None => Some (outH, mkView cacheH (bodyCache v), lfH)
  | Some p =>
      f ← bodyFrame rows p cursorRow cellWidth headerLines startCol cursorCol
                    screenHeight screenWidth;
      let '(outB, cacheB, lfB) := drawPage drawLine f (bodyCache v) in
      Some (outH ++ outB, mkView cacheH cacheB, lfH + lfB)
  end.

End Line.

(** The number of line breaks in what was written. *)
Fixpoint lineBreaks (out : list Out) : Z :=
  match out with
  | [] => 0
  | CRLF :: rest => 1 + lineBreaks rest
  | Line _ :: rest => lineBreaks rest
  end.

(** The cell width [edit] works with: 14 when the configured width is not
    positive; and [cols], the number of cells a screen row shows (Go's
    division truncates towards zero). *)
Definition cellWidthOf (cfg : csvi.Config) : Z :=
  if bool_decide (csvi.CellWidth cfg <= 0) then 14 else csvi.CellWidth cfg.

Definition colsOf (screenWidth cellWidth : Z) : Z := Z.quot (screenWidth - 1) cellWidth.

(** Modelled from the spec: [RowPtr.Prev] steps to the row above and is nil
    on the first row.  The loop
    [for startRow = cursorRow.Clone(); startRow.lnum > goal; startRow = startRow.Prev()]
    from the handle [p]; the test on a nil handle is a fault. *)
Fixpoint walkBack (p : nat) (goal : Z) : option nat :=
  match p with
  | O => if bool_decide (goal < 0) then None else Some O
  | S p' => if bool_decide (goal < Z.of_nat (S p')) then walkBack p' goal else Some (S p')
  end.

(** The adjustment of the viewport at the end of a turn of [edit]: the new
    [startRow] and the new [startCol]. *)
Definition scrollRow (cursorRow startRow : nat) (screenHeight : Z) : option nat :=
  if bool_decide (cursorRow < startRow)%nat then Some cursorRow
  else if bool_decide (Z.of_nat startRow + screenHeight - 1 <= Z.of_nat cursorRow)
  then walkBack cursorRow (Z.of_nat cursorRow - (screenHeight - 1) + 1)
  else Some startRow.

Definition scrollCol (cursorCol startCol cols : Z) : Z :=
  if bool_decide (cursorCol < startCol) then cursorCol
  else if bool_decide (startCol + cols <= cursorCol) then cursorCol - cols + 1
  else startCol.



End Screen.

(** ** Package main, the older editor on a grid of strings *)

Module Legacy.

Import Text.

Definition CURSOR_COLOR : string := String ESC "[0;40;37;1;7m".
Definition CELL1_COLOR : string := String ESC "[0;48;5;235;37;1m".
Definition CELL2_COLOR : string := String ESC "[0;40;37;1m".
Definition ERASE_LINE : string := String ESC "[0m" +:+ String ESC "[0K".

Definition CELL_WIDTH : Z := 14.

(** [replaceTable] of this package: the carriage return is shown as U+240A,
    the escape character as U+241B, the line feed as U+2936 and the
    tabulator as U+21E5. *)
Definition replaceTable : string -> string :=
  replaceBytes (fun c =>
    if Ascii.eqb c CR then Some (utf8_E2 "144"%char "138"%char)
    else if Ascii.eqb c ESC then Some (utf8_E2 "144"%char "155"%char)
    else if Ascii.eqb c LF then Some (utf8_E2 "164"%char "182"%char)
    else if Ascii.eqb c "009"%char then Some (utf8_E2 "135"%char "165"%char)
    else None).

(** [LineView]; the writer [Out] is what [Draw] returns. *)
Record LineView := mkLineView {
  CSV : list string;
  CellWidth : Z;
  MaxInLine : Z;
  CursorPos : Z;
  Reverse : bool
}.

Section Line.

Variable runes : string -> list string.
Variable RuneWidth : string -> Z.

(** The inner loop of [LineView.Draw],
    [for len(csvs) > 0 && csvs[0] == "" && nextI != v.CursorPos]. *)
Fixpoint mergeEmpty (csvs : list string) (nextI cursorPos cw cellWidth : Z)
    : list string * Z * Z :=
  match csvs with
  | s :: rest =>
      if bool_decide (s = EmptyString) && negb (bool_decide (nextI = cursorPos))
      then mergeEmpty rest (nextI + 1) cursorPos (cw + cellWidth) cellWidth
      else (csvs, nextI, cw)
  | [] => ([], nextI, cw)
  end.

(** The loop [for len(csvs) > 0 { ... }] of [LineView.Draw]; [fuel] bounds
    the turns and is the number of cells at the start. *)
Fixpoint cellLoop (fuel : nat) (v : LineView) (csvs : list string)
    (i leftWidth : Z) : list Piece :=
  match fuel, csvs with
  | S fuel', s :: rest =>
      let '(csvs', nextI, cw) :=
        mergeEmpty rest (i + 1) (CursorPos v) (CellWidth v) (CellWidth v) in
      let cw :=
        if bool_decide (leftWidth < cw) || bool_decide (length csvs' <= 0)%nat
        then leftWidth else cw in
      let '(ss, w) := cutStrInWidth runes RuneWidth (replaceTable s) cw in
      let colour :=
        if bool_decide (i = CursorPos v) then CURSOR_COLOR
        else if Reverse v then CELL2_COLOR else CELL1_COLOR in
      let pad := Z.to_nat (cw - w) in
      let leftWidth' := leftWidth - w - Z.of_nat pad in
      [Esc colour; Txt ss] ++ replicate pad Sp
      ++ (if bool_decide (leftWidth' <= 0) then []
          else cellLoop fuel' v csvs' nextI leftWidth')
  | _, _ => []
  end.

(** [LineView.Draw]: the pieces written. *)
Definition Draw (v : LineView) : list Piece :=
  cellLoop (length (CSV v)) v (CSV v) 0 (MaxInLine v) ++ [Esc ERASE_LINE].

(** [MemoryCsv], the window on the grid that [view] reads row by row. *)
Record MemoryCsv := mkMemoryCsv {
  Data : list (list string);
  StartX : Z;
  StartY : Z
}.

(** [MemoryCsv.Read]: the row or [io.EOF] ([None]) and the reader
    afterwards; the outer [None] is a run-time fault (a negative index). *)
Definition Read (this : MemoryCsv) : option (option (list string) * MemoryCsv) :=
  if bool_decide (Z.of_nat (length (Data this)) <= StartY this) then Some (None, this)
  else if bool_decide (StartY this < 0) then None
  else
    match Data this !! Z.to_nat (StartY this) with
    | None => None
    | Some csv =>
        let next := mkMemoryCsv (Data this) (StartX this) (StartY this + 1) in
        if bool_decide (StartX this <= Z.of_nat (length csv)) then
          if bool_decide (StartX this < 0) then None
          else Some (Some (drop (Z.to_nat (StartX this)) csv), next)
        else Some (Some [], next)
    end.

(** The loop of [view]; [n] is the number of rows the height still leaves
    room for ([h - count]). *)
Fixpoint viewLoop (n : nat) (rd : MemoryCsv) (csrpos csrlin w count lfCount : Z)
    (reverse : bool) (cache : gmap Z string)
    : option (list Render.Out * gmap Z string * Z) :=
  match n with
  | O => Some ([], cache, lfCount)
  | S n' =>
      match Read rd with
      | None => None
      | Some (None, _) => Some ([], cache, lfCount)
      | Some (Some record, rd') =>
          let lfCount1 := if bool_decide (0 < count) then lfCount + 1 else lfCount in
          let brk := if bool_decide (0 < count) then [Render.CRLF] else [] in
          let v := {| CSV := record;
                      CellWidth := CELL_WIDTH;
                      MaxInLine := w;
                      CursorPos := if bool_decide (count = csrlin) then csrpos else -1;
                      Reverse := reverse |} in
          let line := bytes (Draw v) in
          let '(wr, cache1) := Render.writeIfChanged cache count line in
          match viewLoop n' rd' csrpos csrlin w (count + 1) lfCount1 (negb reverse) cache1 with
          | None => None
          | Some (out, cache2, lfCount2) => Some (brk ++ wr ++ out, cache2, lfCount2)
          end
      end
  end.

(** [view]: what is written, the cache afterwards and the number of line
    breaks; the reader [MemoryCsv] never returns an error other than
    [io.EOF]. *)
Definition view (rd : MemoryCsv) (csrpos csrlin w h : Z) (cache : gmap Z string)
    : option (list Render.Out * gmap Z string * Z) :=
  viewLoop (Z.to_nat h) rd csrpos csrlin w 0 0 false cache.

End Line.

(** *** Slices *)

(** The slice expression [s[i:]]; an index out of range is a fault. *)
Definition sliceFrom {A : Type} (s : list A) (i : Z) : option (list A) :=
  if bool_decide (0 <= i <= Z.of_nat (length s)) then Some (drop (Z.to_nat i) s)
  else None.

(** The built-in [copy(dst, src)]: the elements of [dst] afterwards. *)
Definition copy {A : Type} (dst src : list A) : list A :=
  take (length dst) src ++ drop (length src) dst.

(** [copy(s[i:], s[j:])] within one slice, which may overlap: the slice
    afterwards. *)
Definition copyWithin {A : Type} (s : list A) (i j : Z) : option (list A) :=
  dst ← sliceFrom s i;
  src ← sliceFrom s j;
  Some (take (Z.to_nat i) s ++ copy dst src).

(** The index expression [s[i]] read and assigned. *)
Definition getAt {A : Type} (s : list A) (i : Z) : option A :=
  if bool_decide (0 <= i) then s !! Z.to_nat i else None.

Definition setAt {A : Type} (s : list A) (i : Z) (x : A) : option (list A) :=
  if bool_decide (0 <= i < Z.of_nat (length s)) then Some (<[Z.to_nat i := x]> s)
  else None.

(** [s[:len(s)-1]]. *)
Definition dropLast {A : Type} (s : list A) : option (list A) :=
  if bool_decide (1 <= length s)%nat then Some (take (length s - 1) s) else None.

(** *** The loop of [mains] *)

Inductive Direction :=
  | Forward
  | Backward.

(** The variables of the loop.  What is written to the terminal and to
    files is not part of the state. *)
Record State := mkState {
  csvlines : list (list string);
  colIndex : Z;
  rowIndex : Z;
  startRow : Z;
  startCol : Z;
  lastSearch : Direction;
  lastSearchRev : Direction;
  lastWord : string;
  message : string;
  lastWidth : Z;
  lastHeight : Z;
  cache : gmap Z string
}.

(** What the terminal and the user answer in one turn: [tty1.Size], the
    key, the key that answers the quit question, the result of [getline],
    and the message the write command ends with (the error of
    [filepath.Abs] or of [os.OpenFile], empty when there is none or when
    the dialog was cancelled). *)
Record Input := mkInput {
  size : Z * Z * option csvi.error;
  key : string * option csvi.error;
  confirm : string * option csvi.error;
  line : string * option csvi.error;
  written : string
}.

(** How a turn ends: the loop goes on, [mains] returns nil, [mains]
    returns an error, or a run-time fault. *)
Inductive Outcome :=
  | Next (st : State)
  | Done
  | Failed (err : csvi.error)
  | Panic.

Definition orPanic {A : Type} (o : option A) (k : A -> Outcome) : Outcome :=
  match o with
  | Some a => k a
  | None => Panic
  end.

Notation "'let!' x ':=' o 'in' k" := (orPanic o (fun x => k))
  (at level 10, x name, o at level 100, k at level 200).

Definition setGrid (l : list (list string)) (st : State) : State :=
  mkState l (colIndex st) (rowIndex st) (startRow st) (startCol st) (lastSearch st)
          (lastSearchRev st) (lastWord st) (message st) (lastWidth st) (lastHeight st)
          (cache st).

Definition setCol (c : Z) (st : State) : State :=
  mkState (csvlines st) c (rowIndex st) (startRow st) (startCol st) (lastSearch st)
          (lastSearchRev st) (lastWord st) (message st) (lastWidth st) (lastHeight st)
          (cache st).

Definition setRow (r : Z) (st : State) : State :=
  mkState (csvlines st) (colIndex st) r (startRow st) (startCol st) (lastSearch st)
          (lastSearchRev st) (lastWord st) (message st) (lastWidth st) (lastHeight st)
          (cache st).

Definition setStart (r c : Z) (st : State) : State :=
  mkState (csvlines st) (colIndex st) (rowIndex st) r c (lastSearch st)
          (lastSearchRev st) (lastWord st) (message st) (lastWidth st) (lastHeight st)
          (cache st).

Definition setSearch (s srev : Direction) (word : string) (st : State) : State :=
  mkState (csvlines st) (colIndex st) (rowIndex st) (startRow st) (startCol st) s srev
          word (message st) (lastWidth st) (lastHeight st) (cache st).

Definition setMessage (m : string) (st : State) : State :=
  mkState (csvlines st) (colIndex st) (rowIndex st) (startRow st) (startCol st)
          (lastSearch st) (lastSearchRev st) (lastWord st) m (lastWidth st)
          (lastHeight st) (cache st).

Definition setScreen (width height : Z) (c : gmap Z string) (st : State) : State :=
  mkState (csvlines st) (colIndex st) (rowIndex st) (startRow st) (startCol st)
          (lastSearch st) (lastSearchRev st) (lastWord st) (message st) width height c.

(** The row under the cursor, [csvlines[rowIndex]], read and assigned. *)
Definition cursorRow (st : State) : option (list string) :=
  getAt (csvlines st) (rowIndex st).

Definition setCursorRow (row : list string) (st : State) : option State :=
  l ← setAt (csvlines st) (rowIndex st) row;
  Some (setGrid l st).

Definition search (d : Direction) (st : State) : option (bool * Z * Z) :=
  match d with
  | Forward => Grid.searchForward (csvlines st) (rowIndex st) (colIndex st) (lastWord st)
  | Backward => Grid.searchBackward (csvlines st) (rowIndex st) (colIndex st) (lastWord st)
  end.

(** The part shared by the cases "n", "N", "/" and "?". *)
Definition jump (d : Direction) (st : State) : Outcome :=
  let! res := search d st in
  let '(found, r, c) := res in
  if found then Next (setCol c (setRow r st))
  else Next (setMessage (lastWord st +:+ ": not found") st).

(** case "O", and the end of case "o" that falls through to it: a row with
    one empty cell is put in at [rowIndex]. *)
Definition openRow (st : State) : Outcome :=
  let l := csvlines st ++ [[]] in
  if bool_decide (rowIndex st + 1 <= Z.of_nat (length l)) then
    let! l1 := copyWithin l (rowIndex st + 1) (rowIndex st) in
    let! l2 := setAt l1 (rowIndex st) [EmptyString] in
    Next (setGrid l2 st)
  else Next (setGrid l st).

(** case "o". *)
Definition openBelow (st : State) : Outcome :=
  if bool_decide (Z.of_nat (length (csvlines st)) - 1 < rowIndex st) then Next st
  else openRow (setRow (rowIndex st + 1) st).

(** case "D". *)
Definition deleteRow (st : State) : Outcome :=
  if bool_decide (length (csvlines st) <= 1)%nat then Next st
  else
    let! l1 := copyWithin (csvlines st) (rowIndex st) (rowIndex st + 1) in
    let! l2 := dropLast l1 in
    let st1 := setGrid l2 st in
    if bool_decide (Z.of_nat (length l2) <= rowIndex st)
    then Next (setRow (rowIndex st - 1) st1)
    else Next st1.

(** case "i". *)
Definition insertCell (inp : Input) (st : State) : Outcome :=
  match (line inp).2 with
  | Some _ => Next st
  | None =>
      let! row := cursorRow st in
      let row1 := row ++ [EmptyString] in
      let! row2 := copyWithin row1 (colIndex st + 1) (colIndex st) in
      let! row3 := setAt row2 (colIndex st) (line inp).1 in
      let! st1 := setCursorRow row3 st in
      Next (setCol (colIndex st + 1) st1)
  end.

(** case "a". *)
Definition appendCell (inp : Input) (st : State) : Outcome :=
  match (line inp).2 with
  | Some _ => Next st
  | None =>
      let! row := cursorRow st in
      let row1 := row ++ [EmptyString] in
      let col := colIndex st + 1 in
      let! row2 := copyWithin row1 (col + 1) col in
      let! row3 := setAt row2 col (line inp).1 in
      let! st1 := setCursorRow row3 st in
      Next (setCol col st1)
  end.

(** case "r", "R", F2; the cell is read for the default text of the
    dialog. *)
Definition replaceCell (inp : Input) (st : State) : Outcome :=
  let! row := cursorRow st in
  let! _cell := getAt row (colIndex st) in
  match (line inp).2 with
  | Some _ => Next st
  | None =>
      let! row1 := setAt row (colIndex st) (line inp).1 in
      let! st1 := setCursorRow row1 st in
      Next st1
  end.

(** case "d", "x". *)
Definition deleteCell (st : State) : Outcome :=
  let! row := cursorRow st in
  if bool_decide (length row <= 1)%nat then
    let! row1 := setAt row 0 EmptyString in
    let! st1 := setCursorRow row1 st in
    Next st1
  else
    let! row1 := copyWithin row (colIndex st) (colIndex st + 1) in
    let! row2 := dropLast row1 in
    let! st1 := setCursorRow row2 st in
    Next st1.

Definition oneOf (ch : string) (l : list string) : bool := bool_decide (ch ∈ l).

(** [switch ch { ... }]. *)
Definition command (inp : Input) (ch : string) (st : State) : Outcome :=
  if oneOf ch [keys.CtrlL] then Next (setScreen (lastWidth st) (lastHeight st) ∅ st)
  else if oneOf ch ["q"; keys.Escape] then
    match confirm inp with
    | (c, None) => if bool_decide (c = "y") then Done else Next st
    | (_, Some _) => Next st
    end
  else if oneOf ch ["j"; keys.Down; keys.CtrlN] then
    if bool_decide (rowIndex st < Z.of_nat (length (csvlines st)) - 1)
    then Next (setRow (rowIndex st + 1) st) else Next st
  else if oneOf ch ["k"; keys.Up; keys.CtrlP] then
    if bool_decide (0 < rowIndex st) then Next (setRow (rowIndex st - 1) st) else Next st
  else if oneOf ch ["h"; keys.Left; keys.CtrlB] then
    if bool_decide (0 < colIndex st) then Next (setCol (colIndex st - 1) st) else Next st
  else if oneOf ch ["l"; keys.Right; keys.CtrlF] then Next (setCol (colIndex st + 1) st)
  else if oneOf ch ["0"; "^"; keys.CtrlA] then Next (setCol 0 st)
  else if oneOf ch ["$"; keys.CtrlE] then
    let! row := cursorRow st in
    Next (setCol (Z.of_nat (length row) - 1) st)
  else if oneOf ch ["<"] then Next (setRow 0 st)
  else if oneOf ch [">"] then Next (setRow (Z.of_nat (length (csvlines st)) - 1) st)
  else if oneOf ch ["n"] then
    if csvi.nonEmpty (lastWord st) then jump (lastSearch st) st else Next st
  else if oneOf ch ["N"] then
    if csvi.nonEmpty (lastWord st) then jump (lastSearchRev st) st else Next st
  else if oneOf ch ["/"; "?"] then
    let st1 := setSearch (lastSearch st) (lastSearchRev st) (line inp).1 st in
    match (line inp).2 with
    | Some err =>
        if negb (csvi.isCtrlC err) then Next (setMessage (csvi.errorText err) st1)
        else Next st1
    | None =>
        let st2 :=
          if bool_decide (ch = "/") then setSearch Forward Backward (lastWord st1) st1
          else setSearch Backward Forward (lastWord st1) st1 in
        jump (lastSearch st2) st2
    end
  else if oneOf ch ["o"] then openBelow st
  else if oneOf ch ["O"] then openRow st
  else if oneOf ch ["D"] then deleteRow st
  else if oneOf ch ["i"] then insertCell inp st
  else if oneOf ch ["a"] then appendCell inp st
  else if oneOf ch ["r"; "R"; keys.F2] then replaceCell inp st
  else if oneOf ch ["d"; "x"] then deleteCell st
  else if oneOf ch ["w"] then
    if csvi.nonEmpty (written inp) then Next (setMessage (written inp) st) else Next st
  else Next st.

(** The end of a turn: the cursor column is cut back to the last cell of
    the row and the window follows the cursor. *)
Definition settle (screenHeight cols : Z) (st : State) : Outcome :=
  let! row := cursorRow st in
  let st1 :=
    if bool_decide (Z.of_nat (length row) <= colIndex st)
    then setCol (Z.of_nat (length row) - 1) st else st in
  let startRow' :=
    if bool_decide (rowIndex st1 < startRow st1) then rowIndex st1
    else if bool_decide (startRow st1 + screenHeight - 1 <= rowIndex st1)
    then rowIndex st1 - (screenHeight - 1) + 1
    else startRow st1 in
  let startCol' :=
    if bool_decide (colIndex st1 < startCol st1) then colIndex st1
    else if bool_decide (startCol st1 + cols <= colIndex st1)
    then colIndex st1 - cols + 1
    else startCol st1 in
  Next (setStart startRow' startCol' st1).

Section Loop.

Variable runes : string -> list string.
Variable RuneWidth : string -> Z.

(** One turn of the loop of [mains]. *)
Definition turn (inp : Input) (st : State) : Outcome :=
  let '(screenWidth, screenHeight, err) := size inp in
  match err with
  | Some e => Failed e
  | None =>
      let st1 :=
        if negb (bool_decide (lastWidth st = screenWidth))
           || negb (bool_decide (lastHeight st = screenHeight))
        then setScreen screenWidth screenHeight ∅ st else st in
      let cols := Z.quot (screenWidth - 1) CELL_WIDTH in
      let! drawn :=
        view runes RuneWidth
             (mkMemoryCsv (csvlines st1) (startCol st1) (startRow st1))
             (colIndex st1 - startCol st1) (rowIndex st1 - startRow st1)
             (screenWidth - 1) (screenHeight - 1) (cache st1) in
      let st2 :=
        setMessage EmptyString
          (setScreen (lastWidth st1) (lastHeight st1) drawn.1.2 st1) in
      match key inp with
      | (_, Some e) => Failed e
      | (ch, None) =>
          match command inp ch st2 with
          | Next st3 => settle screenHeight cols st3
          | o => o
          end
      end
  end.

(** The loop, for the turns whose inputs are given. *)
Fixpoint turns (inps : list Input) (st : State) : Outcome :=
  match inps with
  | [] => Next st
  | inp :: rest =>
      match turn inp st with
      | Next st1 => turns rest st1
      | o => o
      end
  end.

End Loop.

(** *** The predicates the properties are stated with *)

(** The grid has a row, every row has a cell, the cursor is on a cell and
    the window does not start at a negative index. *)
Definition ok (st : State) : Prop :=
  Forall (fun row => (1 <= length row)%nat) (csvlines st)
  /\ 0 <= rowIndex st < Z.of_nat (length (csvlines st))
  /\ (exists row, csvlines st !! Z.to_nat (rowIndex st) = Some row
                  /\ 0 <= colIndex st < Z.of_nat (length row))
  /\ 0 <= startRow st
  /\ 0 <= startCol st.

End Legacy.

(** ** Package main: the write command (cmdWrite) *)

Module WriteCommand.

Import uncsv.

(** The part of the world [cmdWrite] acts on: the files by name with their
    contents, the set [overWritten] of the names this run has already
    replaced, and what was written to the standard output.  [os.Remove]
    and [os.Rename] are taken not to fail on a file that exists (the code
    drops their errors). *)
Record World := mkWorld {
  files : gmap string string;
  overWritten : gset string;
  stdout : string
}.

(** What the environment and the user answer during one call: [flag.Args],
    the result of [filepath.Abs] on the first argument, the result of
    [getline] (the name entered), the answer to the overwrite question and
    the error, other than that the file exists, that [os.OpenFile] meets
    when it creates a file. *)
Record Answers := mkAnswers {
  args : list string;
  absolute : string * option csvi.error;
  entered : string * option csvi.error;
  yes : bool;
  createErr : option csvi.error
}.

(** [os.OpenFile(name, os.O_WRONLY|os.O_EXCL|os.O_CREATE, 0666)]: the file
    is there already, or it cannot be created, or it is created empty. *)
Inductive Opened :=
  | Exists_
  | Refused (e : csvi.error)
  | Created (fs : gmap string string).

Definition OpenFile (name : string) (a : Answers) (fs : gmap string string) : Opened :=
  match fs !! name with
  | Some _ => Exists_
  | None =>
      match createErr a with
      | Some e => Refused e
      | None => Created (<[name := EmptyString]> fs)
      end
  end.

(** [os.Rename(old, new)]. *)
Definition Rename (old new : string) (fs : gmap string string) : gmap string string :=
  match fs !! old with
  | Some content => <[new := content]> (delete old fs)
  | None => fs
  end.

(** The text of the error of [os.OpenFile] when the file exists. *)
Definition msgExists (name : string) : string :=
  "open " +:+ name +:+ ": file exists".

(** The end of [cmdWrite]: the file was opened (or not), the document is
    written to it and the message is that of the error, if any.  A file
    that could not be opened is a nil file, to which nothing is written. *)
Definition writeOpened (o : Opened) (name data : string) (w : World)
    (fsBefore : gmap string string) (ow : gset string) : string * World :=
  match o with
  | Created fs => (EmptyString, mkWorld (<[name := data]> fs) ow (stdout w))
  | Refused e => (csvi.errorText e, mkWorld fsBefore ow (stdout w))
  | Exists_ => (msgExists name, mkWorld fsBefore ow (stdout w))
  end.

(** [cmdWrite]: the message and the world afterwards.  [data] stands for
    what [writeCsvTo] writes for the document. *)
Definition cmdWrite (data : string) (a : Answers) (w : World) : string * World :=
  let named :=
    match args a with
    | _ :: _ =>
        match absolute a with
        | (_, Some e) => inl (csvi.errorText e)
        | (f, None) => inr f
        end
    | [] => inr "-"
    end in
  match named with
  | inl m => (m, w)
  | inr _ =>
      match entered a with
      | (_, Some _) => (EmptyString, w)
      | (fname, None) =>
          if bool_decide (fname = "-") then
            (EmptyString, mkWorld (files w) (overWritten w) (stdout w +:+ data))
          else
            match OpenFile fname a (files w) with
            | Exists_ =>
                if bool_decide (fname ∈ overWritten w) then
                  let fs1 := delete fname (files w) in
                  writeOpened (OpenFile fname a fs1) fname data w fs1 (overWritten w)
                else if negb (yes a) then (EmptyString, w)
                else
                  let backupName := fname +:+ "~" in
                  let fs1 := delete backupName (files w) in
                  let fs2 := Rename fname backupName fs1 in
                  let ow := {[fname]} ∪ overWritten w in
                  writeOpened (OpenFile fname a fs2) fname data w fs2 ow
            | o => writeOpened o fname data w (files w) (overWritten w)
            end
      end
  end.

(** The calls of one run of the program, one after the other: each with the
    bytes of the document at that time and the answers. *)
Fixpoint session (calls : list (string * Answers)) (w : World) : World :=
  match calls with
  | [] => w
  | (data, a) :: rest => session rest (cmdWrite data a w).2
  end.

(** The content [c] is kept: it is in the file [f] that this run has not
    replaced yet, or in the backup of [f]. *)
Definition kept (f c : string) (w : World) : Prop :=
  ((f ∉ overWritten w) /\ files w !! f = Some c)
  \/ ((f ∈ overWritten w) /\ files w !! (f +:+ "~") = Some c).

End WriteCommand.

(** ** Concrete data used by the examples of these parts *)

(** A grid of two lines; the term [x] occurs in the second cell of the first
    line and in the second line. *)
Definition gridAXX : list (list string) := [["a"; "x"]; ["x"]].


Definition cfgStrict : csvi.Config :=
  csvi.mkConfig (Some csvMode) 14 0 false false false EmptyString ∅
                (Some (fun ev => (csvi.EvText ev, Some (csvi.Err "not a number")))).

(** A table of two rows of two cells. *)
Definition rowCD : uncsv.Row := uncsv.mkRow [uncsv.decode "c"; uncsv.decode "d"] strLF.


(** The older editor on a grid of two lines, the cursor on the first cell;
    a turn on a terminal of 80 by 25 in which the key [ch] is pressed and
    the dialog, if any, is answered with [text]. *)
Definition legacyDoc : Legacy.State :=
  Legacy.mkState [["a"; "b"]; ["c"]] 0 0 0 0 Legacy.Forward Legacy.Backward
                 EmptyString EmptyString 0 0 ∅.

Definition legacyKey (ch text : string) : Legacy.Input :=
  Legacy.mkInput (80, 25, None) (ch, None) (EmptyString, None) (text, None)
                 EmptyString.

(** A world with one file, and a call of the write command in which the
    name of that file is entered and the overwrite question is answered
    with yes. *)
Definition theFile : string := "/tmp/data.csv".

Definition worldOld : WriteCommand.World :=
  WriteCommand.mkWorld {[theFile := "old"]} ∅ EmptyString.

Definition writeYes : WriteCommand.Answers :=
  WriteCommand.mkAnswers [theFile] (theFile, None) (theFile, None) true None.
(** * Properties *)

(** ** Byte strings *)

Lemma sapp_cons (c : ascii) (s t : string) :
  String c s +:+ t = String c (s +:+ t).
Proof. reflexivity. Qed.





Example scenario_rows :
  map (fun r => map uncsv.Text (uncsv.Cells r)) (uncsv.ReadAll csvMode scenarioBytes)
  = [["a"; "b"; "c,d"]; ["1"; "2"; "3"]].
Proof. vm_compute. reflexivity. Qed.

Example scenario_rebuild :
  concatS (map (uncsv.Rebuild csvMode) (uncsv.ReadAll csvMode scenarioBytes))
  = scenarioBytes.
Proof. vm_compute. reflexivity. Qed.

(** ** Round trip of the reader and the serialiser *)

Section RoundTrip.

Import uncsv.

Variable mode : Mode.

Lemma SourceText_decode (src : string) : SourceText mode (decode src) = src.
Proof. reflexivity. Qed.









End RoundTrip.

(** ** The writer *)

Section WriterProps.

Import uncsv Writer.











End WriterProps.

(** ** Search *)

Section SearchProps.

Import Grid.

Example searchForward_gridAX : searchForward gridAX 0 0 "x" = Some (true, 0, 1).
Proof. reflexivity. Qed.

Example searchBackward_gridAX : searchBackward gridAX 0 1 "x" = Some (false, -1, -1).
Proof. reflexivity. Qed.

Lemma findUp_Some (target : string) (cells : list string) :
  forall c c', findUp target cells c = Some c' ->
    exists (k : nat) (cell : string),
      c' = c + Z.of_nat k /\ cells !! k = Some cell /\ Contains cell target = true.
Proof.
  induction cells as [|s cells IH]; intros c c' H; [discriminate|].
  simpl in H. destruct (Contains s target) eqn:E.
  - injection H as <-. exists O, s. split; [lia|]. split; [reflexivity | exact E].
  - apply IH in H as (k & cell & -> & Hk & Hc).
    exists (S k), cell. split; [lia|]. split; [exact Hk | exact Hc].
Qed.

Lemma forwardRows_found (target : string) (rows : list (list string)) :
  forall r c r' c', forwardRows target rows r c = Some (true, r', c') ->
    exists (k : nat) (row : list string) (cell : string),
      r' = r + Z.of_nat k /\ rows !! k = Some row /\ 0 <= c'
      /\ row !! Z.to_nat c' = Some cell /\ Contains cell target = true.
Proof.
  induction rows as [|row rows IH]; intros r c r' c' H; [discriminate|].
  simpl in H. case_bool_decide as Hc; [discriminate|].
  destruct (findUp target (drop (Z.to_nat c) row) c) as [c1|] eqn:E.
  - injection H as <- <-.
    apply findUp_Some in E as (k & cell & -> & Hk & Hcell).
    exists O, row, cell. split; [lia|]. split; [reflexivity|]. split; [lia|].
    split; [|exact Hcell].
    rewrite lookup_drop in Hk.
    replace (Z.to_nat (c + Z.of_nat k)) with (Z.to_nat c + k)%nat by lia.
    exact Hk.
  - apply IH in H as (k & row' & cell & -> & Hk & Hc' & Hcell & Hcont).
    exists (S k), row', cell. split; [lia|]. split; [exact Hk|].
    split; [exact Hc'|]. split; [exact Hcell | exact Hcont].
Qed.

(** What a successful forward search returns is a cell of the grid that
    contains the target; the search started in a row that exists. *)
Lemma searchForward_found (csvlines : list (list string)) (r c : Z)
    (target : string) (r' c' : Z) :
  searchForward csvlines r c target = Some (true, r', c') ->
  0 <= r /\ r <= r' /\ 0 <= c'
  /\ exists (row : list string) (cell : string),
       csvlines !! Z.to_nat r' = Some row
       /\ row !! Z.to_nat c' = Some cell
       /\ Contains cell target = true.
Proof.
  unfold searchForward. case_bool_decide as Hr; [discriminate|].
  intros H. apply forwardRows_found in H as (k & row & cell & -> & Hk & Hc' & Hcell & Hcont).
  split; [lia|]. split; [lia|]. split; [exact Hc'|].
  exists row, cell. split; [|split; [exact Hcell | exact Hcont]].
  rewrite lookup_drop in Hk.
  replace (Z.to_nat (r + Z.of_nat k)) with (Z.to_nat r + k)%nat by lia.
  exact Hk.
Qed.

Lemma countRow_app (target : string) (a b : list string) :
  countRow target (a ++ b) = (countRow target a + countRow target b)%nat.
Proof. unfold countRow. rewrite filter_app, length_app. reflexivity. Qed.

Lemma occurrences_app (target : string) (a b : list (list string)) :
  occurrences target (a ++ b)
  = (occurrences target a + occurrences target b)%nat.
Proof.
  induction a as [|row a IH]; simpl; [reflexivity|]. rewrite IH. lia.
Qed.

Lemma countRow_zero (target : string) (row : list string) :
  countRow target row = O ->
  Forall (fun s => Contains s target = false) row.
Proof.
  unfold countRow. induction row as [|s row IH]; intros H; [constructor|].
  rewrite filter_cons in H. destruct (decide (Contains s target = true)) as [E|E].
  - discriminate.
  - constructor; [by destruct (Contains s target) | by apply IH].
Qed.

Lemma occurrences_zero (target : string) (csvlines : list (list string)) :
  occurrences target csvlines = O ->
  Forall (Forall (fun s => Contains s target = false)) csvlines.
Proof.
  induction csvlines as [|row rows IH]; simpl; intros H; [constructor|].
  constructor; [apply countRow_zero | apply IH]; lia.
Qed.

Lemma findDown_none (target : string) (cells : list string) :
  Forall (fun s => Contains s target = false) cells ->
  forall c, findDown target cells c = None.
Proof.
  induction 1 as [|s cells Hs _ IH]; intros c; simpl; [reflexivity|].
  rewrite Hs. apply IH.
Qed.

Lemma backwardRows_none (target : string) (above : list (list string)) :
  Forall (Forall (fun s => Contains s target = false)) above ->
  forall r, backwardRows target above r (-1)
            = (false, r - Z.of_nat (length above), -1).
Proof.
  induction 1 as [|row above Hrow _ IH]; intros r; simpl.
  - f_equal. f_equal. lia.
  - rewrite findDown_none by (apply Forall_rev; exact Hrow).
    rewrite IH. f_equal. f_equal. lia.
Qed.

(** The one occurrence of the target is at ([r], [c]): nothing above the
    row and nothing left of the cell contains it. *)
Lemma single_occurrence (target : string) (csvlines : list (list string))
    (r c : nat) (row : list string) (cell : string) :
  occurrences target csvlines = 1%nat ->
  csvlines !! r = Some row -> row !! c = Some cell ->
  Contains cell target = true ->
  Forall (Forall (fun s => Contains s target = false)) (take r csvlines)
  /\ Forall (fun s => Contains s target = false) (take c row).
Proof.
  intros Hone Hrow Hcell Hcont.
  rewrite <- (take_drop_middle csvlines r row Hrow) in Hone.
  rewrite occurrences_app in Hone. simpl in Hone.
  rewrite <- (take_drop_middle row c cell Hcell) in Hone at 1.
  rewrite countRow_app in Hone.
  assert (Hc : countRow target (cell :: drop (S c) row)
               = S (countRow target (drop (S c) row))).
  { unfold countRow. rewrite filter_cons.
    destruct (decide (Contains cell target = true)); [reflexivity | contradiction]. }
  rewrite Hc in Hone.
  split; [apply occurrences_zero | apply countRow_zero]; lia.
Qed.

(** C7 (as amended): in a grid where the term is in exactly one cell, when
    [searchForward] from ([r], [c]) finds it at ([r'], [c']), then
    [searchBackward] from ([r'], [c']) finds nothing: it reports not found
    and the indices it returns are (-1, -1), which is before ([r], [c])
    in reading order since [r] is not negative. *)
Theorem searchBackward_after_searchForward
    (csvlines : list (list string)) (target : string) (r c r' c' : Z) :
  occurrences target csvlines = 1%nat ->
  searchForward csvlines r c target = Some (true, r', c') ->
  searchBackward csvlines r' c' target = Some (false, -1, -1) /\ -1 < r.
Proof.
  intros Hone Hfwd.
  apply searchForward_found in Hfwd
    as (Hr & Hrr' & Hc' & row & cell & Hrow & Hcell & Hcont).
  destruct (single_occurrence target csvlines _ _ row cell Hone Hrow Hcell Hcont)
    as [Habove Hleft].
  split; [|lia].
  pose proof (lookup_lt_Some _ _ _ Hrow) as Hlen.
  pose proof (lookup_lt_Some _ _ _ Hcell) as Hlenc.
  assert (Hfrom : backwardFrom target csvlines r' (-1) = Some (false, -1, -1)).
  { unfold backwardFrom. case_bool_decide as H0.
    - f_equal. f_equal. f_equal. lia.
    - rewrite bool_decide_eq_false_2 by lia.
      rewrite backwardRows_none by (apply Forall_rev; exact Habove).
      rewrite length_rev, length_take. f_equal. f_equal. f_equal. lia. }
  unfold searchBackward. case_bool_decide as Hc.
  - rewrite bool_decide_eq_false_2 by lia. rewrite Hrow.
    rewrite bool_decide_eq_false_2 by lia.
    replace (S (Z.to_nat (c' - 1))) with (Z.to_nat c') by lia.
    rewrite findDown_none by (apply Forall_rev; exact Hleft).
    exact Hfrom.
  - replace (c' - 1) with (-1) by lia. exact Hfrom.
Qed.

Lemma searchBackward_after_searchForward_witness :
  searchBackward gridAX 0 1 "x" = Some (false, -1, -1) /\ -1 < 0.
Proof.
  apply (searchBackward_after_searchForward gridAX "x" 0 0 0 1).
  - reflexivity.
  - reflexivity.
Defined.

(** C7 (as stated) fails: the term [x] occurs once in the grid, the forward
    search from (0, 0) finds it at (0, 1), and the backward search from
    there returns no position: it reports not found. *)
Lemma searchBackward_finds_nothing :
  occurrences "x" gridAX = 1%nat
  /\ searchForward gridAX 0 0 "x" = Some (true, 0, 1)
  /\ searchBackward gridAX 0 1 "x" = Some (false, -1, -1).
Proof. repeat split. Qed.

End SearchProps.

(** ** The page renderer and its cache *)

Section RenderProps.

Import Render.

Variable drawLine :
  list uncsv.Cell -> Z -> Z -> Z -> bool -> ColorStyle -> string.
Variable overlay : string -> string -> string.

(** Painting the same line twice from the first column of a row shows what
    painting it once shows. *)
Hypothesis overlay_idem :
  forall old s, overlay (overlay old s) s = overlay old s.












End RenderProps.

Section RenderExamples.

Import Render.


(** The second and third frame write only the lines that changed. *)
Example drawPages_skips_unchanged_lines :
  drawPages plainLine [frameAB; frameAB'; frameAB'] ∅
  = [[Line ">a"; CRLF; Line " b"; CRLF];
     [Line " a"; CRLF; Line ">b"; CRLF];
     [CRLF; CRLF]].
Proof. vm_compute. reflexivity. Qed.

End RenderExamples.
(** ** The main loop *)

Section CsviProps.

Import uncsv csvi.

Lemma Replace_ok (i : Z) (text : string) (mode : uncsv.Mode) (row : Row) :
  0 <= i < Z.of_nat (length (Cells row)) ->
  exists r, Replace i text mode row = Some r
            /\ length (Cells r) = length (Cells row) /\ Term r = Term row.
Proof.
  intros H. unfold Replace. rewrite bool_decide_eq_true_2 by lia.
  destruct (lookup_lt_is_Some_2 (Cells row) (Z.to_nat i)) as [c Hc]; [lia|].
  rewrite Hc. eexists. split; [reflexivity|]. simpl.
  rewrite length_insert. split; reflexivity.
Qed.

Lemma Insert_ok (i : Z) (text : string) (mode : uncsv.Mode) (row : Row) :
  0 <= i <= Z.of_nat (length (Cells row)) ->
  exists r, Insert i text mode row = Some r
            /\ length (Cells r) = S (length (Cells row)) /\ Term r = Term row.
Proof.
  intros H. unfold Insert. rewrite bool_decide_eq_true_2 by lia.
  eexists. split; [reflexivity|]. simpl. split; [|reflexivity].
  rewrite length_app. simpl. rewrite length_take, length_drop. lia.
Qed.

Lemma Delete_ok (i : Z) (row : Row) :
  0 <= i < Z.of_nat (length (Cells row)) ->
  exists r, Delete i row = Some r
            /\ S (length (Cells r)) = length (Cells row) /\ Term r = Term row.
Proof.
  intros H. unfold Delete. rewrite bool_decide_eq_true_2 by lia.
  eexists. split; [reflexivity|]. simpl. split; [|reflexivity].
  rewrite length_app, length_take, length_drop. lia.
Qed.

Lemma Delete_Insert (i : Z) (text : string) (mode : uncsv.Mode) (row r1 : Row) :
  Insert i text mode row = Some r1 -> Delete i r1 = Some row.
Proof.
  unfold Insert. case_bool_decide as Hi; [|discriminate].
  intros H. injection H as <-. unfold Delete. simpl.
  rewrite length_app. simpl. rewrite length_take, length_drop.
  rewrite bool_decide_eq_true_2 by lia.
  destruct row as [cells term]. simpl in *. f_equal. f_equal.
  rewrite take_app_length' by (rewrite length_take; lia).
  replace (S (Z.to_nat i)) with (length (take (Z.to_nat i) cells) + 1)%nat
    by (rewrite length_take; lia).
  rewrite drop_app_add'; [|reflexivity]. simpl. rewrite drop_0.
  apply take_drop.
Qed.

Lemma padRow_ok (n : nat) (mode : uncsv.Mode) :
  forall row, exists r, padRow n mode row = Some r
    /\ length (Cells r) = (n + length (Cells row))%nat /\ Term r = Term row.
Proof.
  induction n as [|n IH]; intros row; simpl.
  - exists row. repeat split.
  - destruct (Insert_ok 0 EmptyString mode row) as (r1 & -> & Hl & Ht); [lia|].
    destruct (IH r1) as (r & -> & Hl' & Ht').
    exists r. split; [reflexivity|]. split; [lia | congruence].
Qed.


(** *** The invariant of the loop *)

Lemma wf_cursor (st : State) :
  wf st ->
  exists cur, rows st !! cursorRow st = Some cur
              /\ hasCell cur
              /\ 0 <= cursorCol st < Z.of_nat (length (Cells cur)).
Proof.
  intros [_ (cur & Hcur & Hcol)]. exists cur. split; [exact Hcur|].
  split; [unfold hasCell; lia | exact Hcol].
Qed.

Lemma pre_cursor (st : State) :
  pre st -> exists cur, rows st !! cursorRow st = Some cur /\ hasCell cur.
Proof.
  intros (Hall & Hrow & _ & _).
  destruct (lookup_lt_is_Some_2 _ _ Hrow) as [cur Hcur].
  exists cur. split; [exact Hcur|].
  eapply Forall_lookup_1; [exact Hall | exact Hcur].
Qed.

Lemma pre_setCursorRowValue (r : Row) (st : State) :
  pre st -> hasCell r -> pre (setCursorRowValue r st).
Proof.
  intros (Hall & Hrow & Hcol & Hsrc) Hr. unfold pre, rows in *. simpl.
  rewrite length_insert. repeat split; try assumption.
  apply Forall_insert; assumption.
Qed.

Lemma pre_setCursorCol (c : Z) (st : State) :
  pre st -> 0 <= c -> pre (setCursorCol c st).
Proof. intros (Hall & Hrow & Hcol & Hsrc) Hc. repeat split; assumption. Qed.

Lemma pre_setCursorRow (r : nat) (st : State) :
  pre st -> (r < length (rows st))%nat -> pre (setCursorRow r st).
Proof. intros (Hall & Hrow & Hcol & Hsrc) Hr. repeat split; assumption. Qed.

Lemma pre_setMessage (m : string) (st : State) : pre st -> pre (setMessage m st).
Proof. intros H. exact H. Qed.

Lemma pre_setRows (l : list Row) (st : State) :
  pre st -> Forall hasCell l -> (cursorRow st < length l)%nat -> pre (setRows l st).
Proof. intros (Hall & Hrow & Hcol & Hsrc) Hl Hlen. repeat split; assumption. Qed.

(** The document around the cursor row. *)
Lemma rows_split (l : list Row) (i : nat) (cur : Row) :
  l !! i = Some cur -> l = take i l ++ cur :: drop (S i) l.
Proof. intros H. symmetry. apply take_drop_middle. exact H. Qed.

Lemma InsertAfter_split (l : list Row) (i : nat) (cur cur' newRow : Row) :
  l !! i = Some cur ->
  InsertAfter i newRow (<[i := cur']> l) = take i l ++ cur' :: newRow :: drop (S i) l.
Proof.
  intros H. pose proof (lookup_lt_Some _ _ _ H) as Hlt.
  unfold InsertAfter.
  rewrite drop_insert_lt by lia.
  rewrite (take_S_r (<[i := cur']> l) i cur')
    by (apply list_lookup_insert_eq; exact Hlt).
  rewrite take_insert_ge by lia.
  rewrite <- app_assoc. reflexivity.
Qed.

Lemma InsertBefore_split (l : list Row) (i : nat) (cur newRow : Row) :
  l !! i = Some cur ->
  InsertBefore i newRow l = take i l ++ newRow :: cur :: drop (S i) l.
Proof.
  intros H. unfold InsertBefore. rewrite (drop_S l cur i H). reflexivity.
Qed.

Lemma insert_split (l : list Row) (i : nat) (cur x : Row) :
  l !! i = Some cur -> <[i := x]> l = take i l ++ x :: drop (S i) l.
Proof.
  intros H. apply insert_take_drop. eapply lookup_lt_Some. exact H.
Qed.

Lemma Forall_split (l : list Row) (i : nat) (cur : Row) :
  l !! i = Some cur -> Forall hasCell l ->
  Forall hasCell (take i l) /\ Forall hasCell (drop (S i) l).
Proof. intros _ H. split; [by apply Forall_take | by apply Forall_drop]. Qed.


(** *** The search never faults from a cursor inside the grid *)

Lemma forwardRows_total (target : string) (l : list (list string)) :
  forall r c, 0 <= c -> exists res, Grid.forwardRows target l r c = Some res.
Proof.
  induction l as [|row l IH]; intros r c Hc; simpl; [eauto|].
  rewrite bool_decide_eq_false_2 by lia.
  destruct (Grid.findUp target (drop (Z.to_nat c) row) c); [eauto|].
  apply IH. lia.
Qed.

Lemma findDown_Some (target : string) (cells : list string) :
  forall c c', Grid.findDown target cells c = Some c' ->
    c - Z.of_nat (length cells) < c' <= c.
Proof.
  induction cells as [|s cells IH]; intros c c' H; [discriminate|].
  simpl in H. destruct (Contains s target).
  - injection H as <-. simpl. lia.
  - apply IH in H. simpl. lia.
Qed.

Lemma backwardRows_found (target : string) (above : list (list string)) :
  forall r c r' c', Grid.backwardRows target above r c = (true, r', c') ->
    r - Z.of_nat (length above) < r' <= r /\ 0 <= c'.
Proof.
  induction above as [|row above IH]; intros r c r' c' H; [discriminate|].
  simpl in H.
  destruct (Grid.findDown target (rev row) (Z.of_nat (length row) - 1)) as [c1|] eqn:E.
  - injection H as <- <-. apply findDown_Some in E. rewrite length_rev in E.
    simpl. lia.
  - apply IH in H. simpl. lia.
Qed.

Lemma backwardFrom_found (target : string) (l : list (list string)) (r c : Z) :
  0 <= r < Z.of_nat (length l) ->
  exists res, Grid.backwardFrom target l r c = Some res
    /\ forall r' c', res = (true, r', c') ->
         0 <= r' < Z.of_nat (length l) /\ 0 <= c'.
Proof.
  intros Hr. unfold Grid.backwardFrom. case_bool_decide as H0.
  - eexists. split; [reflexivity|]. discriminate.
  - rewrite bool_decide_eq_false_2 by lia.
    eexists. split; [reflexivity|]. intros r' c' H.
    apply backwardRows_found in H. rewrite length_rev, length_take in H. lia.
Qed.

Lemma searchBackward_valid (target : string) (l : list (list string))
    (r c : Z) (row : list string) :
  0 <= r -> l !! Z.to_nat r = Some row -> c <= Z.of_nat (length row) ->
  exists res, Grid.searchBackward l r c target = Some res
    /\ forall r' c', res = (true, r', c') ->
         0 <= r' < Z.of_nat (length l) /\ 0 <= c'.
Proof.
  intros Hr Hrow Hc. pose proof (lookup_lt_Some _ _ _ Hrow) as Hlt.
  unfold Grid.searchBackward. case_bool_decide as H0.
  - rewrite bool_decide_eq_false_2 by lia. rewrite Hrow.
    rewrite bool_decide_eq_false_2 by lia.
    destruct (Grid.findDown target (rev (take (S (Z.to_nat (c - 1))) row)) (c - 1))
      as [c1|] eqn:E.
    + eexists. split; [reflexivity|]. intros r' c' H. injection H as <- <-.
      apply findDown_Some in E. rewrite length_rev, length_take in E. lia.
    + apply backwardFrom_found. lia.
  - apply backwardFrom_found. lia.
Qed.

Lemma searchForward_valid (target : string) (l : list (list string)) (r c : Z) :
  0 <= r -> 0 <= c ->
  exists res, Grid.searchForward l r c target = Some res
    /\ forall r' c', res = (true, r', c') ->
         0 <= r' < Z.of_nat (length l) /\ 0 <= c'.
Proof.
  intros Hr Hc. unfold Grid.searchForward.
  rewrite bool_decide_eq_false_2 by lia.
  destruct (forwardRows_total target (drop (Z.to_nat r) l) r (c + 1)) as [res Hres]; [lia|].
  exists res. split; [exact Hres|]. intros r' c' ->.
  assert (Hs : Grid.searchForward l r c target = Some (true, r', c')).
  { unfold Grid.searchForward. rewrite bool_decide_eq_false_2 by lia. exact Hres. }
  apply searchForward_found in Hs as (_ & Hrr & Hc' & row & cell & Hrow & _).
  apply lookup_lt_Some in Hrow. lia.
Qed.

Lemma texts_length (st : State) : length (texts st) = length (rows st).
Proof. unfold texts. apply length_map. Qed.

Lemma search_valid (s : Search) (st : State) (word : string) :
  wf st ->
  exists res, search s st word = Some res
    /\ forall r' c', res = (true, r', c') ->
         (Z.to_nat r' < length (rows st))%nat /\ 0 <= c'.
Proof.
  intros Hwf. destruct (wf_cursor st Hwf) as (cur & Hcur & Hcell & Hcol).
  destruct s; simpl.
  - destruct (searchForward_valid word (texts st) (Z.of_nat (cursorRow st)) (cursorCol st))
      as (res & Hres & Hv); [lia | lia |].
    exists res. split; [exact Hres|]. intros r' c' E.
    specialize (Hv r' c' E). rewrite texts_length in Hv. lia.
  - destruct (searchBackward_valid word (texts st) (Z.of_nat (cursorRow st)) (cursorCol st)
                (map Text (Cells cur))) as (res & Hres & Hv).
    + lia.
    + rewrite Nat2Z.id. unfold texts. rewrite list_lookup_fmap, Hcur. reflexivity.
    + rewrite length_map. lia.
    + exists res. split; [exact Hres|]. intros r' c' E.
      specialize (Hv r' c' E). rewrite texts_length in Hv. lia.
Qed.

Lemma jump_pre (s : Search) (st : State) :
  wf st -> post pre (jump s st).
Proof.
  intros Hwf. unfold jump.
  destruct (search_valid s st (lastWord st) Hwf) as (res & -> & Hv). simpl.
  destruct res as [[found r] c]. destruct found; simpl.
  - destruct (Hv r c eq_refl) as [Hr Hc]. destruct Hwf as [Hpre _].
    apply pre_setCursorCol; [|exact Hc]. by apply pre_setCursorRow.
  - apply Hwf.
Qed.


(** *** Every command keeps the document well formed *)

Lemma fillNewRow_pre (cfg : Config) (inp : Input) (st : State) :
  pre st -> post pre (fillNewRow cfg inp st).
Proof.
  intros Hpre. destruct (pre_cursor st Hpre) as (cur & Hcur & Hcell).
  unfold fillNewRow, cursorRowValue. rewrite Hcur. simpl.
  destruct (validate cfg (cursorRow st) _ (line inp).1) as [tx [err|]]; simpl.
  - exact Hpre.
  - destruct Hpre as (Hall & Hrow & Hcol & Hsrc).
    match goal with |- context [Replace ?i tx ?m cur] =>
      destruct (Replace_ok i tx m cur) as (r & -> & Hl & _) end.
    { unfold hasCell in Hcell. case_bool_decide; lia. }
    simpl. apply pre_setCursorRowValue; [repeat split; assumption|].
    unfold hasCell in *. lia.
Qed.

Lemma padIfFixed_ok (cfg : Config) (cur newRow : Row) :
  hasCell newRow ->
  exists r, padIfFixed cfg cur newRow = Some r /\ hasCell r /\ Term r = Term newRow.
Proof.
  intros H. unfold padIfFixed. destruct (FixColumn cfg).
  - destruct (padRow_ok (length (Cells cur) - length (Cells newRow)) (modeOf cfg) newRow)
      as (r & -> & Hl & Ht).
    exists r. split; [reflexivity|]. split; [|exact Ht]. unfold hasCell in *. lia.
  - exists newRow. repeat split. exact H.
Qed.

Lemma cmdOpenBelow_pre (cfg : Config) (inp : Input) (st : State) :
  wf st -> post pre (cmdOpenBelow cfg inp st).
Proof.
  intros Hwf. destruct (wf_cursor st Hwf) as (cur & Hcur & Hcell & Hcol).
  destruct Hwf as [Hpre _]. unfold cmdOpenBelow.
  destruct (nonEmpty _); [exact Hpre|].
  unfold cursorRowValue. rewrite Hcur. simpl.
  match goal with |- context [padIfFixed cfg ?c ?n] =>
    destruct (padIfFixed_ok cfg c n) as (newRow & -> & Hnew & _) end.
  { unfold hasCell. simpl. lia. }
  simpl. apply fillNewRow_pre.
  destruct Hpre as (Hall & Hrow & Hc & Hsrc).
  destruct (Forall_split _ _ _ Hcur Hall) as [Ht Hd].
  unfold pre, rows in *. simpl.
  rewrite (InsertAfter_split _ _ cur _ _ Hcur).
  repeat split; try assumption.
  - apply Forall_app. split; [exact Ht|].
    constructor; [by case_bool_decide|]. constructor; assumption.
  - rewrite length_app, length_take. simpl. rewrite length_drop. lia.
Qed.

Lemma cmdOpenAbove_pre (cfg : Config) (inp : Input) (st : State) :
  wf st -> post pre (cmdOpenAbove cfg inp st).
Proof.
  intros Hwf. destruct (wf_cursor st Hwf) as (cur & Hcur & Hcell & Hcol).
  destruct Hwf as [Hpre _]. unfold cmdOpenAbove.
  destruct (nonEmpty _); [exact Hpre|].
  unfold cursorRowValue. rewrite Hcur. simpl.
  destruct (padIfFixed_ok cfg cur (NewRow (modeOf cfg))) as (newRow & -> & Hnew & _).
  { unfold hasCell. simpl. lia. }
  simpl. apply fillNewRow_pre.
  destruct Hpre as (Hall & Hrow & Hc & Hsrc).
  destruct (Forall_split _ _ _ Hcur Hall) as [Ht Hd].
  unfold pre, rows in *. simpl.
  rewrite (InsertBefore_split _ _ cur _ Hcur).
  repeat split; try assumption.
  - apply Forall_app. split; [exact Ht|]. repeat constructor; assumption.
  - rewrite length_app, length_take. simpl. lia.
Qed.

Lemma cmdDeleteRow_pre (cfg : Config) (st : State) :
  wf st -> post pre (cmdDeleteRow cfg st).
Proof.
  intros Hwf. destruct (wf_cursor st Hwf) as (cur & Hcur & Hcell & Hcol).
  destruct Hwf as [Hpre _]. unfold cmdDeleteRow.
  destruct (nonEmpty _); [exact Hpre|].
  case_bool_decide as Hlen; [exact Hpre|].
  unfold cursorRowValue. rewrite Hcur. simpl.
  destruct Hpre as (Hall & Hrow & Hc & Hsrc).
  destruct (Forall_split _ _ _ Hcur Hall) as [Ht Hd].
  assert (Hrem : Forall hasCell (Remove (cursorRow st) (rows st))).
  { unfold Remove. apply Forall_app. split; assumption. }
  assert (Hlrem : S (length (Remove (cursorRow st) (rows st))) = length (rows st)).
  { unfold Remove. rewrite length_app, length_take, length_drop. lia. }
  destruct (cursorRow st) as [|prevP] eqn:Ei.
  - simpl. unfold pre, rows in *. simpl. repeat split; try assumption. lia.
  - case_bool_decide as Hnext.
    + simpl. unfold pre, rows in *. simpl. rewrite Ei. repeat split; assumption.
    + destruct (lookup_lt_is_Some_2 (Remove (S prevP) (rows st)) prevP) as [prevRow Hp]; [lia|].
      rewrite Hp. simpl. apply pre_setCursorRowValue.
      * unfold pre, rows in *. simpl. repeat split; try assumption. lia.
      * pose proof (Forall_lookup_1 _ _ _ _ Hrem Hp) as H. exact H.
Qed.

Lemma cmdInsertCell_pre (cfg : Config) (inp : Input) (st : State) :
  wf st -> post pre (cmdInsertCell cfg inp st).
Proof.
  intros Hwf. destruct (wf_cursor st Hwf) as (cur & Hcur & Hcell & Hcol).
  destruct Hwf as [Hpre _]. unfold cmdInsertCell.
  destruct (nonEmpty _); [exact Hpre|].
  destruct (line inp).2; [exact Hpre|].
  destruct (validate cfg _ _ _) as [text [err|]]; [exact Hpre|].
  unfold cursorRowValue. rewrite Hcur. simpl.
  destruct (onlyEmptyCell (Cells cur)).
  - destruct (Replace_ok (cursorCol st) text (modeOf cfg) cur) as (r & -> & Hl & _); [lia|].
    simpl. apply pre_setCursorRowValue; [exact Hpre|]. unfold hasCell in *. lia.
  - destruct (Insert_ok (cursorCol st) text (modeOf cfg) cur) as (r & -> & Hl & _); [lia|].
    simpl. apply pre_setCursorCol; [|lia].
    apply pre_setCursorRowValue; [exact Hpre|]. unfold hasCell in *. lia.
Qed.

Lemma cmdAppendCell_pre (cfg : Config) (inp : Input) (st : State) :
  wf st -> post pre (cmdAppendCell cfg inp st).
Proof.
  intros Hwf. destruct (wf_cursor st Hwf) as (cur & Hcur & Hcell & Hcol).
  destruct Hwf as [Hpre _]. unfold cmdAppendCell.
  destruct (nonEmpty _); [exact Hpre|].
  unfold cursorRowValue. rewrite Hcur. simpl.
  destruct (onlyEmptyCell (Cells cur)).
  - destruct (line inp).2; [exact Hpre|].
    destruct (validate cfg _ _ _) as [tx [err|]]; [exact Hpre|].
    destruct (Replace_ok (cursorCol st) tx (modeOf cfg) cur) as (r & -> & Hl & _); [lia|].
    simpl. apply pre_setCursorRowValue; [exact Hpre|]. unfold hasCell in *. lia.
  - destruct (Insert_ok (cursorCol st + 1) EmptyString (modeOf cfg) cur)
      as (r1 & -> & Hl1 & _); [lia|].
    simpl.
    assert (Hpre1 : pre (setCursorCol (cursorCol st + 1) (setCursorRowValue r1 st))).
    { apply pre_setCursorCol; [|lia].
      apply pre_setCursorRowValue; [exact Hpre|]. unfold hasCell in *. lia. }
    destruct (line inp).2.
    + destruct (Delete_ok (cursorCol st + 1) r1) as (r2 & -> & Hl2 & _); [lia|].
      simpl. apply pre_setCursorCol; [|lia].
      apply pre_setCursorRowValue; [exact Hpre1|]. unfold hasCell in *. lia.
    + destruct (validate cfg _ _ _) as [tx [err|]].
      * destruct (Delete_ok (cursorCol st + 1) r1) as (r2 & -> & Hl2 & _); [lia|].
        simpl. apply pre_setCursorCol; [|lia].
        apply pre_setCursorRowValue; [exact Hpre1|]. unfold hasCell in *. lia.
      * destruct (Replace_ok (cursorCol st + 1) tx (modeOf cfg) r1)
          as (r2 & -> & Hl2 & _); [lia|].
        simpl. apply pre_setCursorRowValue; [exact Hpre1|]. unfold hasCell in *. lia.
Qed.

Lemma cursorCell_ok (st : State) (cur : Row) :
  0 <= cursorCol st < Z.of_nat (length (Cells cur)) ->
  exists c, cursorCell st cur = Some c.
Proof.
  intros H. unfold cursorCell. rewrite bool_decide_eq_true_2 by lia.
  apply lookup_lt_is_Some_2. lia.
Qed.

Lemma updateCursorCell_ok (f : Cell -> Cell) (st : State) (cur : Row) :
  0 <= cursorCol st < Z.of_nat (length (Cells cur)) ->
  exists r, updateCursorCell f st cur = Some r
            /\ length (Cells r) = length (Cells cur) /\ Term r = Term cur.
Proof.
  intros H. unfold updateCursorCell.
  destruct (cursorCell_ok st cur H) as [c ->].
  eexists. split; [reflexivity|]. simpl. rewrite length_insert. split; reflexivity.
Qed.

Lemma cmdReplaceCell_pre (cfg : Config) (inp : Input) (st : State) :
  wf st -> post pre (cmdReplaceCell cfg inp st).
Proof.
  intros Hwf. destruct (wf_cursor st Hwf) as (cur & Hcur & Hcell & Hcol).
  destruct Hwf as [Hpre _]. unfold cmdReplaceCell.
  destruct (nonEmpty _); [exact Hpre|].
  unfold cursorRowValue. rewrite Hcur. simpl.
  destruct (cursorCell_ok st cur Hcol) as [c ->]. simpl.
  destruct (line inp).2; [exact Hpre|].
  destruct (validate cfg _ _ _) as [tx [err|]]; [exact Hpre|].
  destruct (Replace_ok (cursorCol st) tx (modeOf cfg) cur) as (r1 & -> & Hl1 & _); [lia|].
  simpl. destruct (IsQuoted c).
  - destruct (updateCursorCell_ok (Quote (modeOf cfg)) st r1) as (r2 & -> & Hl2 & _); [lia|].
    simpl. apply pre_setCursorRowValue; [exact Hpre|]. unfold hasCell in *. lia.
  - apply pre_setCursorRowValue; [exact Hpre|]. unfold hasCell in *. lia.
Qed.

Lemma cmdUndo_pre (cfg : Config) (st : State) : wf st -> post pre (cmdUndo cfg st).
Proof.
  intros Hwf. destruct (wf_cursor st Hwf) as (cur & Hcur & Hcell & Hcol).
  destruct Hwf as [Hpre _]. unfold cmdUndo, cursorRowValue. rewrite Hcur. simpl.
  destruct (updateCursorCell_ok (Restore (modeOf cfg)) st cur) as (r & -> & Hl & _); [lia|].
  simpl. apply pre_setCursorRowValue; [exact Hpre|]. unfold hasCell in *. lia.
Qed.

Lemma cmdYank_pre (st : State) : wf st -> post pre (cmdYank st).
Proof.
  intros Hwf. destruct (wf_cursor st Hwf) as (cur & Hcur & Hcell & Hcol).
  destruct Hwf as [Hpre _]. unfold cmdYank, cursorRowValue. rewrite Hcur. simpl.
  destruct (cursorCell_ok st cur Hcol) as [c ->]. simpl. exact Hpre.
Qed.

Lemma cmdPaste_pre (cfg : Config) (st : State) : wf st -> post pre (cmdPaste cfg st).
Proof.
  intros Hwf. destruct (wf_cursor st Hwf) as (cur & Hcur & Hcell & Hcol).
  destruct Hwf as [Hpre _]. unfold cmdPaste.
  destruct (nonEmpty _); [exact Hpre|].
  unfold cursorRowValue. rewrite Hcur. simpl.
  destruct (Replace_ok (cursorCol st) (killbuffer st) (modeOf cfg) cur)
    as (r & -> & Hl & _); [lia|].
  simpl. apply pre_setMessage.
  apply pre_setCursorRowValue; [exact Hpre|]. unfold hasCell in *. lia.
Qed.

Lemma cmdDeleteCell_pre (cfg : Config) (st : State) :
  wf st -> post pre (cmdDeleteCell cfg st).
Proof.
  intros Hwf. destruct (wf_cursor st Hwf) as (cur & Hcur & Hcell & Hcol).
  destruct Hwf as [Hpre _]. unfold cmdDeleteCell.
  destruct (nonEmpty _); [exact Hpre|].
  unfold cursorRowValue. rewrite Hcur. simpl.
  unfold hasCell in Hcell. case_bool_decide as Hone.
  - destruct (Replace_ok 0 EmptyString (modeOf cfg) cur) as (r & -> & Hl & _); [lia|].
    simpl. apply pre_setCursorRowValue; [exact Hpre|]. unfold hasCell. lia.
  - destruct (Delete_ok (cursorCol st) cur) as (r & -> & Hl & _); [lia|].
    simpl. apply pre_setCursorRowValue; [exact Hpre|]. unfold hasCell. lia.
Qed.

Lemma cmdQuote_pre (cfg : Config) (st : State) : wf st -> post pre (cmdQuote cfg st).
Proof.
  intros Hwf. destruct (wf_cursor st Hwf) as (cur & Hcur & Hcell & Hcol).
  destruct Hwf as [Hpre _]. unfold cmdQuote, cursorRowValue. rewrite Hcur. simpl.
  destruct (cursorCell_ok st cur Hcol) as [c ->]. simpl.
  destruct (IsQuoted c).
  - destruct (Replace_ok (cursorCol st) (Text c) (modeOf cfg) cur) as (r & -> & Hl & _); [lia|].
    simpl. apply pre_setCursorRowValue; [exact Hpre|]. unfold hasCell in *. lia.
  - destruct (updateCursorCell_ok (Quote (modeOf cfg)) st cur) as (r & -> & Hl & _); [lia|].
    simpl. apply pre_setCursorRowValue; [exact Hpre|]. unfold hasCell in *. lia.
Qed.

Lemma drainFrom_spec (pend : list Row) (lastRow : Row) (fail : error) :
  forall l, drainFrom pend lastRow fail l
            = if isEOF fail then (l ++ pend ++ [lastRow], None)
              else (l ++ pend, Some fail).
Proof.
  induction pend as [|row pend IH]; intros l; simpl.
  - destruct (isEOF fail); [reflexivity|]. by rewrite app_nil_r.
  - rewrite IH. rewrite <- !app_assoc. reflexivity.
Qed.

Lemma cmdWriteOut_pre (inp : Input) (st : State) :
  pre st -> post pre (cmdWriteOut inp st).
Proof.
  intros Hpre. unfold cmdWriteOut, cmdWrite.
  destruct (fetch st) as [src|] eqn:Ef.
  - unfold drain. rewrite drainFrom_spec.
    destruct Hpre as (Hall & Hrow & Hc & Hsrc). rewrite Ef in Hsrc.
    destruct Hsrc as [Hpend Hlast].
    assert (Hempty : hasCell emptyRow) by (unfold hasCell; simpl; lia).
    destruct (isEOF (failure src)); simpl.
    + assert (Hp : pre (setFetch (Some (mkSource [] emptyRow (failure src)))
                          (setRows (rows st ++ pending src ++ [last src]) st))).
      { unfold pre, rows in *. simpl. repeat split; try assumption.
        - apply Forall_app. split; [exact Hall|].
          apply Forall_app. split; [exact Hpend | by constructor].
        - rewrite length_app. lia.
        - constructor. }
      destruct (writeErr inp); exact Hp.
    + unfold pre, rows in *. simpl. repeat split; try assumption.
      * apply Forall_app. split; assumption.
      * rewrite length_app. lia.
      * constructor.
  - destruct (writeErr inp); exact Hpre.
Qed.

Lemma command_pre (cfg : Config) (inp : Input) (c : Command) (st : State) :
  wf st -> post pre (command cfg inp c st).
Proof.
  intros Hwf. pose proof Hwf as [Hpre Hin].
  destruct (wf_cursor st Hwf) as (cur & Hcur & Hcell & Hcol).
  pose proof Hpre as (Hall & Hrow & Hc & Hsrc).
  destruct c; simpl.
  - exact Hpre.
  - destruct (ReadOnly cfg || YesNo inp); exact Hpre.
  - case_bool_decide; [|exact Hpre]. by apply pre_setCursorRow.
  - destruct (cursorRow st) as [|prev] eqn:E; [exact Hpre|].
    simpl. unfold pre, rows in *. simpl. repeat split; try assumption. lia.
  - case_bool_decide; [|exact Hpre]. apply pre_setCursorCol; [exact Hpre | lia].
  - apply pre_setCursorCol; [exact Hpre | lia].
  - apply pre_setCursorCol; [exact Hpre | lia].
  - unfold cursorRowValue. rewrite Hcur. simpl.
    apply pre_setCursorCol; [exact Hpre | unfold hasCell in Hcell; lia].
  - apply pre_setCursorCol; [|lia]. apply pre_setCursorRow; [exact Hpre | lia].
  - apply pre_setCursorRow; [exact Hpre | lia].
  - destruct (nonEmpty _); [by apply jump_pre | exact Hpre].
  - destruct (nonEmpty _); [by apply jump_pre | exact Hpre].
  - destruct (line inp).2 as [err|].
    + destruct (negb (isCtrlC err)); exact Hpre.
    + apply jump_pre. exact Hwf.
  - by apply cmdOpenBelow_pre.
  - by apply cmdOpenAbove_pre.
  - by apply cmdDeleteRow_pre.
  - by apply cmdInsertCell_pre.
  - by apply cmdAppendCell_pre.
  - by apply cmdReplaceCell_pre.
  - by apply cmdUndo_pre.
  - by apply cmdYank_pre.
  - by apply cmdPaste_pre.
  - by apply cmdDeleteCell_pre.
  - by apply cmdQuote_pre.
  - by apply cmdWriteOut_pre.
  - exact Hpre.
Qed.


(** *** The ingestion, the clamp and the turns of the loop *)






Lemma clamp_wf (st : State) :
  pre st -> exists st', clamp st = Next st' /\ wf st' /\ app st' = app st
                        /\ cursorRow st' = cursorRow st.
Proof.
  intros Hpre. destruct (pre_cursor st Hpre) as (cur & Hcur & Hcell).
  unfold clamp, cursorRowValue. rewrite Hcur. simpl.
  unfold hasCell in Hcell. rewrite bool_decide_eq_false_2 by lia.
  pose proof Hpre as (Hall & Hrow & Hc & Hsrc).
  case_bool_decide as Hover.
  - eexists. split; [reflexivity|]. split; [|split; reflexivity].
    split; [apply pre_setCursorCol; [exact Hpre | lia]|].
    exists cur. split; [exact Hcur | simpl; lia].
  - exists st. split; [reflexivity|]. split; [|split; reflexivity].
    split; [exact Hpre|]. exists cur. split; [exact Hcur | lia].
Qed.





(** *** The state the loop starts in *)






(** C3: when the write command is given while the source is not exhausted,
    either the source fails and [edit] returns without a call of the write
    routine, or every row that was still to come is in the document, in
    order, the source is exhausted, and the write routine is called once,
    with that document. *)
Theorem write_drains_the_source_first
    (cfg : Config) (inp : Input) (st : State) (src : Source) :
  fetch st = Some src ->
  KeyMap cfg !! key inp = None ->
  key inp = "w" ->
  match dispatch cfg inp st with
  | Next st' =>
      failure src = EOF
      /\ rows st' = rows st ++ pending src ++ [last src]
      /\ (exists src', fetch st' = Some src' /\ pending src' = [])
      /\ writeCalls st' = writeCalls st ++ [rows st ++ pending src ++ [last src]]
  | Failed st' e =>
      e = failure src /\ isEOF e = false
      /\ writeCalls st' = writeCalls st
  | Done _ _ | Panic => False
  end.
Proof.
  intros Hf Hkey Hw. unfold dispatch. rewrite Hkey, Hw.
  change (binding "w") with WriteOut. simpl.
  unfold cmdWriteOut, cmdWrite. rewrite Hf. unfold drain. rewrite drainFrom_spec.
  destruct (failure src) eqn:Efail; simpl.
  - destruct (writeErr inp); simpl; (split; [reflexivity|]);
      (split; [reflexivity|]); (split; [eexists; split; reflexivity | reflexivity]).
  - repeat split.
  - repeat split.
Qed.


(** *** Cancelled dialogs *)

Lemma app_eta (a : Application) : mkApplication (csvLines a) (removedRows a) = a.
Proof. destruct a. reflexivity. Qed.

Lemma clamp_inBounds (st : State) : wf st -> clamp st = Next st.
Proof.
  intros Hwf. destruct (wf_cursor st Hwf) as (cur & Hcur & Hcell & Hcol).
  unfold clamp, cursorRowValue. rewrite Hcur. simpl.
  rewrite !bool_decide_eq_false_2 by lia. reflexivity.
Qed.

Lemma cmdAppendCell_cancelled (cfg : Config) (inp : Input) (st : State) (e : error) :
  wf st -> (line inp).2 = Some e ->
  exists st', cmdAppendCell cfg inp st = Next st' /\ sameDocument st st'.
Proof.
  intros Hwf He. destruct (wf_cursor st Hwf) as (cur & Hcur & Hcell & Hcol).
  unfold cmdAppendCell.
  destruct (nonEmpty _); [eexists; split; [reflexivity | repeat split]|].
  unfold cursorRowValue. rewrite Hcur. simpl.
  destruct (onlyEmptyCell (Cells cur)).
  - rewrite He. exists st. repeat split.
  - destruct (Insert_ok (cursorCol st + 1) EmptyString (modeOf cfg) cur)
      as (r1 & Hins & _ & _); [lia|].
    rewrite Hins. simpl. rewrite He.
    rewrite (Delete_Insert _ _ _ _ _ Hins). simpl.
    eexists. split; [reflexivity|]. unfold sameDocument. simpl.
    split; [|split; [reflexivity | lia]].
    unfold rows. simpl. rewrite list_insert_insert_eq.
    rewrite list_insert_id by exact Hcur. apply app_eta.
Qed.

Lemma fillNewRow_rows (cfg : Config) (inp : Input) (st : State) :
  pre st ->
  exists st', fillNewRow cfg inp st = Next st'
              /\ map Term (rows st') = map Term (rows st)
              /\ length (rows st') = length (rows st).
Proof.
  intros Hpre. destruct (pre_cursor st Hpre) as (cur & Hcur & Hcell).
  unfold fillNewRow, cursorRowValue. rewrite Hcur. simpl.
  destruct (validate cfg (cursorRow st) _ (line inp).1) as [tx [err|]]; simpl.
  - eexists. split; [reflexivity|]. split; reflexivity.
  - destruct Hpre as (Hall & Hrow & Hcol & Hsrc).
    match goal with |- context [Replace ?i tx ?m cur] =>
      destruct (Replace_ok i tx m cur) as (r & -> & _ & Ht) end.
    { unfold hasCell in Hcell. case_bool_decide; lia. }
    simpl. eexists. split; [reflexivity|]. unfold rows. simpl.
    split; [|apply length_insert].
    rewrite list_fmap_insert, Ht. apply list_insert_id.
    rewrite list_lookup_fmap. unfold rows in Hcur. rewrite Hcur. reflexivity.
Qed.

Lemma rows_setRows (st : State) (l : list Row) : rows (setRows l st) = l.
Proof. reflexivity. Qed.

Lemma rows_opened (st : State) (l : list Row) (r : nat) :
  rows (setCursorRow r (setRows l st)) = l.
Proof. reflexivity. Qed.

Lemma opened_state_pre (st : State) (l : list Row) (r : nat) :
  pre st -> Forall hasCell l -> (r < length l)%nat ->
  pre (setCursorRow r (setRows l st)).
Proof. intros (Hall & Hrow & Hc & Hsrc) Hl Hr. repeat split; assumption. Qed.

Lemma cmdOpenBelow_rows (cfg : Config) (inp : Input) (st : State) :
  wf st -> checkWriteProtect cfg (cursorRow st) = EmptyString ->
  exists st' cur,
    cmdOpenBelow cfg inp st = Next st'
    /\ rows st !! cursorRow st = Some cur
    /\ map Term (rows st')
       = map Term (take (cursorRow st) (rows st))
         ++ (if bool_decide (Term cur = EmptyString)
             then DefaultTerm (modeOf cfg) else Term cur)
         :: Term cur :: map Term (drop (S (cursorRow st)) (rows st))
    /\ length (rows st') = S (length (rows st)).
Proof.
  intros Hwf Hprot. destruct (wf_cursor st Hwf) as (cur & Hcur & Hcell & Hcol).
  destruct Hwf as [Hpre _]. unfold cmdOpenBelow. rewrite Hprot. simpl.
  unfold cursorRowValue. rewrite Hcur. simpl.
  match goal with |- context [padIfFixed cfg ?c ?n] =>
    destruct (padIfFixed_ok cfg c n) as (newRow & -> & Hnew & Hterm) end.
  { unfold hasCell. simpl. lia. }
  simpl. simpl in Hterm.
  pose proof Hpre as (Hall & Hrow & Hc & Hsrc).
  destruct (Forall_split _ _ _ Hcur Hall) as [Ht Hd].
  match goal with |- context [fillNewRow cfg inp ?s] =>
    destruct (fillNewRow_rows cfg inp s) as (st' & -> & Hterms & Hlen) end.
  { apply opened_state_pre; [exact Hpre | |].
    - rewrite (InsertAfter_split (rows st) (cursorRow st) cur _ _ Hcur).
      apply Forall_app. split; [exact Ht|].
      constructor; [by case_bool_decide|]. constructor; assumption.
    - rewrite (InsertAfter_split (rows st) (cursorRow st) cur _ _ Hcur).
      rewrite length_app, length_take. simpl. rewrite length_drop. lia. }
  exists st', cur. split; [reflexivity|]. split; [reflexivity|].
  rewrite rows_opened in Hterms, Hlen.
  rewrite (InsertAfter_split (rows st) (cursorRow st) cur _ _ Hcur) in Hterms, Hlen.
  split.
  - rewrite Hterms, map_app. simpl. rewrite Hterm.
    f_equal. f_equal. by case_bool_decide.
  - rewrite Hlen, length_app, length_take. simpl. rewrite length_drop. lia.
Qed.

Lemma cmdOpenAbove_rows (cfg : Config) (inp : Input) (st : State) :
  wf st -> checkWriteProtect cfg (cursorRow st) = EmptyString ->
  exists st' cur,
    cmdOpenAbove cfg inp st = Next st'
    /\ rows st !! cursorRow st = Some cur
    /\ map Term (rows st')
       = map Term (take (cursorRow st) (rows st))
         ++ DefaultTerm (modeOf cfg)
         :: Term cur :: map Term (drop (S (cursorRow st)) (rows st))
    /\ length (rows st') = S (length (rows st)).
Proof.
  intros Hwf Hprot. destruct (wf_cursor st Hwf) as (cur & Hcur & Hcell & Hcol).
  destruct Hwf as [Hpre _]. unfold cmdOpenAbove. rewrite Hprot. simpl.
  unfold cursorRowValue. rewrite Hcur. simpl.
  destruct (padIfFixed_ok cfg cur (NewRow (modeOf cfg))) as (newRow & -> & Hnew & Hterm).
  { unfold hasCell. simpl. lia. }
  simpl. simpl in Hterm.
  pose proof Hpre as (Hall & Hrow & Hc & Hsrc).
  destruct (Forall_split _ _ _ Hcur Hall) as [Ht Hd].
  match goal with |- context [fillNewRow cfg inp ?s] =>
    destruct (fillNewRow_rows cfg inp s) as (st' & -> & Hterms & Hlen) end.
  { apply pre_setRows; [exact Hpre | |].
    - rewrite (InsertBefore_split (rows st) (cursorRow st) cur _ Hcur).
      apply Forall_app. split; [exact Ht|]. repeat constructor; assumption.
    - rewrite (InsertBefore_split (rows st) (cursorRow st) cur _ Hcur).
      rewrite length_app, length_take. simpl. lia. }
  exists st', cur. split; [reflexivity|]. split; [reflexivity|].
  rewrite rows_setRows in Hterms, Hlen.
  rewrite (InsertBefore_split (rows st) (cursorRow st) cur _ Hcur) in Hterms, Hlen.
  split.
  - rewrite Hterms, map_app. simpl. rewrite Hterm. reflexivity.
  - rewrite Hlen, length_app, length_take. simpl. rewrite length_drop. lia.
Qed.

Lemma sameDocument_wf (st st' : State) :
  wf st -> pre st' -> sameDocument st st' -> wf st'.
Proof.
  intros [_ (cur & Hcur & Hcol)] Hpre (Happ & Hrow & Hc). split; [exact Hpre|].
  exists cur. unfold cursorRowValue, rows in *. rewrite Happ, Hrow, Hc.
  split; assumption.
Qed.

(** C6 (as amended): when the dialog of insert cell, append cell or replace
    cell is cancelled, the document and the cursor are as they were before
    the key was handled (append cell takes the empty cell it had inserted
    out again and steps the cursor column back); the dialog of new row
    after and new row before has no such undo: the row that was inserted
    stays in the document when the dialog is cancelled. *)
Theorem cancelled_dialog_and_the_document
    (cfg : Config) (inp : Input) (st : State) (e : error) :
  wf st ->
  KeyMap cfg !! key inp = None ->
  (line inp).2 = Some e ->
  (binding (key inp) ∈ [InsertCell; AppendCell; ReplaceCell] ->
   exists st', handleKey cfg inp st = Next st' /\ sameDocument st st')
  /\ (binding (key inp) ∈ [OpenBelow; OpenAbove] ->
      checkWriteProtect cfg (cursorRow st) = EmptyString ->
      exists st', handleKey cfg inp st = Next st'
                  /\ length (rows st') = S (length (rows st))).
Proof.
  intros Hwf Hkey He.
  assert (Hwf0 : wf (setMessage EmptyString st)) by exact Hwf.
  split.
  - intros Hc. unfold handleKey, dispatch. rewrite Hkey.
    assert (Hcmd : exists st1, command cfg inp (binding (key inp)) (setMessage EmptyString st)
                               = Next st1 /\ sameDocument st st1 ).
    { destruct (wf_cursor _ Hwf0) as (cur & Hcur & Hcell & Hcol).
      apply elem_of_cons in Hc as [->|Hc]; [|apply elem_of_cons in Hc as [->|Hc]];
        [| |apply list_elem_of_singleton in Hc as ->]; simpl.
      - unfold cmdInsertCell. destruct (nonEmpty _).
        + eexists. split; [reflexivity | repeat split].
        + rewrite He. eexists. split; [reflexivity | repeat split].
      - destruct (cmdAppendCell_cancelled cfg inp _ e Hwf0 He) as (st1 & -> & Hs).
        exists st1. split; [reflexivity | exact Hs].
      - unfold cmdReplaceCell. destruct (nonEmpty _).
        + eexists. split; [reflexivity | repeat split].
        + unfold cursorRowValue. rewrite Hcur. simpl.
          destruct (cursorCell_ok _ cur Hcol) as [c ->]. simpl. rewrite He.
          eexists. split; [reflexivity | repeat split]. }
    destruct Hcmd as (st1 & Hcmd & Hsame).
    pose proof (command_pre cfg inp (binding (key inp)) _ Hwf0) as Hp.
    rewrite Hcmd in Hp |- *. simpl in Hp.
    exists st1. split; [|exact Hsame].
    apply clamp_inBounds. by apply (sameDocument_wf st).
  - intros Hc Hprot. unfold handleKey, dispatch. rewrite Hkey.
    assert (Hcmd : exists st1, command cfg inp (binding (key inp)) (setMessage EmptyString st)
                               = Next st1
                               /\ length (rows st1) = S (length (rows st))).
    { apply elem_of_cons in Hc as [->|Hc]; [|apply list_elem_of_singleton in Hc as ->]; simpl.
      - destruct (cmdOpenBelow_rows cfg inp _ Hwf0 Hprot) as (st1 & cur & -> & _ & _ & Hl).
        exists st1. split; [reflexivity | exact Hl].
      - destruct (cmdOpenAbove_rows cfg inp _ Hwf0 Hprot) as (st1 & cur & -> & _ & _ & Hl).
        exists st1. split; [reflexivity | exact Hl]. }
    destruct Hcmd as (st1 & Hcmd & Hlen).
    pose proof (command_pre cfg inp (binding (key inp)) _ Hwf0) as Hp.
    rewrite Hcmd in Hp |- *. simpl in Hp.
    destruct (clamp_wf st1 Hp) as (st2 & -> & _ & Happ & _).
    exists st2. split; [reflexivity|]. unfold rows in *. rewrite Happ. exact Hlen.
Qed.


(** *** Line terminators *)

Lemma termOK_terms (l : list Row) : termOK l <-> termsOK (terms l).
Proof.
  unfold termOK, termsOK, terms. split.
  - intros H i Hi. rewrite list_lookup_fmap in Hi.
    destruct (l !! i) as [r|] eqn:E; [|discriminate]. simpl in Hi.
    injection Hi as Hi. rewrite length_map. by apply (H i r).
  - intros H i r Hi Hr. rewrite <- (length_map Term). apply H.
    rewrite list_lookup_fmap, Hi. simpl. by rewrite Hr.
Qed.

Lemma termsOK_no_empty_before (A B : list string) (t : string) (i : nat) :
  termsOK (A ++ t :: B) -> A !! i = Some EmptyString -> False.
Proof.
  intros H Hi. pose proof (lookup_lt_Some _ _ _ Hi) as Hlt.
  specialize (H i). rewrite lookup_app_l in H by exact Hlt.
  specialize (H Hi). rewrite length_app in H. simpl in H. lia.
Qed.

Lemma termsOK_after (A B : list string) (t : string) (k : nat) :
  termsOK (A ++ t :: B) -> B !! k = Some EmptyString -> S k = length B.
Proof.
  intros H Hk. specialize (H (length A + S k)%nat).
  rewrite lookup_app_r in H by lia.
  replace (length A + S k - length A)%nat with (S k) in H by lia.
  specialize (H Hk). rewrite length_app in H. simpl in H. lia.
Qed.

Lemma termsOK_at (A B : list string) :
  termsOK (A ++ EmptyString :: B) -> B = [].
Proof.
  intros H. specialize (H (length A)).
  rewrite lookup_app_r in H by lia. rewrite Nat.sub_diag in H.
  specialize (H eq_refl). rewrite length_app in H. simpl in H.
  destruct B; [reflexivity | simpl in H; lia].
Qed.

Lemma termsOK_open (A B : list string) (t t' : string) :
  termsOK (A ++ t :: B) -> t' <> EmptyString ->
  termsOK (A ++ t' :: t :: B).
Proof.
  intros H Ht' i Hi. rewrite length_app. simpl.
  destruct (decide (i < length A)%nat) as [Hlt|Hge].
  - rewrite lookup_app_l in Hi by exact Hlt.
    destruct (termsOK_no_empty_before A B t i H Hi).
  - rewrite lookup_app_r in Hi by lia.
    destruct (i - length A)%nat as [|[|k]] eqn:E; simpl in Hi.
    + congruence.
    + injection Hi as ->. rewrite (termsOK_at A B H). simpl. lia.
    + pose proof (termsOK_after A B t k H Hi). lia.
Qed.

Lemma termsOK_remove (A B : list string) (t : string) :
  termsOK (A ++ t :: B) -> termsOK (A ++ B).
Proof.
  intros H i Hi. rewrite length_app.
  destruct (decide (i < length A)%nat) as [Hlt|Hge].
  - rewrite lookup_app_l in Hi by exact Hlt.
    destruct (termsOK_no_empty_before A B t i H Hi).
  - rewrite lookup_app_r in Hi by lia.
    pose proof (termsOK_after A B t _ H Hi). lia.
Qed.

Lemma termsOK_transfer (A : list string) (t : string) (j : nat) :
  termsOK (A ++ [t]) -> S j = length A -> termsOK (<[j := t]> A).
Proof.
  intros H Hj i Hi. rewrite length_insert.
  destruct (decide (i = j)) as [->|Hne]; [exact Hj|].
  rewrite list_lookup_insert_ne in Hi by congruence.
  destruct (termsOK_no_empty_before A [] t i H Hi).
Qed.

Lemma terms_split (l : list Row) (i : nat) (cur : Row) :
  l !! i = Some cur ->
  terms l = terms (take i l) ++ Term cur :: terms (drop (S i) l).
Proof.
  intros H. rewrite (rows_split l i cur H) at 1.
  unfold terms. rewrite map_app. reflexivity.
Qed.

Lemma cmdDeleteRow_rows (cfg : Config) (st : State) :
  wf st -> checkWriteProtect cfg (cursorRow st) = EmptyString ->
  (2 <= length (rows st))%nat ->
  exists st' cur,
    cmdDeleteRow cfg st = Next st'
    /\ rows st !! cursorRow st = Some cur
    /\ removedRows (app st') = removedRows (app st) ++ [cur]
    /\ terms (rows st')
       = if bool_decide (S (cursorRow st) < length (rows st))%nat
         then terms (take (cursorRow st) (rows st))
              ++ terms (drop (S (cursorRow st)) (rows st))
         else <[pred (cursorRow st) := Term cur]> (terms (take (cursorRow st) (rows st))).
Proof.
  intros Hwf Hprot Htwo. destruct (wf_cursor st Hwf) as (cur & Hcur & Hcell & Hcol).
  destruct Hwf as [(Hall & Hrow & Hc & Hsrc) _]. unfold cmdDeleteRow.
  rewrite Hprot. simpl. rewrite bool_decide_eq_false_2 by lia.
  unfold cursorRowValue. rewrite Hcur. simpl.
  assert (Hlrem : S (length (Remove (cursorRow st) (rows st))) = length (rows st)).
  { unfold Remove. rewrite length_app, length_take, length_drop. lia. }
  destruct (cursorRow st) as [|prevP] eqn:Ei.
  - exists (setCursorRow O
              (setApp (mkApplication (Remove O (rows st)) (removedRows (app st) ++ [cur])) st)),
           cur.
    split; [reflexivity|]. split; [reflexivity|]. split; [reflexivity|].
    rewrite bool_decide_eq_true_2 by lia. unfold rows. simpl.
    unfold Remove, terms. rewrite map_app. reflexivity.
  - destruct (bool_decide_reflect (S prevP < length (Remove (S prevP) (rows st)))%nat)
      as [Hnext|Hnext].
    + eexists _, cur. split; [reflexivity|]. split; [reflexivity|]. split; [reflexivity|].
      rewrite bool_decide_eq_true_2 by lia. unfold rows. simpl.
      unfold Remove, terms. rewrite map_app. reflexivity.
    + destruct (lookup_lt_is_Some_2 (Remove (S prevP) (rows st)) prevP) as [prevRow Hp]; [lia|].
      rewrite Hp. simpl.
      eexists _, cur. split; [reflexivity|]. split; [reflexivity|]. split; [reflexivity|].
      rewrite bool_decide_eq_false_2 by lia. unfold rows. simpl.
      unfold terms. rewrite list_fmap_insert. simpl.
      unfold Remove. rewrite drop_ge by (unfold rows in *; lia).
      rewrite app_nil_r. reflexivity.
Qed.

(** C9 (as amended): when the default terminator of the mode is not empty,
    the row insert after, the row insert before and the row delete keep
    the terminators such that only the last row may have an empty one;
    the row inserted after the cursor row takes the terminator of that row,
    which gets the default terminator if its own was empty, and the row
    delete on the last row gives its terminator to the row before it. *)
Theorem row_commands_keep_terminators
    (cfg : Config) (inp : Input) (st : State) :
  wf st ->
  termOK (rows st) ->
  DefaultTerm (modeOf cfg) <> EmptyString ->
  KeyMap cfg !! key inp = None ->
  binding (key inp) ∈ [OpenBelow; OpenAbove; DeleteRow] ->
  exists st' cur,
    handleKey cfg inp st = Next st'
    /\ termOK (rows st')
    /\ rows st !! cursorRow st = Some cur
    /\ (binding (key inp) = OpenBelow ->
        checkWriteProtect cfg (cursorRow st) = EmptyString ->
        Term cur = EmptyString ->
        terms (rows st')
        = terms (take (cursorRow st) (rows st))
          ++ [DefaultTerm (modeOf cfg); EmptyString])
    /\ (binding (key inp) = DeleteRow ->
        checkWriteProtect cfg (cursorRow st) = EmptyString ->
        (2 <= length (rows st))%nat ->
        S (cursorRow st) = length (rows st) ->
        terms (rows st')
        = <[pred (cursorRow st) := Term cur]> (terms (take (cursorRow st) (rows st)))).
Proof.
  intros Hwf Hterm Hdef Hkey Hc.
  assert (Hwf0 : wf (setMessage EmptyString st)) by exact Hwf.
  destruct (wf_cursor st Hwf) as (cur & Hcur & Hcell & Hcol).
  pose proof (proj1 (termOK_terms _) Hterm) as Hts.
  rewrite (terms_split _ _ _ Hcur) in Hts.
  assert (Hcmd : exists st1,
             command cfg inp (binding (key inp)) (setMessage EmptyString st) = Next st1
             /\ termsOK (terms (rows st1))
             /\ (binding (key inp) = OpenBelow ->
                 checkWriteProtect cfg (cursorRow st) = EmptyString ->
                 Term cur = EmptyString ->
                 terms (rows st1)
                 = terms (take (cursorRow st) (rows st))
                   ++ [DefaultTerm (modeOf cfg); EmptyString])
             /\ (binding (key inp) = DeleteRow ->
                 checkWriteProtect cfg (cursorRow st) = EmptyString ->
                 (2 <= length (rows st))%nat ->
                 S (cursorRow st) = length (rows st) ->
                 terms (rows st1)
                 = <[pred (cursorRow st) := Term cur]>
                     (terms (take (cursorRow st) (rows st))))).
  { destruct (decide (checkWriteProtect cfg (cursorRow st) = EmptyString)) as [Hprot|Hprot].
    - apply elem_of_cons in Hc as [->|Hc]; [|apply elem_of_cons in Hc as [->|Hc]];
        [| |apply list_elem_of_singleton in Hc as ->]; simpl.
      + destruct (cmdOpenBelow_rows cfg inp _ Hwf0 Hprot) as (st1 & cur' & -> & Hcur' & Ht & _).
        change (rows (setMessage EmptyString st)) with (rows st) in Hcur', Ht.
        change (cursorRow (setMessage EmptyString st)) with (cursorRow st) in Hcur', Ht.
        rewrite Hcur in Hcur'. injection Hcur' as <-.
        exists st1. split; [reflexivity|]. fold (terms (rows st1)) in Ht.
        split; [|split; [|discriminate]].
        * rewrite Ht. apply termsOK_open; [exact Hts|]. by case_bool_decide.
        * intros _ _ Hempty. rewrite Ht.
          rewrite bool_decide_eq_true_2 by exact Hempty. rewrite Hempty in Hts |- *.
          fold (terms (drop (S (cursorRow st)) (rows st))).
          rewrite (termsOK_at _ _ Hts). reflexivity.
      + destruct (cmdOpenAbove_rows cfg inp _ Hwf0 Hprot) as (st1 & cur' & -> & Hcur' & Ht & _).
        change (rows (setMessage EmptyString st)) with (rows st) in Hcur', Ht.
        change (cursorRow (setMessage EmptyString st)) with (cursorRow st) in Hcur', Ht.
        rewrite Hcur in Hcur'. injection Hcur' as <-.
        exists st1. split; [reflexivity|]. fold (terms (rows st1)) in Ht.
        split; [|split; discriminate].
        rewrite Ht. apply termsOK_open; [exact Hts | exact Hdef].
      + destruct (decide (2 <= length (rows st))%nat) as [Htwo|Hone].
        * destruct (cmdDeleteRow_rows cfg _ Hwf0 Hprot Htwo)
            as (st1 & cur' & -> & Hcur' & _ & Ht).
          change (rows (setMessage EmptyString st)) with (rows st) in Hcur', Ht.
          change (cursorRow (setMessage EmptyString st)) with (cursorRow st) in Hcur', Ht.
          rewrite Hcur in Hcur'. injection Hcur' as <-.
          exists st1. split; [reflexivity|].
          split; [|split; [discriminate|]].
          -- rewrite Ht. case_bool_decide as Hlast.
             ++ eapply termsOK_remove. exact Hts.
             ++ pose proof (lookup_lt_Some _ _ _ Hcur) as Hlt.
                assert (Hd : drop (S (cursorRow st)) (rows st) = [])
                  by (apply drop_ge; lia).
                rewrite Hd in Hts. apply termsOK_transfer; [exact Hts|].
                unfold terms. rewrite length_map, length_take. lia.
          -- intros _ _ _ Hlast. rewrite Ht.
             rewrite bool_decide_eq_false_2 by lia. reflexivity.
        * unfold cmdDeleteRow.
          change (cursorRow (setMessage EmptyString st)) with (cursorRow st).
          rewrite Hprot. simpl.
          change (rows (setMessage EmptyString st)) with (rows st).
          rewrite bool_decide_eq_true_2 by lia.
          eexists. split; [reflexivity|].
          split; [by apply termOK_terms|]. split; [discriminate|].
          intros _ _ Htwo. lia.
    - assert (Hm : nonEmpty (checkWriteProtect cfg (cursorRow st)) = true).
      { destruct (checkWriteProtect cfg (cursorRow st)); [contradiction | reflexivity]. }
      exists (setMessage (checkWriteProtect cfg (cursorRow st)) (setMessage EmptyString st)).
      split.
      + apply elem_of_cons in Hc as [->|Hc]; [|apply elem_of_cons in Hc as [->|Hc]];
          [| |apply list_elem_of_singleton in Hc as ->]; simpl.
        * unfold cmdOpenBelow.
          change (cursorRow (setMessage EmptyString st)) with (cursorRow st).
          by rewrite Hm.
        * unfold cmdOpenAbove.
          change (cursorRow (setMessage EmptyString st)) with (cursorRow st).
          by rewrite Hm.
        * unfold cmdDeleteRow.
          change (cursorRow (setMessage EmptyString st)) with (cursorRow st).
          by rewrite Hm.
      + split; [by apply termOK_terms|]. split; intros _ Hp; contradiction. }
  destruct Hcmd as (st1 & Hcmd & Hok & Ho & Hd).
  pose proof (command_pre cfg inp (binding (key inp)) _ Hwf0) as Hp.
  unfold handleKey, dispatch. rewrite Hkey, Hcmd. rewrite Hcmd in Hp. simpl in Hp.
  destruct (clamp_wf st1 Hp) as (st2 & -> & _ & Happ & _).
  assert (Hrows : rows st2 = rows st1) by (unfold rows; by rewrite Happ).
  exists st2, cur. rewrite Hrows.
  split; [reflexivity|]. split; [by apply termOK_terms|].
  split; [exact Hcur|]. split; assumption.
Qed.



(** *** Write protection *)

(** X1: in read-only mode every command that starts with the write
    protection check (new row after and before, row delete, cell insert,
    append, replace, paste and delete) does nothing but set a message that
    is not empty. *)
Theorem readOnly_blocks_checked_commands
    (cfg : Config) (inp : Input) (c : Command) (st : State) :
  ReadOnly cfg = true ->
  c ∈ [OpenBelow; OpenAbove; DeleteRow; InsertCell; AppendCell;
       ReplaceCell; Paste; DeleteCell] ->
  exists m, nonEmpty m = true /\ command cfg inp c st = Next (setMessage m st).
Proof.
  intros Hro Hc.
  assert (Hm : nonEmpty (checkWriteProtect cfg (cursorRow st)) = true).
  { unfold checkWriteProtect. rewrite Hro.
    destruct (ProtectHeader cfg && _); reflexivity. }
  assert (Hm' : nonEmpty (checkWriteProtectAndColumn cfg (cursorRow st)) = true
                /\ checkWriteProtectAndColumn cfg (cursorRow st)
                   = checkWriteProtect cfg (cursorRow st)).
  { unfold checkWriteProtectAndColumn. rewrite Hm. split; [exact Hm | reflexivity]. }
  destruct Hm' as [Hm1 Hm2].
  exists (checkWriteProtect cfg (cursorRow st)). split; [exact Hm|].
  repeat (apply elem_of_cons in Hc as [->|Hc]); [..|by apply elem_of_nil in Hc]; simpl.
  - unfold cmdOpenBelow. by rewrite Hm.
  - unfold cmdOpenAbove. by rewrite Hm.
  - unfold cmdDeleteRow. by rewrite Hm.
  - unfold cmdInsertCell. by rewrite Hm1, Hm2.
  - unfold cmdAppendCell. by rewrite Hm1, Hm2.
  - unfold cmdReplaceCell. by rewrite Hm.
  - unfold cmdPaste. by rewrite Hm.
  - unfold cmdDeleteCell. by rewrite Hm1, Hm2.
Qed.

(** *** The all-empty last row *)

(** X2: when the source ends with [io.EOF] and an all-empty row, the
    prefetch and the idle step of the ingestion drop that row and set the
    fetch function to nil; a row delivered before the end is appended to
    the document whether it is empty or not. *)
Theorem empty_last_row_dropped_by_prefetch_and_idle
    (src : Source) (st : State) (n : nat) (l : list Row) :
  failure src = EOF ->
  isEmptyRow (last src) = true ->
  (pending src = [] ->
   prefetch (S n) src l = (l, None, None)
   /\ (fetch st = Some src -> idleStep st = (setFetch None st, false)))
  /\ (forall row rest,
        pending src = row :: rest -> fetch st = Some src ->
        idleStep st
        = (Push row (setFetch (Some (mkSource rest (last src) (failure src))) st),
           true)).
Proof.
  intros Hfail Hempty. split.
  - intros Hpend. split.
    + simpl. unfold fetchRow. rewrite Hpend, Hfail. simpl. rewrite Hempty. reflexivity.
    + intros Hf. unfold idleStep, fetchRow. rewrite Hf, Hpend, Hfail. simpl.
      rewrite Hempty. reflexivity.
  - intros row rest Hpend Hf. unfold idleStep, fetchRow. rewrite Hf, Hpend.
    reflexivity.
Qed.

End CsviProps.

(** ** The main loop on concrete documents *)

Section CsviExamples.

Import uncsv csvi.

Lemma wf_loaded_rowA : wf (loaded [rowA]).
Proof.
  split.
  - unfold pre. simpl. repeat split; try lia.
    constructor; [unfold hasCell; simpl; lia | constructor].
  - exists rowA. split; [reflexivity | simpl; lia].
Qed.

Lemma wf_loaded_rowAB : wf (loaded [rowAB; rowA]).
Proof.
  split.
  - unfold pre. simpl. repeat split; try lia.
    repeat constructor; unfold hasCell; simpl; lia.
  - exists rowAB. split; [reflexivity | simpl; lia].
Qed.

Lemma termOK_rowA : termOK (rows (loaded [rowA])).
Proof. intros [|i] r H; [reflexivity | discriminate]. Qed.



(** The row delete on the last of two rows, then on the only row; the cell
    delete on the only cell. *)
Example delete_down_to_one_row_and_one_cell :
  turns cfgPlain [pressed "j"; pressed "D"; pressed "D"; pressed "d"; pressed "d"]
        (loaded [rowAB; rowA])
  = Next (mkState
            (mkApplication
               [mkRow [mkCell EmptyString "b" true false] EmptyString] [rowA])
            None O 0 Forward Backward EmptyString EmptyString EmptyString []).
Proof. vm_compute. reflexivity. Qed.

Lemma write_drains_the_source_first_witness :
  match dispatch cfgPlain (pressed "w") (loading [rowLF] source1) with
  | Next st' =>
      failure source1 = EOF
      /\ rows st' = rows (loading [rowLF] source1) ++ pending source1 ++ [last source1]
      /\ (exists src', fetch st' = Some src' /\ pending src' = [])
      /\ writeCalls st'
         = writeCalls (loading [rowLF] source1)
           ++ [rows (loading [rowLF] source1) ++ pending source1 ++ [last source1]]
  | Failed st' e =>
      e = failure source1 /\ isEOF e = false
      /\ writeCalls st' = writeCalls (loading [rowLF] source1)
  | Done _ _ | Panic => False
  end.
Proof.
  apply (write_drains_the_source_first cfgPlain (pressed "w")
           (loading [rowLF] source1) source1).
  - reflexivity.
  - reflexivity.
  - reflexivity.
Defined.

(** C4: the configuration is read-only, yet the double quote key changes
    the cell under the cursor: its quoted flag and its modified flag become
    true and no message is shown.  The cell delete, which asks
    [checkWriteProtect], is refused in the same state. *)
Theorem readOnly_does_not_stop_the_quote_key :
  ReadOnly cfgReadOnly = true
  /\ handleKey cfgReadOnly (pressed (str1 DQUOTE)) (loaded [rowA])
     = Next (loaded [mkRow [mkCell "a" "a" true true] EmptyString])
  /\ handleKey cfgReadOnly (pressed "d") (loaded [rowA])
     = Next (setMessage msgReadOnly (loaded [rowA])).
Proof. repeat split. Qed.

(** C5: a source of a hundred lines, each ended by a line feed.  The
    prefetch takes the hundred rows and leaves the source open.  When the
    write command comes before an idle turn, its drain appends the
    all-empty row that the end of the input delivers, and the write routine
    is called with a hundred and one rows; after one idle turn the same key
    finds the row dropped. *)
Theorem write_drain_keeps_the_empty_last_row :
  isEmptyRow (last source100) = true
  /\ start cfgPlain (Some source100)
     = Next (loading (replicate 100 rowLF) (mkSource [] emptyRow EOF))
  /\ match edit cfgPlain (Some source100) [pressed "w"] with
     | Next st' =>
         rows st' = replicate 100 rowLF ++ [emptyRow]
         /\ writeCalls st' = [replicate 100 rowLF ++ [emptyRow]]
     | _ => False
     end
  /\ match edit cfgPlain (Some source100) [pressedAfter 1 "w"] with
     | Next st' =>
         rows st' = replicate 100 rowLF
         /\ writeCalls st' = [replicate 100 rowLF]
     | _ => False
     end.
Proof. vm_compute. repeat split. Qed.

Lemma cancelled_dialog_and_the_document_witness :
  (binding (key (cancelled "a")) ∈ [InsertCell; AppendCell; ReplaceCell] ->
   exists st', handleKey cfgPlain (cancelled "a") (loaded [rowAB; rowA]) = Next st'
               /\ sameDocument (loaded [rowAB; rowA]) st')
  /\ (binding (key (cancelled "a")) ∈ [OpenBelow; OpenAbove] ->
      checkWriteProtect cfgPlain (cursorRow (loaded [rowAB; rowA])) = EmptyString ->
      exists st', handleKey cfgPlain (cancelled "a") (loaded [rowAB; rowA]) = Next st'
                  /\ length (rows st') = S (length (rows (loaded [rowAB; rowA])))).
Proof.
  apply (cancelled_dialog_and_the_document cfgPlain (cancelled "a")
           (loaded [rowAB; rowA]) CtrlC).
  - exact wf_loaded_rowAB.
  - reflexivity.
  - reflexivity.
Defined.

(** C6 (as stated) fails for the new row dialog: the document holds one
    row, the key is [o] and the dialog is cancelled; the document then
    holds two rows, the new one with an empty cell, and the first row has
    been given the default terminator. *)
Lemma cancelled_new_row_stays :
  (line (cancelled "o")).2 = Some CtrlC
  /\ rows (loaded [rowA]) = [rowA]
  /\ handleKey cfgPlain (cancelled "o") (loaded [rowA])
     = Next (setCursorRow 1
               (loaded [mkRow [decode "a"] strLF;
                        mkRow [mkCell EmptyString EmptyString true false] EmptyString])).
Proof. repeat split. Qed.

Lemma row_commands_keep_terminators_witness :
  exists st' cur,
    handleKey cfgPlain (entered "o" "b") (loaded [rowA]) = Next st'
    /\ termOK (rows st')
    /\ rows (loaded [rowA]) !! cursorRow (loaded [rowA]) = Some cur
    /\ (binding (key (entered "o" "b")) = OpenBelow ->
        checkWriteProtect cfgPlain (cursorRow (loaded [rowA])) = EmptyString ->
        Term cur = EmptyString ->
        terms (rows st')
        = terms (take (cursorRow (loaded [rowA])) (rows (loaded [rowA])))
          ++ [DefaultTerm (modeOf cfgPlain); EmptyString])
    /\ (binding (key (entered "o" "b")) = DeleteRow ->
        checkWriteProtect cfgPlain (cursorRow (loaded [rowA])) = EmptyString ->
        (2 <= length (rows (loaded [rowA])))%nat ->
        S (cursorRow (loaded [rowA])) = length (rows (loaded [rowA])) ->
        terms (rows st')
        = <[pred (cursorRow (loaded [rowA])) := Term cur]>
            (terms (take (cursorRow (loaded [rowA])) (rows (loaded [rowA]))))).
Proof.
  apply (row_commands_keep_terminators cfgPlain (entered "o" "b") (loaded [rowA])).
  - exact wf_loaded_rowA.
  - exact termOK_rowA.
  - discriminate.
  - reflexivity.
  - apply elem_of_cons. left. reflexivity.
Defined.

(** C9 (as stated) fails when the default terminator is empty, as it is in
    the zero mode the loop takes when [cfg.Mode] is nil: the only row of
    the document has an empty terminator, the key is [o], and afterwards
    both rows have an empty terminator, the first of them not being the
    last row. *)
Lemma open_below_with_empty_default_terminator :
  DefaultTerm (modeOf cfgNilMode) = EmptyString
  /\ termOK (rows (loaded [rowA]))
  /\ handleKey cfgNilMode (entered "o" "b") (loaded [rowA])
     = Next (setCursorRow 1
               (loaded [mkRow [decode "a"] EmptyString;
                        mkRow [mkCell "b" EmptyString true false] EmptyString])).
Proof. split; [reflexivity|]. split; [exact termOK_rowA | reflexivity]. Qed.

Lemma readOnly_blocks_checked_commands_witness :
  exists m, nonEmpty m = true
            /\ command cfgReadOnly (pressed "D") DeleteRow (loaded [rowAB; rowA])
               = Next (setMessage m (loaded [rowAB; rowA])).
Proof.
  apply (readOnly_blocks_checked_commands cfgReadOnly (pressed "D") DeleteRow).
  - reflexivity.
  - apply list_elem_of_In. simpl. tauto.
Defined.

Lemma empty_last_row_dropped_by_prefetch_and_idle_witness :
  (pending (mkSource [] emptyRow EOF) = [] ->
   prefetch 1 (mkSource [] emptyRow EOF) [rowLF] = ([rowLF], None, None)
   /\ (fetch (loading [rowLF] (mkSource [] emptyRow EOF))
       = Some (mkSource [] emptyRow EOF) ->
       idleStep (loading [rowLF] (mkSource [] emptyRow EOF))
       = (setFetch None (loading [rowLF] (mkSource [] emptyRow EOF)), false)))
  /\ (forall row rest,
        pending (mkSource [] emptyRow EOF) = row :: rest ->
        fetch (loading [rowLF] (mkSource [] emptyRow EOF))
        = Some (mkSource [] emptyRow EOF) ->
        idleStep (loading [rowLF] (mkSource [] emptyRow EOF))
        = (Push row
             (setFetch (Some (mkSource rest (last (mkSource [] emptyRow EOF))
                                       (failure (mkSource [] emptyRow EOF))))
                       (loading [rowLF] (mkSource [] emptyRow EOF))),
           true)).
Proof.
  apply (empty_last_row_dropped_by_prefetch_and_idle
           (mkSource [] emptyRow EOF) (loading [rowLF] (mkSource [] emptyRow EOF))
           O [rowLF]).
  - reflexivity.
  - reflexivity.
Defined.

End CsviExamples.

(** * Properties of the further parts *)

(** ** The search in reading order *)

Section SearchOrder.

Import Grid Reading.

Variable target : string.

Lemma matchAt_row (l : list (list string)) (k : nat) (row : list string) (j : Z) :
  l !! k = Some row -> 0 <= j ->
  matchAt target l (Z.of_nat k) j
  = match row !! Z.to_nat j with
    | Some cell => Contains cell target
    | None => false
    end.
Proof.
  intros Hrow Hj. unfold matchAt, cellAt.
  rewrite bool_decide_eq_true_2 by lia. rewrite Nat2Z.id, Hrow. reflexivity.
Qed.

Lemma matchAt_outside (l : list (list string)) (i j : Z) :
  i < 0 \/ j < 0 \/ Z.of_nat (length l) <= i -> matchAt target l i j = false.
Proof.
  intros H. unfold matchAt, cellAt. case_bool_decide as Hij; [|reflexivity].
  rewrite lookup_ge_None_2 by lia. reflexivity.
Qed.

(** The inner loop of the forward search stops at the first cell that
    contains the target. *)
Lemma findUp_first (cells : list string) :
  forall c c', findUp target cells c = Some c' ->
    exists (k : nat) (cell : string),
      c' = c + Z.of_nat k /\ cells !! k = Some cell /\ Contains cell target = true
      /\ forall (j : nat) (s : string), (j < k)%nat -> cells !! j = Some s ->
           Contains s target = false.
Proof.
  induction cells as [|s cells IH]; intros c c' H; [discriminate|].
  simpl in H. destruct (Contains s target) eqn:E.
  - injection H as <-. exists O, s. split; [lia|]. split; [reflexivity|].
    split; [exact E|]. intros j s' Hj. lia.
  - apply IH in H as (k & cell & -> & Hk & Hc & Hfirst).
    exists (S k), cell. split; [lia|]. split; [exact Hk|]. split; [exact Hc|].
    intros [|j] s' Hj Hs.
    + injection Hs as <-. exact E.
    + apply (Hfirst j); [lia | exact Hs].
Qed.

Lemma findUp_None (cells : list string) :
  forall c, findUp target cells c = None ->
    Forall (fun s => Contains s target = false) cells.
Proof.
  induction cells as [|s cells IH]; intros c H; [constructor|].
  simpl in H. destruct (Contains s target) eqn:E; [discriminate|].
  constructor; [exact E | by eapply IH].
Qed.

(** No cell of the row from column [c] on contains the target. *)
Lemma row_clear (l : list (list string)) (k : nat) (row : list string) (c : Z) :
  l !! k = Some row -> 0 <= c ->
  Forall (fun s => Contains s target = false) (drop (Z.to_nat c) row) ->
  forall j, c <= j -> matchAt target l (Z.of_nat k) j = false.
Proof.
  intros Hrow Hc Hall j Hj. rewrite (matchAt_row l k row) by (assumption || lia).
  destruct (row !! Z.to_nat j) as [cell|] eqn:E; [|reflexivity].
  eapply (Forall_lookup_1 _ _ (Z.to_nat j - Z.to_nat c)%nat cell) in Hall; [exact Hall|].
  rewrite lookup_drop. replace (Z.to_nat c + (Z.to_nat j - Z.to_nat c))%nat
    with (Z.to_nat j) by lia. exact E.
Qed.

(** The outer loop of the forward search, over the rows from [k] on. *)
Lemma forwardRows_order (l : list (list string)) (rows : list (list string)) :
  forall (k : nat) (c : Z) (found : bool) (r' c' : Z),
    rows = drop k l -> 0 <= c ->
    forwardRows target rows (Z.of_nat k) c = Some (found, r', c') ->
    if found then
      matchAt target l r' c' = true
      /\ (Z.of_nat k < r' \/ (Z.of_nat k = r' /\ c <= c'))
      /\ forall i j, (Z.of_nat k < i \/ (Z.of_nat k = i /\ c <= j)) ->
           before i j r' c' -> matchAt target l i j = false
    else
      (forall i j, (Z.of_nat k < i \/ (Z.of_nat k = i /\ c <= j)) ->
         matchAt target l i j = false)
      /\ r' = Z.max (Z.of_nat k) (Z.of_nat (length l)).
Proof.
  induction rows as [|row rows IH]; intros k c found r' c' Hrows Hc H.
  - simpl in H. injection H as <- <- <-.
    assert (Hlen : (length l <= k)%nat).
    { destruct (decide (length l <= k)%nat) as [|Hn]; [assumption|].
      assert (Hd : length (drop k l) = O) by (rewrite <- Hrows; reflexivity).
      rewrite length_drop in Hd. lia. }
    split; [|lia]. intros i j Hij. apply matchAt_outside. lia.
  - assert (Hrow : l !! k = Some row).
    { rewrite <- (Nat.add_0_r k), <- lookup_drop, <- Hrows. reflexivity. }
    assert (Hrest : rows = drop (S k) l).
    { replace (S k) with (k + 1)%nat by lia. rewrite <- drop_drop, <- Hrows.
      reflexivity. }
    simpl in H. rewrite bool_decide_eq_false_2 in H by lia.
    destruct (findUp target (drop (Z.to_nat c) row) c) as [c1|] eqn:E.
    + injection H as <- <- <-.
      apply findUp_first in E as (n & cell & -> & Hn & Hcont & Hfirst).
      rewrite lookup_drop in Hn.
      split.
      { rewrite (matchAt_row l k row) by (assumption || lia).
        replace (Z.to_nat (c + Z.of_nat n)) with (Z.to_nat c + n)%nat by lia.
        rewrite Hn. exact Hcont. }
      split; [right; lia|].
      intros i j Hij Hbefore. unfold before in Hbefore.
      assert (Hi : i = Z.of_nat k) by lia. subst i.
      assert (Hj : c <= j < c + Z.of_nat n) by lia.
      rewrite (matchAt_row l k row) by (assumption || lia).
      destruct (row !! Z.to_nat j) as [s|] eqn:Es; [|reflexivity].
      apply (Hfirst (Z.to_nat j - Z.to_nat c)%nat); [lia|].
      rewrite lookup_drop.
      replace (Z.to_nat c + (Z.to_nat j - Z.to_nat c))%nat with (Z.to_nat j) by lia.
      exact Es.
    + apply findUp_None in E.
      replace (Z.of_nat k + 1) with (Z.of_nat (S k)) in H by lia.
      specialize (IH (S k) 0 found r' c' Hrest ltac:(lia) H).
      pose proof (row_clear l k row c Hrow Hc E) as Hclear.
      pose proof (lookup_lt_Some _ _ _ Hrow) as Hlt.
      destruct found.
      * destruct IH as (Hm & Hpos & Hfirst). split; [exact Hm|].
        split; [left; lia|].
        intros i j Hij Hbefore.
        destruct (decide (i = Z.of_nat k)) as [->|Hne].
        { apply Hclear. lia. }
        destruct (decide (j < 0)) as [Hneg|Hnn].
        { apply matchAt_outside. lia. }
        apply Hfirst; [lia | exact Hbefore].
      * destruct IH as (Hnone & Hr'). split; [|lia].
        intros i j Hij.
        destruct (decide (i = Z.of_nat k)) as [->|Hne].
        { apply Hclear. lia. }
        destruct (decide (j < 0)) as [Hneg|Hnn].
        { apply matchAt_outside. lia. }
        apply Hnone. lia.
Qed.

(** The inner loop of the backward search over the cells [n - 1] down to 0
    stops at the last cell that contains the target. *)
Lemma findDown_order (row : list string) :
  forall n : nat, (n <= length row)%nat ->
    match findDown target (rev (take n row)) (Z.of_nat n - 1) with
    | Some c' =>
        0 <= c' < Z.of_nat n
        /\ (exists cell, row !! Z.to_nat c' = Some cell /\ Contains cell target = true)
        /\ forall (j : nat) (s : string), c' < Z.of_nat j < Z.of_nat n ->
             row !! j = Some s -> Contains s target = false
    | None =>
        forall (j : nat) (s : string), (j < n)%nat -> row !! j = Some s ->
          Contains s target = false
    end.
Proof.
  induction n as [|n IH]; intros Hn.
  - simpl. intros j s Hj. lia.
  - destruct (lookup_lt_is_Some_2 row n) as [x Hx]; [lia|].
    rewrite (take_S_r row n x Hx), rev_app_distr. simpl.
    destruct (Contains x target) eqn:E.
    + split; [lia|]. split.
      * exists x. replace (Z.to_nat (Z.of_nat (S n) - 1)) with n by lia.
        split; [exact Hx | exact E].
      * intros j s Hj. lia.
    + replace (Z.of_nat (S n) - 1 - 1) with (Z.of_nat n - 1) by lia.
      specialize (IH ltac:(lia)).
      destruct (findDown target (rev (take n row)) (Z.of_nat n - 1)) as [c'|].
      * destruct IH as (Hc' & Hcell & Hlast). split; [lia|]. split; [exact Hcell|].
        intros j s Hj Hs. destruct (decide (j = n)) as [->|Hne].
        { rewrite Hx in Hs. injection Hs as <-. exact E. }
        apply (Hlast j); [lia | exact Hs].
      * intros j s Hj Hs. destruct (decide (j = n)) as [->|Hne].
        { rewrite Hx in Hs. injection Hs as <-. exact E. }
        apply (IH j); [lia | exact Hs].
Qed.

(** The rows above, searched from the nearest to row 0. *)
Lemma backwardRows_order (l : list (list string)) :
  forall (r : nat) (c0 : Z) (found : bool) (r' c' : Z),
    (r <= length l)%nat ->
    backwardRows target (rev (take r l)) (Z.of_nat r - 1) c0 = (found, r', c') ->
    if found then
      matchAt target l r' c' = true /\ 0 <= r' < Z.of_nat r
      /\ forall i j, before r' c' i j -> i < Z.of_nat r -> matchAt target l i j = false
    else
      (forall i j, i < Z.of_nat r -> matchAt target l i j = false) /\ r' = -1.
Proof.
  induction r as [|r IH]; intros c0 found r' c' Hr H.
  - simpl in H. injection H as <- <- <-. split; [|reflexivity].
    intros i j Hi. apply matchAt_outside. lia.
  - destruct (lookup_lt_is_Some_2 l r) as [row Hrow]; [lia|].
    rewrite (take_S_r l r row Hrow), rev_app_distr in H. simpl in H.
    pose proof (findDown_order row (length row) ltac:(lia)) as Hrowscan.
    rewrite take_ge in Hrowscan by lia.
    destruct (findDown target (rev row) (Z.of_nat (length row) - 1)) as [c1|].
    + injection H as <- <- <-. destruct Hrowscan as (Hc1 & (cell & Hcell & Hcont) & Hlast).
      replace (Z.of_nat (S r) - 1) with (Z.of_nat r) by lia.
      split.
      { rewrite (matchAt_row l r row) by (assumption || lia). rewrite Hcell. exact Hcont. }
      split; [lia|].
      intros i j Hbefore Hi. unfold before in Hbefore.
      assert (i = Z.of_nat r) by lia. subst i.
      rewrite (matchAt_row l r row) by (assumption || lia).
      destruct (row !! Z.to_nat j) as [s|] eqn:Es; [|reflexivity].
      apply (Hlast (Z.to_nat j)); [|exact Es].
      apply lookup_lt_Some in Es. lia.
    + replace (Z.of_nat (S r) - 1 - 1) with (Z.of_nat r - 1) in H by lia.
      specialize (IH (-1) found r' c' ltac:(lia) H).
      assert (Hclear : forall j, matchAt target l (Z.of_nat r) j = false).
      { intros j. destruct (decide (j < 0)); [apply matchAt_outside; lia|].
        rewrite (matchAt_row l r row) by (assumption || lia).
        destruct (row !! Z.to_nat j) as [s|] eqn:Es; [|reflexivity].
        apply (Hrowscan (Z.to_nat j)); [|exact Es].
        apply lookup_lt_Some in Es. lia. }
      destruct found.
      * destruct IH as (Hm & Hr' & Hlast). split; [exact Hm|]. split; [lia|].
        intros i j Hbefore Hi.
        destruct (decide (i = Z.of_nat r)) as [->|Hne]; [apply Hclear|].
        apply Hlast; [exact Hbefore | lia].
      * destruct IH as (Hnone & Hr'). split; [|exact Hr'].
        intros i j Hi.
        destruct (decide (i = Z.of_nat r)) as [->|Hne]; [apply Hclear|].
        apply Hnone. lia.
Qed.

Lemma backwardFrom_order (l : list (list string)) (r c : Z)
    (found : bool) (r' c' : Z) :
  backwardFrom target l r c = Some (found, r', c') ->
  if found then
    matchAt target l r' c' = true /\ 0 <= r' < r
    /\ forall i j, before r' c' i j -> i < r -> matchAt target l i j = false
  else
    (forall i j, i < r -> matchAt target l i j = false) /\ r' = Z.min (r - 1) (-1).
Proof.
  unfold backwardFrom. case_bool_decide as H0.
  - intros H. injection H as <- <- <-. split; [|lia].
    intros i j Hi. apply matchAt_outside. lia.
  - case_bool_decide as H1; [discriminate|]. intros H. injection H as H.
    replace (r - 1) with (Z.of_nat (Z.to_nat r) - 1) in H by lia.
    apply backwardRows_order in H; [|lia].
    destruct found.
    + destruct H as (Hm & Hr' & Hlast). split; [exact Hm|]. split; [lia|].
      intros i j Hb Hi. apply Hlast; [exact Hb | lia].
    + destruct H as (Hnone & Hr'). split; [|lia].
      intros i j Hi. apply Hnone. lia.
Qed.

(** X3: when [searchForward] reports a match, the cell it returns contains
    the target, lies after the start in reading order, and no cell between
    the start and it contains the target: it is the first match. *)
Theorem searchForward_finds_the_first_match
    (csvlines : list (list string)) (r c r' c' : Z) :
  searchForward csvlines r c target = Some (true, r', c') ->
  matchAt target csvlines r' c' = true
  /\ before r c r' c'
  /\ forall i j, before r c i j -> before i j r' c' ->
       matchAt target csvlines i j = false.
Proof.
  unfold searchForward. case_bool_decide as Hr; [discriminate|]. intros H.
  destruct (decide (c + 1 < 0)) as [Hneg|Hc].
  { destruct (drop (Z.to_nat r) csvlines); simpl in H; [discriminate|].
    rewrite bool_decide_eq_true_2 in H by lia. discriminate. }
  replace r with (Z.of_nat (Z.to_nat r)) in H at 2 by lia.
  apply (forwardRows_order csvlines _ (Z.to_nat r) (c + 1) true r' c' eq_refl) in H;
    [|lia].
  destruct H as (Hm & Hpos & Hfirst). split; [exact Hm|].
  split; [unfold before; lia|].
  intros i j Hb Hb'. apply Hfirst; [unfold before in Hb; lia | exact Hb'].
Qed.

(** X4: from a start with [0 <= r] and [-1 <= c] the forward search never
    faults; when it reports no match, no cell after the start contains the
    target, and the row index it returns is that below the last row (or
    the start row, if that is further down): the search does not wrap. *)
Theorem searchForward_not_found_is_complete
    (csvlines : list (list string)) (r c : Z) :
  0 <= r -> -1 <= c ->
  exists found r' c',
    searchForward csvlines r c target = Some (found, r', c')
    /\ (found = false ->
        (forall i j, before r c i j -> matchAt target csvlines i j = false)
        /\ r' = Z.max r (Z.of_nat (length csvlines))).
Proof.
  intros Hr Hc.
  assert (Htot : exists res, searchForward csvlines r c target = Some res).
  { unfold searchForward. rewrite bool_decide_eq_false_2 by lia.
    apply forwardRows_total. lia. }
  destruct Htot as ([[found r'] c'] & H). exists found, r', c'.
  split; [exact H|]. intros ->.
  unfold searchForward in H. rewrite bool_decide_eq_false_2 in H by lia.
  replace r with (Z.of_nat (Z.to_nat r)) in H at 2 by lia.
  apply (forwardRows_order csvlines _ (Z.to_nat r) (c + 1) false r' c' eq_refl) in H;
    [|lia].
  destruct H as (Hnone & Hr'). split; [|lia].
  intros i j Hb. apply Hnone. unfold before in Hb. lia.
Qed.

(** X5: when [searchBackward] reports a match, the cell it returns contains
    the target, lies before the start in reading order, and no cell between
    it and the start contains the target: it is the last match before the
    start. *)
Theorem searchBackward_finds_the_last_match
    (csvlines : list (list string)) (r c r' c' : Z) :
  searchBackward csvlines r c target = Some (true, r', c') ->
  matchAt target csvlines r' c' = true
  /\ before r' c' r c
  /\ forall i j, before r' c' i j -> before i j r c ->
       matchAt target csvlines i j = false.
Proof.
  unfold searchBackward. case_bool_decide as Hc.
  - case_bool_decide as Hr; [discriminate|].
    destruct (csvlines !! Z.to_nat r) as [row|] eqn:Hrow; [|discriminate].
    case_bool_decide as Hlen; [discriminate|].
    pose proof (findDown_order row (S (Z.to_nat (c - 1))) ltac:(lia)) as Hscan.
    replace (Z.of_nat (S (Z.to_nat (c - 1))) - 1) with (c - 1) in Hscan by lia.
    replace r with (Z.of_nat (Z.to_nat r)) by lia.
    destruct (findDown target (rev (take (S (Z.to_nat (c - 1))) row)) (c - 1)) as [c1|].
    + intros H. injection H as <- <-.
      destruct Hscan as (Hc1 & (cell & Hcell & Hcont) & Hlast).
      split.
      { rewrite (matchAt_row csvlines (Z.to_nat r) row) by (assumption || lia).
        rewrite Hcell. exact Hcont. }
      split; [unfold before; lia|].
      intros i j Hb Hb'. unfold before in Hb, Hb'.
      assert (i = Z.of_nat (Z.to_nat r)) by lia. subst i.
      rewrite (matchAt_row csvlines (Z.to_nat r) row) by (assumption || lia).
      destruct (row !! Z.to_nat j) as [s|] eqn:Es; [|reflexivity].
      apply (Hlast (Z.to_nat j)); [lia | exact Es].
    + intros H. apply backwardFrom_order in H.
      destruct H as (Hm & Hr' & Hlast). split; [exact Hm|].
      split; [unfold before; lia|].
      intros i j Hb Hb'. unfold before in Hb'.
      destruct (decide (i = Z.of_nat (Z.to_nat r))) as [->|Hne].
      * destruct (decide (j < 0)); [apply matchAt_outside; lia|].
        rewrite (matchAt_row csvlines (Z.to_nat r) row) by (assumption || lia).
        destruct (row !! Z.to_nat j) as [s|] eqn:Es; [|reflexivity].
        apply (Hscan (Z.to_nat j)); [lia | exact Es].
      * apply Hlast; [exact Hb | lia].
  - intros H. apply backwardFrom_order in H.
    destruct H as (Hm & Hr' & Hlast). split; [exact Hm|].
    split; [unfold before; lia|].
    intros i j Hb Hb'. unfold before in Hb'.
    destruct (decide (i = r)) as [->|Hne].
    + apply matchAt_outside. lia.
    + apply Hlast; [exact Hb | lia].
Qed.

(** X6: when [searchBackward] reports no match, no cell before the start
    contains the target, and the row index it returns is negative: the
    search does not wrap to the end of the grid. *)
Theorem searchBackward_not_found_is_complete
    (csvlines : list (list string)) (r c r' c' : Z) :
  searchBackward csvlines r c target = Some (false, r', c') ->
  (forall i j, before i j r c -> matchAt target csvlines i j = false)
  /\ r' = Z.min (r - 1) (-1).
Proof.
  unfold searchBackward. case_bool_decide as Hc.
  - case_bool_decide as Hr; [discriminate|].
    destruct (csvlines !! Z.to_nat r) as [row|] eqn:Hrow; [|discriminate].
    case_bool_decide as Hlen; [discriminate|].
    pose proof (findDown_order row (S (Z.to_nat (c - 1))) ltac:(lia)) as Hscan.
    replace (Z.of_nat (S (Z.to_nat (c - 1))) - 1) with (c - 1) in Hscan by lia.
    destruct (findDown target (rev (take (S (Z.to_nat (c - 1))) row)) (c - 1)) as [c1|];
      [discriminate|].
    intros H. apply backwardFrom_order in H. destruct H as (Hnone & Hr').
    split; [|exact Hr'].
    intros i j Hb. unfold before in Hb.
    destruct (decide (i = r)) as [->|Hne].
    + destruct (decide (j < 0)); [apply matchAt_outside; lia|].
      replace r with (Z.of_nat (Z.to_nat r)) by lia.
      rewrite (matchAt_row csvlines (Z.to_nat r) row) by (assumption || lia).
      destruct (row !! Z.to_nat j) as [s|] eqn:Es; [|reflexivity].
      apply (Hscan (Z.to_nat j)); [lia | exact Es].
    + apply Hnone. lia.
  - intros H. apply backwardFrom_order in H. destruct H as (Hnone & Hr').
    split; [|exact Hr'].
    intros i j Hb. unfold before in Hb.
    destruct (decide (i = r)) as [->|Hne].
    + apply matchAt_outside. lia.
    + apply Hnone. lia.
Qed.

End SearchOrder.

(** ** The commands of the main loop *)

Section CommandProps.

Import uncsv csvi Editing.

Lemma jump_same (s : Search) (st : State) :
  wf st ->
  match jump s st with
  | Next st' | Done st' _ =>
      app st' = app st /\ fetch st' = fetch st /\ writeCalls st' = writeCalls st
  | Failed _ _ | Panic => False
  end.
Proof.
  intros Hwf. unfold jump.
  destruct (search_valid s st (lastWord st) Hwf) as (res & -> & _). simpl.
  destruct res as [[found r] c]. destruct found; repeat split.
Qed.

Lemma command_navigation
    (cfg : Config) (inp : Input) (c : Command) (st : State) :
  wf st ->
  c ∈ navigation ->
  match command cfg inp c st with
  | Next st' | Done st' _ =>
      app st' = app st /\ fetch st' = fetch st /\ writeCalls st' = writeCalls st
  | Failed _ _ | Panic => False
  end.
Proof.
  intros Hwf Hc. destruct (wf_cursor st Hwf) as (cur & Hcur & Hcell & Hcol).
  unfold navigation in Hc.
  repeat (apply elem_of_cons in Hc as [->|Hc]); [..|by apply elem_of_nil in Hc]; simpl.
  - repeat split.
  - destruct (ReadOnly cfg || YesNo inp); repeat split.
  - case_bool_decide; repeat split.
  - destruct (cursorRow st); repeat split.
  - case_bool_decide; repeat split.
  - repeat split.
  - repeat split.
  - unfold cursorRowValue. rewrite Hcur. simpl. repeat split.
  - repeat split.
  - repeat split.
  - destruct (nonEmpty _); [by apply jump_same | repeat split].
  - destruct (nonEmpty _); [by apply jump_same | repeat split].
  - destruct (line inp).2 as [err|].
    + destruct (negb (isCtrlC err)); repeat split.
    + match goal with |- context [jump ?s ?x] => exact (jump_same s x Hwf) end.
  - destruct (line inp).2 as [err|].
    + destruct (negb (isCtrlC err)); repeat split.
    + match goal with |- context [jump ?s ?x] => exact (jump_same s x Hwf) end.
  - unfold cmdYank, cursorRowValue. rewrite Hcur. simpl.
    destruct (cursorCell_ok st cur Hcol) as [cell ->]. simpl. repeat split.
  - repeat split.
Qed.

(** X7: from a state in which the cursor is on a cell, the keys that move
    the cursor, search, copy the cell, redraw or quit never change the
    document, never touch the source and never call the write routine;
    they end the turn without a fault and without an error. *)
Theorem navigation_keeps_the_document
    (cfg : Config) (inp : Input) (c : Command) (st : State) :
  wf st ->
  c ∈ navigation ->
  match command cfg inp c st with
  | Next st' | Done st' _ =>
      app st' = app st /\ fetch st' = fetch st /\ writeCalls st' = writeCalls st
  | Failed _ _ | Panic => False
  end.
Proof. apply command_navigation. Qed.

(** X8: when the validation callback rejects the text that was entered,
    insert cell, append cell and replace cell leave the document and the
    cursor as they were (append cell takes its speculative empty cell out
    again), and the message is the text of the callback's error unless a
    write protection has answered first. *)
Theorem rejected_text_leaves_the_document
    (cfg : Config) (inp : Input) (c : Command) (st : State) (e : error) :
  wf st ->
  c ∈ [InsertCell; AppendCell; ReplaceCell] ->
  (line inp).2 = None ->
  rejects cfg (line inp).1 e ->
  exists st',
    command cfg inp c st = Next st'
    /\ sameDocument st st'
    /\ (checkWriteProtectAndColumn cfg (cursorRow st) = EmptyString ->
        message st' = errorText e).
Proof.
  intros Hwf Hc Hline Hrej. destruct (wf_cursor st Hwf) as (cur & Hcur & Hcell & Hcol).
  assert (Hval : forall row col, exists tx,
             validate cfg row col (line inp).1 = (tx, Some e)).
  { intros row col. specialize (Hrej row col).
    destruct (validate cfg row col (line inp).1) as [tx err]. simpl in Hrej.
    subst err. by exists tx. }
  assert (Hguard : checkWriteProtectAndColumn cfg (cursorRow st) = EmptyString ->
                   checkWriteProtect cfg (cursorRow st) = EmptyString).
  { unfold checkWriteProtectAndColumn.
    destruct (checkWriteProtect cfg (cursorRow st)); [reflexivity | simpl; congruence]. }
  repeat (apply elem_of_cons in Hc as [->|Hc]); [..|by apply elem_of_nil in Hc]; simpl.
  - unfold cmdInsertCell.
    destruct (checkWriteProtectAndColumn cfg (cursorRow st)) eqn:Eg; simpl.
    + rewrite Hline. destruct (Hval (cursorRow st) (cursorCol st)) as [tx ->].
      eexists. split; [reflexivity|]. split; [repeat split | reflexivity].
    + eexists. split; [reflexivity|]. split; [repeat split | discriminate].
  - unfold cmdAppendCell.
    destruct (checkWriteProtectAndColumn cfg (cursorRow st)) eqn:Eg; simpl.
    + unfold cursorRowValue. rewrite Hcur. simpl.
      destruct (onlyEmptyCell (Cells cur)).
      * rewrite Hline. destruct (Hval (cursorRow st) (cursorCol st)) as [tx ->].
        eexists. split; [reflexivity|]. split; [repeat split | reflexivity].
      * destruct (Insert_ok (cursorCol st + 1) EmptyString (modeOf cfg) cur)
          as (r1 & Hins & _ & _); [lia|].
        rewrite Hins. simpl. rewrite Hline.
        destruct (Hval (cursorRow st) (cursorCol st + 1)) as [tx ->].
        rewrite (Delete_Insert _ _ _ _ _ Hins). simpl.
        eexists. split; [reflexivity|]. split; [|reflexivity].
        unfold sameDocument. simpl. split; [|split; [reflexivity | lia]].
        unfold rows. simpl. rewrite list_insert_insert_eq.
        rewrite list_insert_id by exact Hcur. apply app_eta.
    + eexists. split; [reflexivity|]. split; [repeat split | discriminate].
  - unfold cmdReplaceCell.
    destruct (checkWriteProtect cfg (cursorRow st)) eqn:Eg; simpl.
    + unfold cursorRowValue. rewrite Hcur. simpl.
      destruct (cursorCell_ok _ cur Hcol) as [cell ->]. simpl. rewrite Hline.
      destruct (Hval (cursorRow st) (cursorCol st)) as [tx ->].
      eexists. split; [reflexivity|]. split; [repeat split | reflexivity].
    + eexists. split; [reflexivity|]. split; [repeat split|].
      intros Hg. apply Hguard in Hg. discriminate.
Qed.

(** *** The ingestion *)

Lemma source_eta (src : Source) :
  mkSource (pending src) (last src) (failure src) = src.
Proof. destruct src. reflexivity. Qed.

(** X9: while the key is awaited, the idle steps append the rows of the
    source to the document in the order the source delivers them.  After
    [n] steps the document has grown by the first [n] rows to come; the
    row delivered with [io.EOF] is appended unless it is all empty; the
    fetch function is nil as soon as the source has ended, also when it
    ended with another error, which is not reported; the cursor does not
    move. *)
Theorem idle_ingestion_appends_in_order
    (n : nat) (st : State) (src : Source) :
  fetch st = Some src ->
  rows (await n st)
  = rows st ++ take n (pending src)
    ++ (if bool_decide (length (pending src) < n)%nat
           && isEOF (failure src) && negb (isEmptyRow (last src))
        then [last src] else [])
  /\ fetch (await n st)
     = (if bool_decide (n <= length (pending src))%nat
        then Some (mkSource (drop n (pending src)) (last src) (failure src))
        else None)
  /\ cursorRow (await n st) = cursorRow st
  /\ cursorCol (await n st) = cursorCol st.
Proof.
  revert st src. induction n as [|n IH]; intros st src Hf.
  - simpl. rewrite app_nil_r. rewrite drop_0, source_eta. repeat split. exact Hf.
  - simpl. unfold idleStep. rewrite Hf. unfold fetchRow.
    destruct (pending src) as [|row rest] eqn:Ep.
    + simpl. destruct (isEOF (failure src)); simpl.
      * destruct (isEmptyRow (last src)); simpl.
        -- rewrite app_nil_r. repeat split.
        -- repeat split.
      * rewrite app_nil_r. repeat split.
    + match goal with |- context [await n ?s] =>
        destruct (IH s (mkSource rest (last src) (failure src)) eq_refl)
          as (Hr & Hfe & Hcr & Hcc) end.
      simpl in Hr, Hfe. rewrite Hr, Hfe, Hcr, Hcc. simpl.
      split; [|split; [|split; reflexivity]].
      * unfold Push. rewrite rows_setRows. rewrite <- app_assoc. simpl.
        rewrite (bool_decide_ext (S (length rest) < S n)%nat (length rest < n)%nat)
          by lia.
        reflexivity.
      * destruct (bool_decide_reflect (n <= length rest)%nat);
          [rewrite bool_decide_eq_true_2 by lia | rewrite bool_decide_eq_false_2 by lia];
          reflexivity.
Qed.

Lemma prefetch_closed (n : nat) :
  forall (src : Source) (l : list Row),
    prefetch n src l
    = if bool_decide (n <= length (pending src))%nat then
        (l ++ take n (pending src),
         Some (mkSource (drop n (pending src)) (last src) (failure src)), None)
      else if isEOF (failure src) then
        (l ++ pending src ++ (if isEmptyRow (last src) then [] else [last src]),
         None, None)
      else (l ++ pending src, Some (mkSource [] emptyRow (failure src)),
            Some (failure src)).
Proof.
  induction n as [|n IH]; intros src l.
  - simpl. rewrite app_nil_r, drop_0, source_eta. reflexivity.
  - simpl. unfold fetchRow. destruct (pending src) as [|row rest] eqn:Ep.
    + simpl. destruct (isEOF (failure src)); simpl.
      * destruct (isEmptyRow (last src)); [by rewrite app_nil_r | reflexivity].
      * by rewrite app_nil_r.
    + rewrite IH. simpl.
      destruct (bool_decide_reflect (n <= length rest)%nat);
        [rewrite bool_decide_eq_true_2 by lia | rewrite bool_decide_eq_false_2 by lia].
      * rewrite <- app_assoc. reflexivity.
      * destruct (isEOF (failure src)); rewrite <- app_assoc; reflexivity.
Qed.

(** X10: before its first frame [edit] reads at most 100 rows.  When the
    source has at least 100 rows to deliver, the document is the first 100
    of them and the rest stays in the source; when it ends sooner with
    [io.EOF], the document is all its rows, without the last one if that is
    all empty, and the fetch function is nil; when it ends sooner with
    another error, [edit] returns that error.  The cursor starts on the
    first cell of the first row. *)
Theorem edit_prefetches_at_most_100_rows (cfg : Config) (src : Source) :
  match start cfg (Some src) with
  | Next st0 =>
      cursorRow st0 = O /\ cursorCol st0 = 0
      /\ if bool_decide (100 <= length (pending src))%nat then
           rows st0 = take 100 (pending src)
           /\ fetch st0
              = Some (mkSource (drop 100 (pending src)) (last src) (failure src))
         else
           failure src = EOF
           /\ rows st0
              = pending src ++ (if isEmptyRow (last src) then [] else [last src])
           /\ fetch st0 = None
  | Failed _ e =>
      (length (pending src) < 100)%nat /\ e = failure src /\ isEOF e = false
  | Done _ _ => False
  | Panic =>
      pending src = [] /\ failure src = EOF /\ isEmptyRow (last src) = true
  end.
Proof.
  unfold start. rewrite prefetch_closed.
  destruct (bool_decide_reflect (100 <= length (pending src))%nat) as [Hn|Hn].
  - destruct (take 100 (pending src)) as [|row l] eqn:Et.
    + apply (f_equal length) in Et. rewrite length_take in Et.
      change (length (@nil Row)) with O in Et. lia.
    + simpl. repeat split.
  - destruct (failure src) eqn:Ef; simpl; [|repeat split; lia..].
    destruct (pending src) as [|row l] eqn:Ep; simpl.
    + destruct (isEmptyRow (last src)); simpl; repeat split.
    + repeat split.
Qed.

(** *** Fixed columns *)












(** *** The cursor keys and the row delete *)

(** X12: the keys that move the cursor by one cell ("h", "l", "k", "j" and
    their synonyms) leave the document alone, step the cursor by one and
    stop at the border: left stops at column 0, right at the last cell of
    the row, up at the first row and down at the last row; after a move to
    another row the column is cut back to the last cell of that row. *)
Theorem cursor_keys_step_and_stop_at_the_border
    (cfg : Config) (inp : Input) (st : State) :
  wf st ->
  KeyMap cfg !! key inp = None ->
  binding (key inp) ∈ [Left; Right; Up; Down] ->
  exists st',
    handleKey cfg inp st = Next st'
    /\ app st' = app st
    /\ cursorRow st'
       = match binding (key inp) with
         | Up => pred (cursorRow st)
         | Down => Nat.min (S (cursorRow st)) (length (rows st) - 1)
         | _ => cursorRow st
         end
    /\ cursorCol st'
       = Z.min (match binding (key inp) with
                | Left => Z.max 0 (cursorCol st - 1)
                | Right => cursorCol st + 1
                | _ => cursorCol st
                end)
               (widthAt st (cursorRow st') - 1).
Proof.
  intros Hwf Hkey Hc. destruct (wf_cursor st Hwf) as (cur & Hcur & Hcell & Hcol).
  pose proof Hwf as [(Hall & Hrow & _ & _) _].
  unfold handleKey, dispatch. rewrite Hkey.
  assert (Hclamp : forall (r : nat) (c : Z), (r < length (rows st))%nat -> 0 <= c ->
            exists st',
              clamp (setCursorCol c (setCursorRow r (setMessage EmptyString st))) = Next st'
              /\ app st' = app st /\ cursorRow st' = r
              /\ cursorCol st' = Z.min c (widthAt st r - 1)).
  { intros r c Hr Hc0. destruct (lookup_lt_is_Some_2 (rows st) r Hr) as [row Hlook].
    pose proof (Forall_lookup_1 _ _ _ _ Hall Hlook) as Hw. unfold hasCell in Hw.
    unfold clamp, cursorRowValue, widthAt.
    change (rows (setCursorCol c (setCursorRow r (setMessage EmptyString st))))
      with (rows st).
    change (cursorRow (setCursorCol c (setCursorRow r (setMessage EmptyString st))))
      with r.
    rewrite Hlook. simpl. rewrite bool_decide_eq_false_2 by lia.
    case_bool_decide as Hover; (eexists; split; [reflexivity|]); simpl;
      (split; [reflexivity|]); (split; [reflexivity|]); lia. }
  repeat (apply elem_of_cons in Hc as [->|Hc]); [..|by apply elem_of_nil in Hc]; simpl.
  - case_bool_decide as Hpos.
    + destruct (Hclamp (cursorRow st) (cursorCol st - 1) Hrow ltac:(lia))
        as (st' & Hcl & Ha & Hr & Hcc).
      exists st'. split; [exact Hcl|]. split; [exact Ha|]. split; [exact Hr|].
      rewrite Hcc, Hr. lia.
    + destruct (Hclamp (cursorRow st) (cursorCol st) Hrow ltac:(lia))
        as (st' & Hcl & Ha & Hr & Hcc).
      exists st'. split; [exact Hcl|]. split; [exact Ha|]. split; [exact Hr|].
      rewrite Hcc, Hr. lia.
  - destruct (Hclamp (cursorRow st) (cursorCol st + 1) Hrow ltac:(lia))
      as (st' & Hcl & Ha & Hr & Hcc).
    exists st'. split; [exact Hcl|]. split; [exact Ha|]. split; [exact Hr|].
    rewrite Hcc, Hr. reflexivity.
  - destruct (cursorRow st) as [|prev] eqn:Er.
    + destruct (Hclamp O (cursorCol st) ltac:(lia) ltac:(lia))
        as (st' & Hcl & Ha & Hr & Hcc).
      exists st'. split; [|split; [exact Ha | split; [exact Hr|]]].
      * rewrite <- Hcl. f_equal. destruct st. simpl in *. by subst.
      * rewrite Hcc, Hr. reflexivity.
    + destruct (Hclamp prev (cursorCol st) ltac:(lia) ltac:(lia))
        as (st' & Hcl & Ha & Hr & Hcc).
      exists st'. split; [exact Hcl|]. split; [exact Ha|]. split; [exact Hr|].
      rewrite Hcc, Hr. reflexivity.
  - change (rows (setMessage EmptyString st)) with (rows st).
    change (cursorRow (setMessage EmptyString st)) with (cursorRow st).
    case_bool_decide as Hnext.
    + destruct (Hclamp (S (cursorRow st)) (cursorCol st) Hnext ltac:(lia))
        as (st' & Hcl & Ha & Hr & Hcc).
      exists st'. split; [exact Hcl|]. split; [exact Ha|].
      split; [rewrite Hr; unfold rows in *;
               destruct (length (csvLines (app st)) - 1)%nat eqn:E; lia|]. rewrite Hcc, Hr. reflexivity.
    + destruct (Hclamp (cursorRow st) (cursorCol st) Hrow ltac:(lia))
        as (st' & Hcl & Ha & Hr & Hcc).
      exists st'. split; [|split; [exact Ha | split; [rewrite Hr; unfold rows in *;
               destruct (length (csvLines (app st)) - 1)%nat eqn:E; lia|]]].
      * rewrite <- Hcl. f_equal.
      * rewrite Hcc, Hr. reflexivity.
Qed.

(** X13: the row delete on a document of two rows or more takes exactly
    the cursor row out of the document, the cells of the other rows stay as
    they are and in order, the removed row is appended to the log of
    removed rows, and the cursor stays at its index, or moves to the new
    last row when the last row was removed. *)
Theorem row_delete_removes_the_cursor_row
    (cfg : Config) (inp : Input) (st : State) :
  wf st ->
  checkWriteProtect cfg (cursorRow st) = EmptyString ->
  (2 <= length (rows st))%nat ->
  exists st' cur,
    command cfg inp DeleteRow st = Next st'
    /\ rows st !! cursorRow st = Some cur
    /\ cellsOf (rows st')
       = cellsOf (take (cursorRow st) (rows st) ++ drop (S (cursorRow st)) (rows st))
    /\ removedRows (app st') = removedRows (app st) ++ [cur]
    /\ cursorRow st' = Nat.min (cursorRow st) (length (rows st) - 2)
    /\ cursorCol st' = cursorCol st.
Proof.
  intros Hwf Hprot Htwo. destruct (wf_cursor st Hwf) as (cur & Hcur & Hcell & Hcol).
  destruct Hwf as [(Hall & Hrow & Hc & Hsrc) _]. simpl. unfold cmdDeleteRow.
  rewrite Hprot. simpl. rewrite bool_decide_eq_false_2 by lia.
  unfold cursorRowValue. rewrite Hcur. simpl.
  assert (Hlrem : S (length (Remove (cursorRow st) (rows st))) = length (rows st)).
  { unfold Remove. rewrite length_app, length_take, length_drop. lia. }
  destruct (cursorRow st) as [|prevP] eqn:Ei.
  - eexists _, cur. split; [reflexivity|]. split; [reflexivity|].
    repeat split.
  - destruct (bool_decide_reflect (S prevP < length (Remove (S prevP) (rows st)))%nat)
      as [Hnext|Hnext].
    + eexists _, cur. split; [reflexivity|]. split; [reflexivity|].
      split; [reflexivity|]. split; [reflexivity|]. simpl. split; [|reflexivity].
      unfold rows in *. destruct (length (csvLines (app st)) - 2)%nat eqn:E; lia.
    + destruct (lookup_lt_is_Some_2 (Remove (S prevP) (rows st)) prevP)
        as [prevRow Hp]; [lia|].
      rewrite Hp. simpl.
      eexists _, cur. split; [reflexivity|]. split; [reflexivity|].
      split; [|split; [reflexivity|]]; simpl.
      * unfold rows. simpl. unfold cellsOf. rewrite list_fmap_insert. simpl.
        apply list_insert_id. rewrite list_lookup_fmap.
        unfold Remove in Hp. unfold rows. unfold rows in Hp. rewrite Hp. reflexivity.
      * split; [|reflexivity].
        unfold rows in *. destruct (length (csvLines (app st)) - 2)%nat eqn:E; lia.
Qed.

End CommandProps.

(** ** Text cut to a width *)

Section TextProps.

Import Text.

Variable runes : string -> list string.
Variable RuneWidth : string -> Z.

Lemma cutRunes_spec (rs : list string) :
  forall (w cellwidth : Z), w <= cellwidth ->
    exists rest,
      rs = (cutRunes RuneWidth rs w cellwidth).1 ++ rest
      /\ match rest with
         | [] => True
         | c :: _ => cellwidth < (cutRunes RuneWidth rs w cellwidth).2 + RuneWidth c
         end
      /\ (cutRunes RuneWidth rs w cellwidth).2
         = w + widthOf RuneWidth (cutRunes RuneWidth rs w cellwidth).1
      /\ (cutRunes RuneWidth rs w cellwidth).2 <= cellwidth.
Proof.
  induction rs as [|c rs IH]; intros w cellwidth Hw; simpl.
  - exists []. repeat split; lia.
  - case_bool_decide as Hcut; simpl.
    + exists (c :: rs). repeat split; lia.
    + destruct (IH (w + RuneWidth c) cellwidth ltac:(lia)) as (rest & Hrs & Hnext & Hsum & Hle).
      destruct (cutRunes RuneWidth rs (w + RuneWidth c) cellwidth) as [kept w'].
      simpl in *. exists rest. split; [by f_equal|]. split; [exact Hnext|].
      split; lia.
Qed.

(** X14: [cutStrInWidth] keeps a prefix of the runes of the text; the width
    it returns is the width of that prefix and is not more than the cell
    width (which is not negative); the prefix is the longest that fits:
    the rune after it, if there is one, would exceed the cell width. *)
Theorem cutStrInWidth_keeps_the_longest_prefix_that_fits
    (s : string) (cellwidth : Z) :
  0 <= cellwidth ->
  exists rest,
    runes s = (cutStrInWidth runes RuneWidth s cellwidth).1 ++ rest
    /\ (cutStrInWidth runes RuneWidth s cellwidth).2
       = widthOf RuneWidth (cutStrInWidth runes RuneWidth s cellwidth).1
    /\ (cutStrInWidth runes RuneWidth s cellwidth).2 <= cellwidth
    /\ match rest with
       | [] => True
       | c :: _ =>
           cellwidth < (cutStrInWidth runes RuneWidth s cellwidth).2 + RuneWidth c
       end.
Proof.
  intros Hw. unfold cutStrInWidth.
  destruct (cutRunes_spec (runes s) 0 cellwidth Hw) as (rest & Hrs & Hnext & Hsum & Hle).
  exists rest. split; [exact Hrs|]. split; [lia|]. split; [exact Hle | exact Hnext].
Qed.

(** The text that is kept is never wider than the cell, whatever the sign
    of the cell width is, as long as no rune has a negative width. *)
Lemma cutRunes_width (rs : list string) :
  (forall c, 0 <= RuneWidth c) ->
  forall (w cellwidth : Z),
    widthOf RuneWidth (cutRunes RuneWidth rs w cellwidth).1 <= Z.max 0 (cellwidth - w).
Proof.
  intros Hpos. induction rs as [|c rs IH]; intros w cellwidth; simpl; [lia|].
  case_bool_decide as Hcut; simpl; [lia|].
  specialize (IH (w + RuneWidth c) cellwidth).
  destruct (cutRunes RuneWidth rs (w + RuneWidth c) cellwidth) as [kept w'].
  simpl in *. specialize (Hpos c). lia.
Qed.

End TextProps.

(** ** The line renderer *)

Section LineProps.

Import uncsv Render Text Screen.

Variable runes : string -> list string.
Variable RuneWidth : string -> Z.

Lemma mergeEmpty_spec (cursorPos cellWidth : Z) (csvs : list Cell) :
  forall (nextI cw : Z),
    nextI <= (mergeEmpty csvs nextI cursorPos cw cellWidth).1.2
    /\ (mergeEmpty csvs nextI cursorPos cw cellWidth).2
       = cw + ((mergeEmpty csvs nextI cursorPos cw cellWidth).1.2 - nextI) * cellWidth
    /\ (length (mergeEmpty csvs nextI cursorPos cw cellWidth).1.1 <= length csvs)%nat.
Proof.
  induction csvs as [|c csvs IH]; intros nextI cw; simpl.
  - repeat split; lia.
  - destruct (bool_decide (Text c = EmptyString) && negb (bool_decide (nextI = cursorPos))).
    + destruct (IH (nextI + 1) (cw + cellWidth)) as (Hn & Hcw & Hlen).
      repeat split; lia.
    + simpl. repeat split; lia.
Qed.

Lemma spans_esc (b : bool) (x : string) (rest : list Piece) (col : Z) :
  spans RuneWidth ((if b then [Esc x] else []) ++ rest) col = spans RuneWidth rest col.
Proof. destruct b; reflexivity. Qed.

Lemma spans_esc2 (b : bool) (x y : string) (rest : list Piece) (col : Z) :
  spans RuneWidth ((if b then [Esc x; Esc y] else []) ++ rest) col
  = spans RuneWidth rest col.
Proof. destruct b; reflexivity. Qed.

(** Where a piece of text begins and how far it reaches: on the grid of
    the cell width, and not beyond the column [W]. *)
Definition onGrid (cellWidth W : Z) (ab : Z * Z) : Prop :=
  (exists k, 0 <= k /\ ab.1 = k * cellWidth + 1) /\ ab.2 <= W + 1.

Lemma cellLoop_fits (cellWidth cursorPos W : Z) (reverse : bool) (style : ColorStyle) :
  0 < cellWidth ->
  forall (fuel : nat) (csvs : list Cell) (i rem : Z),
    0 <= i -> 0 <= rem -> i * cellWidth + rem <= W ->
    Forall (onGrid cellWidth W)
           (spans RuneWidth
              (cellLoop runes RuneWidth fuel csvs i rem cellWidth cursorPos reverse style)
              (i * cellWidth + 1)).
Proof.
  intros Hcw. induction fuel as [|fuel IH]; intros csvs i rem Hi Hrem Hinv; [constructor|].
  destruct csvs as [|cursor rest]; [constructor|]. simpl.
  pose proof (mergeEmpty_spec cursorPos cellWidth rest (i + 1) cellWidth) as (Hn & Hw & _).
  destruct (mergeEmpty rest (i + 1) cursorPos cellWidth cellWidth) as [[csvs' nextI] cw].
  simpl in Hn, Hw.
  set (cw' := if bool_decide (rem < cw) || bool_decide (length csvs' <= 0)%nat
              then rem else cw).
  assert (Hcw' : 0 <= cw' <= rem /\ (cw' = cw \/ cw' = rem)).
  { unfold cw'. destruct (bool_decide_reflect (rem < cw)); simpl; [nia|].
    destruct (bool_decide (length csvs' <= 0)%nat); nia. }
  destruct (cutRunes_spec RuneWidth (runes (replaceTable (Text cursor))) 0 cw' ltac:(lia))
    as (_ & _ & _ & Hsum & Hle).
  fold (cutStrInWidth runes RuneWidth (replaceTable (Text cursor)) cw') in Hsum, Hle.
  rewrite spans_esc, spans_esc. simpl. constructor.
  { split; [exists i; split; [lia | reflexivity]|]. simpl. nia. }
  rewrite spans_esc, spans_esc2.
  case_bool_decide as Hbreak; [constructor|].
  simpl. rewrite spans_esc.
  apply IH; nia.
Qed.

(** X15: when the cell width is positive and the screen width is not
    negative, every piece of cell text that [drawLine] writes begins on a
    column of the grid (column 1 plus a multiple of the cell width) and
    ends no further than the screen width: the line never runs over the
    right edge. *)
Theorem drawLine_keeps_the_text_on_the_screen
    (csvs : list Cell) (cellWidth screenWidth cursorPos : Z)
    (reverse : bool) (style : ColorStyle) :
  0 < cellWidth ->
  0 <= screenWidth ->
  Forall (fun ab : Z * Z =>
            (exists k, 0 <= k /\ ab.1 = k * cellWidth + 1)
            /\ ab.2 <= screenWidth + 1)
         (spans RuneWidth
            (drawLinePieces runes RuneWidth csvs cellWidth screenWidth cursorPos
                            reverse style) 1).
Proof.
  intros Hcw Hsw. unfold drawLinePieces.
  destruct (bool_decide (length csvs <= 0)%nat && bool_decide (0 <= cursorPos));
    [constructor|].
  simpl.
  assert (Happ : forall ps col,
             spans RuneWidth (ps ++ [Esc (if reverse then Odd style else Even style).2]) col
             = spans RuneWidth ps col).
  { induction ps as [|p ps IHps]; intros col; [reflexivity|].
    destruct p; simpl; rewrite ?IHps; reflexivity. }
  rewrite Happ.
  exact (cellLoop_fits cellWidth cursorPos screenWidth reverse style Hcw
           (length csvs) csvs 0 screenWidth ltac:(lia) Hsw ltac:(lia)).
Qed.



Section Clean.

Hypothesis runes_concat : forall s, concatS (runes s) = s.




End Clean.

(** *** The page with the line renderer of the program *)

Lemma sapp_not_empty (a b : string) (c : ascii) : a +:+ String c b <> EmptyString.
Proof. destruct a; discriminate. Qed.

Lemma drawLine_not_empty (csvs : list Cell) (cellWidth screenWidth cursorPos : Z)
    (reverse : bool) (style : ColorStyle) :
  drawLine runes RuneWidth csvs cellWidth screenWidth cursorPos reverse style
  <> EmptyString.
Proof.
  unfold drawLine, drawLinePieces, bytes.
  destruct (bool_decide (length csvs <= 0)%nat && bool_decide (0 <= cursorPos)); simpl;
    apply sapp_not_empty.
Qed.

Lemma pageLoop_fresh (f : Frame) (records : list (list Cell)) :
  forall (count lfCount : Z) (reverse : bool) (cache : gmap Z string),
    (forall k, count <= k -> cache !! k = None) ->
    (pageLoop (drawLine runes RuneWidth) f records count lfCount reverse cache).1.1
    = fullLoop (drawLine runes RuneWidth) f records count reverse.
Proof.
  induction records as [|record records IH]; intros count lfCount reverse cache Hfresh;
    simpl; [reflexivity|].
  case_bool_decide as Hh; [reflexivity|].
  unfold writeIfChanged, cached. rewrite (Hfresh count) by lia. simpl.
  rewrite bool_decide_eq_true_2
    by (intros E; symmetry in E; by apply drawLine_not_empty in E).
  match goal with |- context [pageLoop _ f records ?c ?l ?r ?ca] =>
    specialize (IH c l r ca) end.
  destruct (pageLoop _ f records _ _ _ _) as [[out cache2] lf2]. simpl in *.
  rewrite IH; [reflexivity|].
  intros k Hk. rewrite lookup_insert_ne by lia. apply Hfresh. lia.
Qed.

(** X17: with an empty cache (a new view, or after [clearCache]: window
    resized, Ctrl-L, a dialog) [drawPage] writes every line of the page:
    what it writes is what a full redraw writes, since a line painted by
    [drawLine] is never the empty string an absent cache entry reads as. *)
Theorem drawPage_with_an_empty_cache_paints_every_line (f : Frame) :
  (drawPage (drawLine runes RuneWidth) f ∅).1.1
  = fullRedraw (drawLine runes RuneWidth) f.
Proof.
  unfold drawPage, fullRedraw.
  pose proof (pageLoop_fresh f (page f) 0 0 false ∅ (fun k _ => lookup_empty k)) as H.
  destruct (pageLoop _ f (page f) 0 0 false ∅) as [[out cache'] lf]. simpl in *.
  by rewrite H.
Qed.

End LineProps.

(** ** The page, the view and the viewport *)

Section PageLines.

Import uncsv Render Screen.

Variable drawLine : list Cell -> Z -> Z -> Z -> bool -> ColorStyle -> string.

Lemma lineBreaks_app (a b : list Out) :
  lineBreaks (a ++ b) = lineBreaks a + lineBreaks b.
Proof.
  induction a as [|e a IH]; [reflexivity|]. destruct e; simpl; rewrite IH; lia.
Qed.

Lemma lineBreaks_writeIfChanged (cache : gmap Z string) (count : Z) (line : string) :
  lineBreaks (writeIfChanged cache count line).1 = 0.
Proof. unfold writeIfChanged. case_bool_decide; reflexivity. Qed.

Lemma pageLoop_lines (f : Frame) (records : list (list Cell)) :
  forall (count lfCount : Z) (reverse : bool) (cache : gmap Z string),
    1 <= count ->
    (pageLoop drawLine f records count lfCount reverse cache).2
    = lfCount + lineBreaks (pageLoop drawLine f records count lfCount reverse cache).1.1
    /\ lineBreaks (pageLoop drawLine f records count lfCount reverse cache).1.1
       = Z.max 0 (Z.min (h f - count) (Z.of_nat (length records))).
Proof.
  induction records as [|record records IH]; intros count lfCount reverse cache Hc; simpl.
  - split; lia.
  - case_bool_decide as Hh; simpl; [split; lia|].
    rewrite !(bool_decide_eq_true_2 (0 < count)) by lia.
    pose proof (lineBreaks_writeIfChanged cache count
                  (drawLine record (cellWidth f) (w f)
                     (if bool_decide (count = csrlin f) then csrpos f else -1)
                     reverse (style f))) as Hwr.
    destruct (writeIfChanged cache count _) as [wr cache1]. simpl in Hwr.
    specialize (IH (count + 1) (lfCount + 1) (negb reverse) cache1 ltac:(lia)).
    destruct (pageLoop drawLine f records (count + 1) (lfCount + 1) (negb reverse) cache1)
      as [[out cache2] lf2].
    simpl in *. rewrite lineBreaks_app, Hwr. destruct IH as [IH1 IH2]. split; lia.
Qed.

Lemma drawPage_lines (f : Frame) (cache : gmap Z string) :
  (drawPage drawLine f cache).2 = lineBreaks (drawPage drawLine f cache).1.1
  /\ (drawPage drawLine f cache).2
     = Z.max 1 (Z.min (h f) (Z.of_nat (length (page f)))).
Proof.
  unfold drawPage. destruct (page f) as [|record records]; simpl; [split; lia|].
  case_bool_decide as Hh; simpl; [split; lia|].
  rewrite ?(bool_decide_eq_false_2 (0 < 0)) by lia.
  pose proof (lineBreaks_writeIfChanged cache 0
                (drawLine record (cellWidth f) (w f)
                   (if bool_decide (0 = csrlin f) then csrpos f else -1)
                   false (style f))) as Hwr.
  destruct (writeIfChanged cache 0 _) as [wr cache1]. simpl in Hwr.
  pose proof (pageLoop_lines f records 1 0 true cache1 ltac:(lia)) as [H1 H2].
  change (0 + 1) with 1.
  destruct (pageLoop drawLine f records 1 0 true cache1) as [[out cache2] lf2].
  simpl in *. rewrite !lineBreaks_app, Hwr. simpl. split; lia.
Qed.

(** X18: the number [drawPage] returns is the number of line breaks it has
    written, hence the number of rows the terminal cursor has moved down;
    it is the number of rows of the page, cut to the height [h], and 1 when
    no row is drawn. *)
Theorem drawPage_returns_the_line_breaks_it_wrote
    (f : Frame) (cache : gmap Z string) :
  (drawPage drawLine f cache).2 = lineBreaks (drawPage drawLine f cache).1.1
  /\ (drawPage drawLine f cache).2
     = Z.max 1 (Z.min (h f) (Z.of_nat (length (page f)))).
Proof. apply drawPage_lines. Qed.

End PageLines.

Section ViewProps.

Import uncsv Render Text Screen.

Variable runes : string -> list string.
Variable RuneWidth : string -> Z.

Lemma headFrame_h (rows : list Row) (header cursorRow : option nat)
    (cellWidth headerLines startCol cursorCol screenWidth : Z) (f : Frame) :
  headFrame rows header cursorRow cellWidth headerLines startCol cursorCol screenWidth
  = Some f ->
  h f = headerLines.
Proof.
  unfold headFrame.
  destruct (yield rows header (Z.to_nat headerLines) startCol) as [page|];
    (destruct cursorRow as [cur|]; [|discriminate]); [|discriminate].
  simpl. intros E. injection E as <-. reflexivity.
Qed.

Lemma bodyFrame_h (rows : list Row) (p : nat) (cursorRow : option nat)
    (cellWidth headerLines startCol cursorCol screenHeight screenWidth : Z) (f : Frame) :
  bodyFrame rows p cursorRow cellWidth headerLines startCol cursorCol screenHeight
            screenWidth = Some f ->
  h f = screenHeight - 1.
Proof.
  unfold bodyFrame.
  destruct (yield rows (Some p) (length rows) startCol) as [page|];
    (destruct cursorRow as [cur|]; [|discriminate]); [|discriminate].
  simpl. intros E. injection E as <-. reflexivity.
Qed.

(** X19: when [Draw] returns, the number it returns is the number of line
    breaks it has written, header and body together, so that [up] with
    this number brings the terminal cursor back to the first line of the
    frame; it is 1 at least, and not more than the header lines plus the
    height of the body (1 when the body has no height). *)
Theorem Draw_returns_the_line_breaks_it_wrote
    (rows : list Row) (v v' : View) (header startRow cursorRow : option nat)
    (cellWidth headerLines startCol cursorCol screenHeight screenWidth : Z)
    (out : list Out) (lfCount : Z) :
  Draw runes RuneWidth rows v header startRow cursorRow cellWidth headerLines
       startCol cursorCol screenHeight screenWidth = Some (out, v', lfCount) ->
  lfCount = lineBreaks out
  /\ 1 <= lfCount <= Z.max 0 headerLines + Z.max 1 (screenHeight - 1).
Proof.
  unfold Draw. intros H.
  assert (Hhead : exists outH cacheH lfH,
             (if bool_decide (0 < headerLines) then
                f ← headFrame rows header cursorRow cellWidth headerLines startCol
                              cursorCol screenWidth;
                Some (drawPage (drawLine runes RuneWidth) f (headCache v))
              else Some ([], headCache v, 0)) = Some (outH, cacheH, lfH)
             /\ lfH = lineBreaks outH
             /\ (if bool_decide (0 < headerLines) then 1 <= lfH <= headerLines
                 else lfH = 0)).
  { case_bool_decide as Hh.
    - destruct (headFrame rows header cursorRow cellWidth headerLines startCol
                          cursorCol screenWidth) as [f|] eqn:Ef; [|discriminate].
      simpl. pose proof (headFrame_h _ _ _ _ _ _ _ _ _ Ef) as Hf.
      pose proof (drawPage_lines (drawLine runes RuneWidth) f (headCache v)) as [H1 H2].
      destruct (drawPage (drawLine runes RuneWidth) f (headCache v)) as [[o c] l].
      simpl in *. exists o, c, l. split; [reflexivity|]. split; [exact H1 | lia].
    - exists [], (headCache v), 0. repeat split. }
  destruct Hhead as (outH & cacheH & lfH & Ehead & HlfH & Hbound).
  rewrite Ehead in H. simpl in H.
  destruct startRow as [s|]; [|discriminate]. simpl in H.
  destruct (bodyStart rows s headerLines) as [p|] eqn:Estart.
  - destruct (bodyFrame rows p cursorRow cellWidth headerLines startCol cursorCol
                        screenHeight screenWidth) as [f|] eqn:Ef; [|discriminate].
    simpl in H. pose proof (bodyFrame_h _ _ _ _ _ _ _ _ _ _ Ef) as Hf.
    pose proof (drawPage_lines (drawLine runes RuneWidth) f (bodyCache v)) as [H1 H2].
    destruct (drawPage (drawLine runes RuneWidth) f (bodyCache v)) as [[o c] l].
    simpl in *. injection H as <- <- <-. rewrite lineBreaks_app.
    split; [lia|]. case_bool_decide; lia.
  - injection H as <- <- <-. split; [exact HlfH|].
    unfold bodyStart in Estart.
    destruct (bool_decide_reflect (Z.of_nat s < headerLines)) as [Hlt|Hlt];
      [|discriminate].
    rewrite bool_decide_eq_true_2 in Hbound by lia. lia.
Qed.

Lemma walkBack_spec (p : nat) (goal : Z) :
  0 <= goal -> walkBack p goal = Some (Z.to_nat (Z.min (Z.of_nat p) goal)).
Proof.
  intros Hg. induction p as [|p IH].
  - simpl. rewrite bool_decide_eq_false_2 by lia. f_equal. lia.
  - cbn [walkBack]. case_bool_decide as Hlt.
    + rewrite IH. f_equal. lia.
    + f_equal. lia.
Qed.

Lemma scroll_spec
    (cursorRow startRow : nat) (screenHeight cursorCol startCol cols : Z) :
  exists startRow' : nat,
    scrollRow cursorRow startRow screenHeight = Some startRow'
    /\ (2 <= screenHeight ->
        Z.of_nat startRow' <= Z.of_nat cursorRow < Z.of_nat startRow' + (screenHeight - 1))
    /\ (Z.of_nat startRow <= Z.of_nat cursorRow < Z.of_nat startRow + (screenHeight - 1) ->
        startRow' = startRow)
    /\ (1 <= cols ->
        scrollCol cursorCol startCol cols <= cursorCol
        < scrollCol cursorCol startCol cols + cols)
    /\ (startCol <= cursorCol < startCol + cols ->
        scrollCol cursorCol startCol cols = startCol).
Proof.
  unfold scrollRow, scrollCol.
  destruct (bool_decide_reflect (cursorRow < startRow)%nat) as [Hup|Hup].
  - exists cursorRow. split; [reflexivity|]. split; [lia|]. split; [lia|].
    repeat case_bool_decide; split; lia.
  - destruct (bool_decide_reflect
                (Z.of_nat startRow + screenHeight - 1 <= Z.of_nat cursorRow)) as [Hdn|Hdn].
    + rewrite walkBack_spec by lia. eexists. split; [reflexivity|].
      split; [lia|]. split; [lia|]. repeat case_bool_decide; split; lia.
    + exists startRow. split; [reflexivity|]. split; [lia|]. split; [lia|].
      repeat case_bool_decide; split; lia.
Qed.


Lemma cellsAfter_drop (cells : list Cell) (n : Z) :
  0 <= n -> cellsAfter cells n = Some (drop (Z.to_nat n) cells).
Proof.
  intros Hn. unfold cellsAfter. case_bool_decide as Hlen.
  - by rewrite bool_decide_eq_true_2.
  - rewrite drop_ge by lia. reflexivity.
Qed.

Lemma yield_rows (rows : list Row) (p count : nat) (startCol : Z) :
  0 <= startCol ->
  yield rows (Some p) count startCol
  = Some (map (fun r => drop (Z.to_nat startCol) (Cells r)) (take count (drop p rows))).
Proof.
  intros Hs. unfold yield. apply mapM_Some_2.
  induction (take count (drop p rows)) as [|r l IH]; constructor; [|exact IH].
  by apply cellsAfter_drop.
Qed.

(** X21: without header lines, with a body of one row or more and one
    cell or more on a screen row, the frame that [Draw] hands to [drawPage]
    after the viewport was adjusted shows the cursor: the cursor row is
    one of the rows that are drawn, at the line [csrlin], and the cursor
    cell is the cell at [csrpos] of it, among the first [cols] cells. *)
Theorem the_cursor_cell_is_on_the_page
    (rows : list Row) (cursorRow startRow : nat) (cur : Row)
    (cellWidth headerLines screenHeight screenWidth cursorCol startCol cols : Z) :
  headerLines <= 0 ->
  2 <= screenHeight ->
  1 <= cols ->
  rows !! cursorRow = Some cur ->
  0 <= cursorCol < Z.of_nat (length (Cells cur)) ->
  0 <= startCol ->
  exists (startRow' : nat) (f : Frame),
    scrollRow cursorRow startRow screenHeight = Some startRow'
    /\ bodyStart rows startRow' headerLines = Some startRow'
    /\ bodyFrame rows startRow' (Some cursorRow) cellWidth headerLines
                 (scrollCol cursorCol startCol cols) cursorCol
                 screenHeight screenWidth = Some f
    /\ 0 <= csrlin f < h f
    /\ 0 <= csrpos f < cols
    /\ exists cells,
         page f !! Z.to_nat (csrlin f) = Some cells
         /\ cells !! Z.to_nat (csrpos f) = Cells cur !! Z.to_nat cursorCol
         /\ is_Some (cells !! Z.to_nat (csrpos f)).
Proof.
  intros Hh Hsh Hcols Hcur Hcol Hsc.
  destruct (scroll_spec cursorRow startRow screenHeight cursorCol startCol cols)
    as (s' & Hscroll & Hrow & _ & Hc & _).
  specialize (Hrow Hsh). specialize (Hc Hcols).
  pose proof (lookup_lt_Some _ _ _ Hcur) as Hlt.
  assert (Hsc' : 0 <= scrollCol cursorCol startCol cols).
  { unfold scrollCol. repeat case_bool_decide; lia. }
  exists s'. eexists. split; [exact Hscroll|]. split.
  { unfold bodyStart. by rewrite bool_decide_eq_false_2 by lia. }
  split.
  { unfold bodyFrame. rewrite yield_rows by exact Hsc'. reflexivity. }
  simpl. split; [lia|]. split; [lia|].
  exists (drop (Z.to_nat (scrollCol cursorCol startCol cols)) (Cells cur)).
  split; [|split].
  - rewrite list_lookup_fmap, lookup_take_lt by lia. rewrite lookup_drop.
    replace (s' + Z.to_nat (Z.of_nat cursorRow - Z.of_nat s'))%nat with cursorRow by lia.
    rewrite Hcur. reflexivity.
  - rewrite lookup_drop. f_equal. lia.
  - rewrite lookup_drop. apply lookup_lt_is_Some_2. lia.
Qed.

End ViewProps.

(** ** The older editor *)

Section LegacyLine.

Import Text Legacy.

Variable runes : string -> list string.
Variable RuneWidth : string -> Z.

Lemma legacy_mergeEmpty_spec (cursorPos cellWidth : Z) (csvs : list string) :
  forall (nextI cw : Z),
    0 <= cellWidth ->
    cw <= (mergeEmpty csvs nextI cursorPos cw cellWidth).2
    /\ (length (mergeEmpty csvs nextI cursorPos cw cellWidth).1.1 <= length csvs)%nat.
Proof.
  induction csvs as [|c csvs IH]; intros nextI cw Hcw; simpl.
  - split; lia.
  - destruct (bool_decide (c = EmptyString) && negb (bool_decide (nextI = cursorPos))).
    + destruct (IH (nextI + 1) (cw + cellWidth) Hcw) as (Hw & Hlen). split; lia.
    + simpl. split; lia.
Qed.

Lemma columnsOf_app (a b : list Piece) :
  columnsOf RuneWidth (a ++ b) = columnsOf RuneWidth a + columnsOf RuneWidth b.
Proof.
  induction a as [|p a IH]; [reflexivity|]. destruct p; simpl; rewrite ?IH; lia.
Qed.

Lemma columnsOf_spaces (n : nat) : columnsOf RuneWidth (replicate n Sp) = Z.of_nat n.
Proof. induction n as [|n IH]; [reflexivity|]. simpl in *. rewrite IH. lia. Qed.

Lemma cellLoop_fills (v : LineView) :
  0 < CellWidth v ->
  forall (fuel : nat) (csvs : list string) (i leftWidth : Z),
    (length csvs <= fuel)%nat -> csvs <> [] -> 0 <= leftWidth ->
    columnsOf RuneWidth (cellLoop runes RuneWidth fuel v csvs i leftWidth) = leftWidth.
Proof.
  intros Hcw. induction fuel as [|fuel IH]; intros csvs i leftWidth Hfuel Hne Hleft.
  - destruct csvs; [contradiction | simpl in Hfuel; lia].
  - destruct csvs as [|s rest]; [contradiction|]. simpl.
    pose proof (legacy_mergeEmpty_spec (CursorPos v) (CellWidth v) rest (i + 1)
                  (CellWidth v) ltac:(lia)) as (Hw & Hlen).
    destruct (mergeEmpty rest (i + 1) (CursorPos v) (CellWidth v) (CellWidth v))
      as [[csvs' nextI] cw].
    simpl in Hw, Hlen.
    set (cw' := if bool_decide (leftWidth < cw) || bool_decide (length csvs' <= 0)%nat
                then leftWidth else cw).
    assert (Hcw' : 0 <= cw' <= leftWidth
                   /\ (csvs' = [] -> cw' = leftWidth)).
    { unfold cw'. destruct (bool_decide_reflect (leftWidth < cw)); simpl.
      - split; [lia | reflexivity].
      - destruct csvs'; simpl; [split; [lia | reflexivity]|].
        split; [lia | discriminate]. }
    destruct (cutRunes_spec RuneWidth (runes (replaceTable s)) 0 cw' ltac:(lia))
      as (_ & _ & _ & Hsum & Hle).
    fold (cutStrInWidth runes RuneWidth (replaceTable s) cw') in Hsum, Hle.
    destruct (cutStrInWidth runes RuneWidth (replaceTable s) cw') as [ss w].
    simpl in Hsum, Hle. simpl.
    rewrite columnsOf_app, columnsOf_spaces.
    case_bool_decide as Hbreak; simpl; [lia|].
    rewrite IH; [lia | simpl in Hfuel; lia | | lia].
    intros ->. destruct Hcw' as [_ Hlast]. specialize (Hlast eq_refl). lia.
Qed.

(** X22: in the older editor a row that has a cell is painted over exactly
    [MaxInLine] columns, text and padding together, when that width is not
    negative and the cell width is positive: the line is filled to the
    right edge and never runs over it. *)
Theorem legacy_line_fills_the_width (v : LineView) :
  CSV v <> [] ->
  0 <= MaxInLine v ->
  0 < CellWidth v ->
  columnsOf RuneWidth (Draw runes RuneWidth v) = MaxInLine v.
Proof.
  intros Hne Hmax Hcw. unfold Draw. rewrite columnsOf_app. simpl.
  rewrite (cellLoop_fills v Hcw); [lia | lia | exact Hne | exact Hmax].
Qed.

End LegacyLine.

Section LegacySlices.

Import Legacy.

Lemma insert_at {A : Type} (s : list A) (e x : A) (i : Z) :
  0 <= i <= Z.of_nat (length s) ->
  exists s1, copyWithin (s ++ [e]) (i + 1) i = Some s1
             /\ setAt s1 i x = Some (take (Z.to_nat i) s ++ x :: drop (Z.to_nat i) s).
Proof.
  intros Hi. unfold copyWithin, sliceFrom.
  rewrite !bool_decide_eq_true_2 by (rewrite length_app; simpl; lia). simpl.
  eexists. split; [reflexivity|].
  replace (Z.to_nat (i + 1)) with (Z.to_nat i + 1)%nat by lia.
  unfold setAt.
  assert (Hs : s = take (Z.to_nat i) s ++ drop (Z.to_nat i) s) by (by rewrite take_drop).
  assert (Hla : Z.to_nat i = length (take (Z.to_nat i) s))
    by (rewrite length_take; lia).
  revert Hs Hla. generalize (take (Z.to_nat i) s) as a, (drop (Z.to_nat i) s) as b.
  intros a b -> Hla. rewrite Hla. destruct Hi as [Hi _].
  rewrite <- !app_assoc.
  rewrite take_app_add, drop_app_add, drop_app_length.
  assert (Hcopy : take 1 (b ++ [e]) ++ copy (drop 1 (b ++ [e])) (b ++ [e])
                  = (match b with [] => e | y :: _ => y end) :: b).
  { unfold copy. destruct b as [|y b]; simpl; [reflexivity|].
    rewrite !drop_0. rewrite drop_ge by lia.
    rewrite app_nil_r. f_equal.
    change (y :: b ++ [e]) with ((y :: b) ++ [e]).
    replace (length (b ++ [e])) with (length (y :: b))
      by (rewrite length_app; simpl; lia).
    apply take_app_length. }
  rewrite <- !app_assoc. rewrite Hcopy.
  rewrite bool_decide_eq_true_2 by (rewrite length_app; simpl; lia).
  f_equal.
  replace (length a) with (length a + 0)%nat at 1 by lia.
  rewrite insert_app_r. reflexivity.
Qed.

Lemma delete_at {A : Type} (s : list A) (i : Z) :
  0 <= i < Z.of_nat (length s) ->
  exists s1, copyWithin s i (i + 1) = Some s1
             /\ dropLast s1 = Some (take (Z.to_nat i) s ++ drop (Z.to_nat (i + 1)) s).
Proof.
  intros Hi. unfold copyWithin, sliceFrom.
  rewrite !bool_decide_eq_true_2 by lia. simpl.
  eexists. split; [reflexivity|].
  replace (Z.to_nat (i + 1)) with (S (Z.to_nat i)) by lia.
  destruct (lookup_lt_is_Some_2 s (Z.to_nat i) ltac:(lia)) as [y Hy].
  assert (Hs : s = take (Z.to_nat i) s ++ y :: drop (S (Z.to_nat i)) s)
    by (by rewrite take_drop_middle).
  assert (Hla : Z.to_nat i = length (take (Z.to_nat i) s))
    by (rewrite length_take; lia).
  rewrite (drop_S s y _ Hy).
  revert Hs Hla.
  generalize (take (Z.to_nat i) s) as a, (drop (S (Z.to_nat i)) s) as b.
  intros a b _ Hla. clear Hy Hi.
  unfold copy, dropLast. simpl.
  rewrite take_ge by lia.
  assert (Hlast : exists z, drop (length b) (y :: b) = [z]).
  { assert (Hlen : length (drop (length b) (y :: b)) = 1%nat)
      by (rewrite length_drop; simpl; lia).
    destruct (drop (length b) (y :: b)) as [|z [|? ?]]; try discriminate. by exists z. }
  destruct Hlast as [z ->].
  rewrite bool_decide_eq_true_2 by (rewrite !length_app; simpl; lia).
  f_equal. rewrite app_assoc, length_app. simpl.
  replace (length (a ++ b) + 1 - 1)%nat with (length (a ++ b)) by lia.
  apply take_app_length.
Qed.

End LegacySlices.

Section LegacyLoop.

Import Legacy.

Variable runes : string -> list string.
Variable RuneWidth : string -> Z.

(** What holds after a command and before the end of the turn. *)
Definition beforeSettle (st : State) : Prop :=
  Forall (fun row => (1 <= length row)%nat) (csvlines st)
  /\ 0 <= rowIndex st < Z.of_nat (length (csvlines st))
  /\ 0 <= colIndex st
  /\ 0 <= startRow st
  /\ 0 <= startCol st.

Definition outcome (P : State -> Prop) (o : Outcome) : Prop :=
  match o with
  | Next s => P s
  | Done | Failed _ => True
  | Panic => False
  end.

Lemma legacy_ok_pre (st : State) : ok st -> beforeSettle st.
Proof.
  intros (Hall & Hr & (row & Hrow & Hc) & Hsr & Hsc). repeat split; try assumption; lia.
Qed.

Lemma legacy_ok_cursor (st : State) :
  ok st ->
  exists row, cursorRow st = Some row
              /\ csvlines st !! Z.to_nat (rowIndex st) = Some row
              /\ (1 <= length row)%nat
              /\ 0 <= colIndex st < Z.of_nat (length row).
Proof.
  intros (Hall & Hr & (row & Hrow & Hc) & Hsr & Hsc). exists row.
  unfold cursorRow, getAt. rewrite bool_decide_eq_true_2 by lia.
  split; [exact Hrow|]. split; [exact Hrow|]. split; [|exact Hc].
  exact (Forall_lookup_1 _ _ _ _ Hall Hrow).
Qed.

Lemma read_total (rd : MemoryCsv) :
  0 <= StartX rd -> 0 <= StartY rd ->
  exists res rd', Read rd = Some (res, rd')
                  /\ Data rd' = Data rd /\ StartX rd' = StartX rd /\ 0 <= StartY rd'.
Proof.
  intros Hx Hy. unfold Read. case_bool_decide as Hend.
  - exists None, rd. repeat split. exact Hy.
  - rewrite bool_decide_eq_false_2 by lia.
    destruct (lookup_lt_is_Some_2 (Data rd) (Z.to_nat (StartY rd)) ltac:(lia)) as [csv ->].
    case_bool_decide.
    + rewrite bool_decide_eq_false_2 by lia. eexists _, _. split; [reflexivity|].
      simpl. repeat split. lia.
    + eexists _, _. split; [reflexivity|]. simpl. repeat split. lia.
Qed.

Lemma viewLoop_total (csrpos csrlin w : Z) (n : nat) :
  forall (rd : MemoryCsv) (count lfCount : Z) (reverse : bool) (cache : gmap Z string),
    0 <= StartX rd -> 0 <= StartY rd ->
    exists res,
      viewLoop runes RuneWidth n rd csrpos csrlin w count lfCount reverse cache = Some res.
Proof.
  induction n as [|n IH]; intros rd count lfCount reverse cache Hx Hy; simpl; [eauto|].
  destruct (read_total rd Hx Hy) as (res & rd' & -> & _ & Hx' & Hy').
  destruct res as [record|]; [|eauto].
  destruct (Render.writeIfChanged cache count _) as [wr cache1].
  match goal with |- context [viewLoop _ _ n rd' _ _ _ ?c ?l ?r cache1] =>
    destruct (IH rd' c l r cache1) as [[[out cache2] lf2] ->]; [lia | lia |] end.
  eauto.
Qed.

Lemma legacy_search_total (d : Direction) (st : State) :
  ok st ->
  exists res, search d st = Some res
    /\ forall r' c', res = (true, r', c') ->
         0 <= r' < Z.of_nat (length (csvlines st)) /\ 0 <= c'.
Proof.
  intros Hok. destruct (legacy_ok_cursor st Hok) as (row & _ & Hrow & _ & Hc).
  destruct Hok as (_ & Hr & _). destruct d; simpl.
  - apply searchForward_valid; lia.
  - apply (searchBackward_valid _ _ _ _ row); [lia | exact Hrow | lia].
Qed.

Lemma legacy_jump_pre (d : Direction) (st : State) : ok st -> outcome beforeSettle (jump d st).
Proof.
  intros Hok. unfold jump. destruct (legacy_search_total d st Hok) as (res & -> & Hv). simpl.
  destruct res as [[found r] c]. pose proof (legacy_ok_pre st Hok) as (Hall & Hr & Hc & Hsr & Hsc).
  destruct found; simpl.
  - destruct (Hv r c eq_refl) as [Hr' Hc']. repeat split; simpl; try assumption; lia.
  - exact (legacy_ok_pre st Hok).
Qed.

Lemma openRow_effect (st : State) :
  0 <= rowIndex st <= Z.of_nat (length (csvlines st)) ->
  openRow st
  = Next (setGrid (take (Z.to_nat (rowIndex st)) (csvlines st)
                   ++ [EmptyString] :: drop (Z.to_nat (rowIndex st)) (csvlines st)) st).
Proof.
  intros Hr. unfold openRow.
  rewrite bool_decide_eq_true_2 by (rewrite length_app; simpl; lia).
  destruct (insert_at (csvlines st) [] [EmptyString] (rowIndex st) Hr) as (l1 & H1 & H2).
  rewrite H1. simpl. rewrite H2. reflexivity.
Qed.

Lemma openBelow_effect (st : State) :
  0 <= rowIndex st < Z.of_nat (length (csvlines st)) ->
  openBelow st
  = Next (setGrid (take (Z.to_nat (rowIndex st + 1)) (csvlines st)
                   ++ [EmptyString] :: drop (Z.to_nat (rowIndex st + 1)) (csvlines st))
                  (setRow (rowIndex st + 1) st)).
Proof.
  intros Hr. unfold openBelow. rewrite bool_decide_eq_false_2 by lia.
  rewrite openRow_effect by (simpl; lia). reflexivity.
Qed.

Lemma deleteRow_effect (st : State) :
  0 <= rowIndex st < Z.of_nat (length (csvlines st)) ->
  (2 <= length (csvlines st))%nat ->
  exists st',
    deleteRow st = Next st'
    /\ csvlines st' = take (Z.to_nat (rowIndex st)) (csvlines st)
                      ++ drop (Z.to_nat (rowIndex st + 1)) (csvlines st)
    /\ rowIndex st' = Z.min (rowIndex st) (Z.of_nat (length (csvlines st)) - 2)
    /\ colIndex st' = colIndex st
    /\ startRow st' = startRow st /\ startCol st' = startCol st.
Proof.
  intros Hr Htwo. unfold deleteRow. rewrite bool_decide_eq_false_2 by lia.
  destruct (delete_at (csvlines st) (rowIndex st) Hr) as (l1 & H1 & H2).
  rewrite H1. simpl. rewrite H2. simpl.
  assert (Hlen : length (take (Z.to_nat (rowIndex st)) (csvlines st)
                         ++ drop (Z.to_nat (rowIndex st + 1)) (csvlines st))
                 = (length (csvlines st) - 1)%nat).
  { rewrite length_app, length_take, length_drop. lia. }
  rewrite Hlen. case_bool_decide; (eexists; split; [reflexivity|]); simpl;
    repeat split; lia.
Qed.

Lemma legacy_setCursorRow_effect (row : list string) (st : State) :
  0 <= rowIndex st < Z.of_nat (length (csvlines st)) ->
  setCursorRow row st
  = Some (setGrid (<[Z.to_nat (rowIndex st) := row]> (csvlines st)) st).
Proof.
  intros Hr. unfold setCursorRow, setAt. by rewrite bool_decide_eq_true_2.
Qed.

Lemma insertCell_effect (inp : Input) (st : State) (row : list string) :
  ok st -> csvlines st !! Z.to_nat (rowIndex st) = Some row ->
  (line inp).2 = None ->
  insertCell inp st
  = Next (setCol (colIndex st + 1)
            (setGrid (<[Z.to_nat (rowIndex st) :=
                          take (Z.to_nat (colIndex st)) row
                          ++ (line inp).1 :: drop (Z.to_nat (colIndex st)) row]>
                        (csvlines st)) st)).
Proof.
  intros Hok Hrow Hline. destruct (legacy_ok_cursor st Hok) as (row' & Hcur & Hrow' & Hlen & Hc).
  rewrite Hrow in Hrow'. injection Hrow' as <-.
  destruct Hok as (_ & Hr & _).
  unfold insertCell. rewrite Hline, Hcur. simpl.
  destruct (insert_at row EmptyString (line inp).1 (colIndex st) ltac:(lia))
    as (r1 & H1 & H2).
  rewrite H1. simpl. rewrite H2. simpl. rewrite legacy_setCursorRow_effect by exact Hr. reflexivity.
Qed.

Lemma appendCell_effect (inp : Input) (st : State) (row : list string) :
  ok st -> csvlines st !! Z.to_nat (rowIndex st) = Some row ->
  (line inp).2 = None ->
  appendCell inp st
  = Next (setCol (colIndex st + 1)
            (setGrid (<[Z.to_nat (rowIndex st) :=
                          take (Z.to_nat (colIndex st + 1)) row
                          ++ (line inp).1 :: drop (Z.to_nat (colIndex st + 1)) row]>
                        (csvlines st)) st)).
Proof.
  intros Hok Hrow Hline. destruct (legacy_ok_cursor st Hok) as (row' & Hcur & Hrow' & Hlen & Hc).
  rewrite Hrow in Hrow'. injection Hrow' as <-.
  destruct Hok as (_ & Hr & _).
  unfold appendCell. rewrite Hline, Hcur. simpl.
  destruct (insert_at row EmptyString (line inp).1 (colIndex st + 1) ltac:(lia))
    as (r1 & H1 & H2).
  rewrite H1. simpl. rewrite H2. simpl. rewrite legacy_setCursorRow_effect by exact Hr. reflexivity.
Qed.

Lemma replaceCell_effect (inp : Input) (st : State) (row : list string) :
  ok st -> csvlines st !! Z.to_nat (rowIndex st) = Some row ->
  (line inp).2 = None ->
  replaceCell inp st
  = Next (setGrid (<[Z.to_nat (rowIndex st) :=
                       <[Z.to_nat (colIndex st) := (line inp).1]> row]>
                     (csvlines st)) st).
Proof.
  intros Hok Hrow Hline. destruct (legacy_ok_cursor st Hok) as (row' & Hcur & Hrow' & Hlen & Hc).
  rewrite Hrow in Hrow'. injection Hrow' as <-.
  destruct Hok as (_ & Hr & _).
  unfold replaceCell. rewrite Hcur. simpl.
  unfold getAt. rewrite bool_decide_eq_true_2 by lia.
  destruct (lookup_lt_is_Some_2 row (Z.to_nat (colIndex st)) ltac:(lia)) as [cell ->].
  simpl. rewrite Hline. unfold setAt. rewrite bool_decide_eq_true_2 by lia. simpl.
  rewrite legacy_setCursorRow_effect by exact Hr. reflexivity.
Qed.

Lemma deleteCell_effect (st : State) (row : list string) :
  ok st -> csvlines st !! Z.to_nat (rowIndex st) = Some row ->
  deleteCell st
  = Next (setGrid (<[Z.to_nat (rowIndex st) :=
                       if bool_decide (length row <= 1)%nat
                       then <[O := EmptyString]> row
                       else take (Z.to_nat (colIndex st)) row
                            ++ drop (Z.to_nat (colIndex st + 1)) row]>
                     (csvlines st)) st).
Proof.
  intros Hok Hrow. destruct (legacy_ok_cursor st Hok) as (row' & Hcur & Hrow' & Hlen & Hc).
  rewrite Hrow in Hrow'. injection Hrow' as <-.
  destruct Hok as (_ & Hr & _).
  unfold deleteCell. rewrite Hcur. simpl. case_bool_decide as Hone.
  - unfold setAt. rewrite bool_decide_eq_true_2 by lia. simpl.
    rewrite legacy_setCursorRow_effect by exact Hr. reflexivity.
  - destruct (delete_at row (colIndex st) Hc) as (r1 & H1 & H2).
    rewrite H1. simpl. rewrite H2. simpl.
    rewrite legacy_setCursorRow_effect by exact Hr. reflexivity.
Qed.

Lemma legacy_pre_setGrid_row (row : list string) (st : State) :
  beforeSettle st -> (1 <= length row)%nat ->
  beforeSettle (setGrid (<[Z.to_nat (rowIndex st) := row]> (csvlines st)) st).
Proof.
  intros (Hall & Hr & Hc & Hsr & Hsc) Hrow. unfold beforeSettle. simpl. rewrite length_insert.
  repeat split; try assumption; try lia. by apply Forall_insert.
Qed.

Lemma legacy_command_pre (inp : Input) (ch : string) (st : State) :
  ok st -> outcome beforeSettle (command inp ch st).
Proof.
  intros Hok. pose proof (legacy_ok_pre st Hok) as Hpre.
  pose proof Hpre as (Hall & Hr & Hc & Hsr & Hsc).
  destruct (legacy_ok_cursor st Hok) as (row & Hcur & Hrow & Hlen & Hcol).
  unfold command.
  repeat match goal with
         | |- outcome beforeSettle (if oneOf ch ?l then _ else _) => destruct (oneOf ch l)
         end.
  - exact Hpre.
  - destruct (confirm inp) as [c [e|]]; [exact Hpre|].
    case_bool_decide; [exact I | exact Hpre].
  - case_bool_decide; [|exact Hpre]. repeat split; simpl; try assumption; lia.
  - case_bool_decide; [|exact Hpre]. repeat split; simpl; try assumption; lia.
  - case_bool_decide; [|exact Hpre]. repeat split; simpl; try assumption; lia.
  - repeat split; simpl; try assumption; lia.
  - repeat split; simpl; try assumption; lia.
  - rewrite Hcur. simpl. repeat split; simpl; try assumption; lia.
  - repeat split; simpl; try assumption; lia.
  - repeat split; simpl; try assumption; lia.
  - destruct (csvi.nonEmpty _); [by apply legacy_jump_pre | exact Hpre].
  - destruct (csvi.nonEmpty _); [by apply legacy_jump_pre | exact Hpre].
  - destruct (line inp).2 as [err|].
    + destruct (negb (csvi.isCtrlC err)); exact Hpre.
    + apply legacy_jump_pre. case_bool_decide; exact Hok.
  - rewrite openBelow_effect by exact Hr. simpl. unfold beforeSettle. simpl.
    rewrite length_app, length_take. simpl. rewrite length_drop.
    repeat split; try assumption; try lia.
    apply Forall_app. split; [by apply Forall_take|].
    constructor; [simpl; lia | by apply Forall_drop].
  - rewrite openRow_effect by lia. simpl. unfold beforeSettle. simpl.
    rewrite length_app, length_take. simpl. rewrite length_drop.
    repeat split; try assumption; try lia.
    apply Forall_app. split; [by apply Forall_take|].
    constructor; [simpl; lia | by apply Forall_drop].
  - destruct (decide (length (csvlines st) <= 1)%nat) as [Hone|Htwo].
    + unfold deleteRow. rewrite bool_decide_eq_true_2 by exact Hone. exact Hpre.
    + destruct (deleteRow_effect st Hr ltac:(lia)) as (st' & -> & Hl & Hr' & Hc' & Hsr' & Hsc').
      simpl. unfold beforeSettle. rewrite Hl, Hr', Hc', Hsr', Hsc'.
      rewrite length_app, length_take, length_drop.
      repeat split; try assumption; try lia.
      apply Forall_app. split; [by apply Forall_take | by apply Forall_drop].
  - destruct (line inp).2 eqn:Hline.
    + unfold insertCell. rewrite Hline. exact Hpre.
    + rewrite (insertCell_effect inp st row Hok Hrow Hline). simpl.
      pose proof (legacy_pre_setGrid_row (take (Z.to_nat (colIndex st)) row
                                   ++ (line inp).1 :: drop (Z.to_nat (colIndex st)) row)
                    st Hpre) as H.
      destruct H as (H1 & H2 & H3 & H4 & H5); [rewrite length_app; simpl; lia|].
      repeat split; simpl in *; try assumption; lia.
  - destruct (line inp).2 eqn:Hline.
    + unfold appendCell. rewrite Hline. exact Hpre.
    + rewrite (appendCell_effect inp st row Hok Hrow Hline). simpl.
      pose proof (legacy_pre_setGrid_row (take (Z.to_nat (colIndex st + 1)) row
                                   ++ (line inp).1 :: drop (Z.to_nat (colIndex st + 1)) row)
                    st Hpre) as H.
      destruct H as (H1 & H2 & H3 & H4 & H5); [rewrite length_app; simpl; lia|].
      repeat split; simpl in *; try assumption; lia.
  - destruct (line inp).2 eqn:Hline.
    + unfold replaceCell. rewrite Hcur. simpl. unfold getAt.
      rewrite bool_decide_eq_true_2 by lia.
      destruct (lookup_lt_is_Some_2 row (Z.to_nat (colIndex st)) ltac:(lia)) as [cell ->].
      simpl. rewrite Hline. exact Hpre.
    + rewrite (replaceCell_effect inp st row Hok Hrow Hline). simpl.
      apply legacy_pre_setGrid_row; [exact Hpre | rewrite length_insert; lia].
  - rewrite (deleteCell_effect st row Hok Hrow). simpl.
    apply legacy_pre_setGrid_row; [exact Hpre|].
    case_bool_decide; [rewrite length_insert; lia|].
    rewrite length_app, length_take, length_drop. lia.
  - destruct (csvi.nonEmpty _); exact Hpre.
  - exact Hpre.
Qed.

Lemma legacy_settle_ok (screenHeight cols : Z) (st : State) :
  beforeSettle st ->
  exists st', settle screenHeight cols st = Next st' /\ ok st'
              /\ csvlines st' = csvlines st /\ rowIndex st' = rowIndex st.
Proof.
  intros (Hall & Hr & Hc & Hsr & Hsc). unfold settle, cursorRow, getAt.
  rewrite bool_decide_eq_true_2 by lia.
  destruct (lookup_lt_is_Some_2 (csvlines st) (Z.to_nat (rowIndex st)) ltac:(lia))
    as [row Hrow].
  rewrite Hrow. simpl. pose proof (Forall_lookup_1 _ _ _ _ Hall Hrow) as Hlen.
  simpl in Hlen.
  eexists. split; [reflexivity|]. split; [|split; [|]].
  - unfold ok.
    destruct (bool_decide_reflect (Z.of_nat (length row) <= colIndex st)); simpl;
      (split; [exact Hall|]); (split; [exact Hr|]);
      (split; [exists row; split; [exact Hrow | lia]|]);
      repeat case_bool_decide; split; lia.
  - simpl. by destruct (bool_decide (Z.of_nat (length row) <= colIndex st)).
  - simpl. by destruct (bool_decide (Z.of_nat (length row) <= colIndex st)).
Qed.

Lemma legacy_turn_ok (inp : Input) (st : State) :
  ok st -> outcome ok (turn runes RuneWidth inp st).
Proof.
  intros Hok. unfold turn. destruct (size inp) as [[screenWidth screenHeight] [e|]];
    [exact I|].
  set (st1 := if negb (bool_decide (lastWidth st = screenWidth))
                 || negb (bool_decide (lastHeight st = screenHeight))
              then setScreen screenWidth screenHeight ∅ st else st).
  assert (Hok1 : ok st1) by (unfold st1; destruct (_ || _); exact Hok).
  pose proof Hok1 as (_ & _ & _ & Hsr & Hsc).
  destruct (viewLoop_total (colIndex st1 - startCol st1) (rowIndex st1 - startRow st1)
              (screenWidth - 1) (Z.to_nat (screenHeight - 1))
              (mkMemoryCsv (csvlines st1) (startCol st1) (startRow st1))
              0 0 false (cache st1) Hsc Hsr) as [drawn Hdrawn].
  unfold view. rewrite Hdrawn. simpl.
  destruct (key inp) as [ch [e|]]; [exact I|].
  match goal with |- context [command inp ch ?s] =>
    assert (Hok2 : ok s) by exact Hok1;
    pose proof (legacy_command_pre inp ch s Hok2) as Hcmd;
    destruct (command inp ch s) as [st3| | |] end; simpl in Hcmd; try exact I;
    [|contradiction].
  destruct (legacy_settle_ok screenHeight (Z.quot (screenWidth - 1) CELL_WIDTH) st3 Hcmd)
    as (st' & -> & Hok' & _). exact Hok'.
Qed.

(** X23: the loop of the older editor never faults: from a grid that has a
    row, in which every row has a cell and the cursor is on a cell, with a
    window that starts at no negative index, every turn ends in such a
    state again (or [mains] returns), whatever keys are pressed and
    whatever the dialogs answer; no index leaves the grid and the window
    reader is never asked for a negative row or column. *)
Theorem legacy_loop_never_faults (inps : list Input) (st : State) :
  ok st ->
  match turns runes RuneWidth inps st with
  | Next st' => ok st'
  | Done | Failed _ => True
  | Panic => False
  end.
Proof.
  revert st. induction inps as [|inp inps IH]; intros st Hok; simpl; [exact Hok|].
  pose proof (legacy_turn_ok inp st Hok) as H.
  destruct (turn runes RuneWidth inp st); simpl in H; try exact I; [|contradiction].
  by apply IH.
Qed.

(** X24: the editing keys of the older editor, written with [append] and
    [copy] on slices, are the insertions and deletions of lists: "O" puts a
    row with one empty cell at the cursor row, "o" below it and moves the
    cursor there; "D" takes the cursor row out and keeps the cursor in the
    grid; "i" puts the text before the cursor cell, "a" after it, and both
    move the cursor one cell to the right; "d" takes the cursor cell out,
    or empties it when it is the only cell of the row. *)
Theorem legacy_editing_keys_are_list_operations
    (inp : Input) (st : State) (row : list string) :
  ok st ->
  csvlines st !! Z.to_nat (rowIndex st) = Some row ->
  command inp "O" st
  = Next (setGrid (take (Z.to_nat (rowIndex st)) (csvlines st)
                   ++ [EmptyString] :: drop (Z.to_nat (rowIndex st)) (csvlines st)) st)
  /\ command inp "o" st
     = Next (setGrid (take (Z.to_nat (rowIndex st + 1)) (csvlines st)
                      ++ [EmptyString] :: drop (Z.to_nat (rowIndex st + 1)) (csvlines st))
                     (setRow (rowIndex st + 1) st))
  /\ ((2 <= length (csvlines st))%nat ->
      exists st',
        command inp "D" st = Next st'
        /\ csvlines st' = take (Z.to_nat (rowIndex st)) (csvlines st)
                          ++ drop (Z.to_nat (rowIndex st + 1)) (csvlines st)
        /\ rowIndex st' = Z.min (rowIndex st) (Z.of_nat (length (csvlines st)) - 2)
        /\ colIndex st' = colIndex st)
  /\ ((line inp).2 = None ->
      command inp "i" st
      = Next (setCol (colIndex st + 1)
                (setGrid (<[Z.to_nat (rowIndex st) :=
                              take (Z.to_nat (colIndex st)) row
                              ++ (line inp).1 :: drop (Z.to_nat (colIndex st)) row]>
                            (csvlines st)) st)))
  /\ ((line inp).2 = None ->
      command inp "a" st
      = Next (setCol (colIndex st + 1)
                (setGrid (<[Z.to_nat (rowIndex st) :=
                              take (Z.to_nat (colIndex st + 1)) row
                              ++ (line inp).1 :: drop (Z.to_nat (colIndex st + 1)) row]>
                            (csvlines st)) st)))
  /\ command inp "d" st
     = Next (setGrid (<[Z.to_nat (rowIndex st) :=
                          if bool_decide (length row <= 1)%nat
                          then <[O := EmptyString]> row
                          else take (Z.to_nat (colIndex st)) row
                               ++ drop (Z.to_nat (colIndex st + 1)) row]>
                        (csvlines st)) st).
Proof.
  intros Hok Hrow. pose proof Hok as (_ & Hr & _).
  split; [|split; [|split; [|split; [|split]]]].
  - change (command inp "O" st) with (openRow st). apply openRow_effect. lia.
  - change (command inp "o" st) with (openBelow st). by apply openBelow_effect.
  - intros Htwo. change (command inp "D" st) with (deleteRow st).
    destruct (deleteRow_effect st Hr Htwo) as (st' & Hcmd & Hl & Hr' & Hc' & _).
    exists st'. repeat split; assumption.
  - intros Hline. change (command inp "i" st) with (insertCell inp st).
    by apply insertCell_effect.
  - intros Hline. change (command inp "a" st) with (appendCell inp st).
    by apply appendCell_effect.
  - change (command inp "d" st) with (deleteCell st). by apply deleteCell_effect.
Qed.

End LegacyLoop.

(** ** The write command *)

Section WriteProps.

Import WriteCommand.

Lemma backup_name_differs (f : string) : f +:+ "~" <> f.
Proof.
  induction f as [|c f IH]; [discriminate|].
  rewrite sapp_cons. intros E. injection E as E. by apply IH.
Qed.

Lemma named_ok (a : Answers) :
  args a = [] \/ (absolute a).2 = None ->
  exists f, match args a with
            | _ :: _ =>
                match absolute a with
                | (_, Some e) => inl (csvi.errorText e)
                | (f, None) => inr f
                end
            | [] => inr "-"
            end = inr f.
Proof.
  intros [H|H].
  - rewrite H. by exists "-".
  - destruct (args a); [by exists "-"|].
    destruct (absolute a) as [f e]. simpl in H. subst e. by exists f.
Qed.

(** X25: [cmdWrite] does not replace a file that exists without asking,
    the first time in a run: when the answer is not yes nothing changes;
    when it is yes the old content is moved to the backup (the name
    followed by a tilde) before the new file is created, the name is
    recorded as replaced, and the new file holds the document when it
    could be created. *)
Theorem cmdWrite_asks_before_it_replaces_a_file
    (data : string) (a : Answers) (w : World) (fname old : string) :
  entered a = (fname, None) ->
  fname <> "-" ->
  args a = [] \/ (absolute a).2 = None ->
  files w !! fname = Some old ->
  fname ∉ overWritten w ->
  (yes a = false -> cmdWrite data a w = (EmptyString, w))
  /\ (yes a = true ->
      files (cmdWrite data a w).2 !! (fname +:+ "~") = Some old
      /\ fname ∈ overWritten (cmdWrite data a w).2
      /\ (createErr a = None ->
          cmdWrite data a w
          = (EmptyString,
             mkWorld (<[fname := data]>
                        (<[fname := EmptyString]>
                           (<[fname +:+ "~" := old]>
                              (delete fname (delete (fname +:+ "~") (files w))))))
                     ({[fname]} ∪ overWritten w) (stdout w)))).
Proof.
  intros Hent Hname Hargs Hold Hfresh.
  destruct (named_ok a Hargs) as [f0 Hnamed].
  pose proof (backup_name_differs fname) as Hbak.
  unfold cmdWrite. rewrite Hnamed, Hent.
  rewrite bool_decide_eq_false_2 by exact Hname.
  assert (Hopen : OpenFile fname a (files w) = Exists_)
    by (unfold OpenFile; by rewrite Hold).
  rewrite Hopen.
  rewrite bool_decide_eq_false_2 by exact Hfresh.
  split; [intros ->; reflexivity|]. intros ->. simpl.
  assert (Hren : Rename fname (fname +:+ "~") (delete (fname +:+ "~") (files w))
                 = <[fname +:+ "~" := old]>
                     (delete fname (delete (fname +:+ "~") (files w)))).
  { unfold Rename. rewrite lookup_delete_ne by exact Hbak. by rewrite Hold. }
  rewrite Hren.
  assert (Hgone : <[fname +:+ "~" := old]>
                    (delete fname (delete (fname +:+ "~") (files w))) !! fname = None).
  { rewrite lookup_insert_ne by exact Hbak. apply lookup_delete_eq. }
  unfold OpenFile. rewrite Hgone.
  destruct (createErr a) as [e|]; simpl.
  - split; [apply lookup_insert_eq|]. split; [(apply elem_of_union; left; by apply elem_of_singleton) | discriminate].
  - split.
    + rewrite !lookup_insert_ne by (intros E; by apply Hbak).
      apply lookup_insert_eq.
    + split; [(apply elem_of_union; left; by apply elem_of_singleton) | reflexivity].
Qed.

Lemma cmdWrite_kept (data : string) (a : Answers) (w : World) (f c : string) :
  (entered a).1 = f -> kept f c w -> kept f c (cmdWrite data a w).2.
Proof.
  intros Hf Hkept. pose proof (backup_name_differs f) as Hbak.
  unfold cmdWrite.
  destruct (match args a with
            | [] => inr "-"
            | _ :: _ => match absolute a with
                        | (_, Some e) => inl (csvi.errorText e)
                        | (f0, None) => inr f0
                        end
            end) as [m|f0]; [exact Hkept|].
  destruct (entered a) as [fname [e|]]; [exact Hkept|]. simpl in Hf. subst fname.
  case_bool_decide as Hdash; [exact Hkept|].
  destruct Hkept as [[Hfresh Hfile]|[Hseen Hback]].
  - assert (Hopen : OpenFile f a (files w) = Exists_)
      by (unfold OpenFile; by rewrite Hfile).
    rewrite Hopen.
    rewrite bool_decide_eq_false_2 by exact Hfresh.
    destruct (yes a); simpl; [|by left].
    assert (Hren : Rename f (f +:+ "~") (delete (f +:+ "~") (files w))
                   = <[f +:+ "~" := c]> (delete f (delete (f +:+ "~") (files w)))).
    { unfold Rename. rewrite lookup_delete_ne by exact Hbak. by rewrite Hfile. }
    rewrite Hren. unfold OpenFile.
    rewrite lookup_insert_ne by exact Hbak. rewrite lookup_delete_eq.
    right. destruct (createErr a); simpl.
    + split; [(apply elem_of_union; left; by apply elem_of_singleton) | apply lookup_insert_eq].
    + split; [(apply elem_of_union; left; by apply elem_of_singleton)|].
      rewrite !lookup_insert_ne by (intros E; by apply Hbak). apply lookup_insert_eq.
  - destruct (files w !! f) as [cur|] eqn:Ecur.
    + assert (Hopen : OpenFile f a (files w) = Exists_)
        by (unfold OpenFile; by rewrite Ecur).
      rewrite Hopen.
      rewrite bool_decide_eq_true_2 by exact Hseen.
      unfold OpenFile. rewrite lookup_delete_eq.
      right. destruct (createErr a); simpl.
      * split; [exact Hseen|]. rewrite lookup_delete_ne by (intros E; by apply Hbak).
        exact Hback.
      * split; [exact Hseen|].
        rewrite !lookup_insert_ne by (intros E; by apply Hbak).
        rewrite lookup_delete_ne by (intros E; by apply Hbak). exact Hback.
    + unfold OpenFile. rewrite Ecur.
      right. destruct (createErr a); simpl.
      * split; assumption.
      * split; [exact Hseen|].
        rewrite !lookup_insert_ne by (intros E; by apply Hbak). exact Hback.
Qed.

(** X26: through a run in which every write goes to the same name, the
    content the file had before its first replacement is never lost: it is
    in the file as long as no write has replaced it, and in the backup
    from then on; the later writes of the run remove and create the file
    and leave the backup alone. *)
Theorem a_run_keeps_the_first_content
    (calls : list (string * Answers)) (w : World) (f c : string) :
  Forall (fun call : string * Answers => (entered call.2).1 = f) calls ->
  kept f c w ->
  kept f c (session calls w).
Proof.
  revert w. induction calls as [|[data a] calls IH]; intros w Hall Hkept; [exact Hkept|].
  inversion Hall as [|? ? Hcall Hrest]; subst. simpl.
  apply IH; [exact Hrest|]. by apply cmdWrite_kept.
Qed.

End WriteProps.

(** ** The window of the older editor *)

Section LegacyView.

Import Text Legacy.

Variable runes : string -> list string.
Variable RuneWidth : string -> Z.

Lemma read_spec (rd : MemoryCsv) :
  0 <= StartX rd -> 0 <= StartY rd ->
  (Z.of_nat (length (Data rd)) <= StartY rd /\ Read rd = Some (None, rd))
  \/ (StartY rd < Z.of_nat (length (Data rd))
      /\ exists record,
           Read rd = Some (Some record,
                           mkMemoryCsv (Data rd) (StartX rd) (StartY rd + 1))).
Proof.
  intros Hx Hy. unfold Read. case_bool_decide as Hend; [left; by split|].
  right. split; [lia|]. rewrite bool_decide_eq_false_2 by lia.
  destruct (lookup_lt_is_Some_2 (Data rd) (Z.to_nat (StartY rd)) ltac:(lia)) as [csv ->].
  case_bool_decide.
  - rewrite bool_decide_eq_false_2 by lia. eauto.
  - eauto.
Qed.

Lemma viewLoop_lines (csrpos csrlin w : Z) (n : nat) :
  forall (rd : MemoryCsv) (count lfCount : Z) (reverse : bool) (cache : gmap Z string),
    0 <= StartX rd -> 0 <= StartY rd -> 0 <= count ->
    exists out cache' lf,
      viewLoop runes RuneWidth n rd csrpos csrlin w count lfCount reverse cache
      = Some (out, cache', lf)
      /\ lf = lfCount + Screen.lineBreaks out
      /\ Screen.lineBreaks out
         = if bool_decide (0 < count)
           then Z.min (Z.of_nat n) (Z.max 0 (Z.of_nat (length (Data rd)) - StartY rd))
           else Z.max 0 (Z.min (Z.of_nat n) (Z.of_nat (length (Data rd)) - StartY rd) - 1).
Proof.
  induction n as [|n IH]; intros rd count lfCount reverse cache Hx Hy Hcount.
  - exists [], cache, lfCount. simpl. split; [reflexivity|]. split; [lia|].
    case_bool_decide; lia.
  - simpl viewLoop. destruct (read_spec rd Hx Hy) as [[Hend ->]|[Hin [record ->]]].
    + exists [], cache, lfCount. split; [reflexivity|]. split; [simpl; lia|].
      simpl Screen.lineBreaks. case_bool_decide; lia.
    + destruct (Render.writeIfChanged cache count _) as [wr cache1] eqn:Ew.
      assert (Hwr : Screen.lineBreaks wr = 0).
      { pose proof (lineBreaks_writeIfChanged cache count
                      (bytes (Draw runes RuneWidth
                                {| CSV := record; CellWidth := CELL_WIDTH; MaxInLine := w;
                                   CursorPos := if bool_decide (count = csrlin)
                                                then csrpos else -1;
                                   Reverse := reverse |}))) as H.
        rewrite Ew in H. exact H. }
      match goal with |- context [viewLoop _ _ n ?r _ _ _ ?c ?l ?b cache1] =>
        destruct (IH r c l b cache1) as (out & cache2 & lf2 & -> & Hlf & Hout);
          [simpl; lia | simpl; lia | lia |] end.
      simpl in Hout.
      eexists _, _, _. split; [reflexivity|].
      rewrite !lineBreaks_app, Hwr.
      destruct (bool_decide_reflect (0 < count)) as [Hc|Hc].
      * rewrite bool_decide_eq_true_2 in Hout by lia. simpl Screen.lineBreaks. lia.
      * simpl Screen.lineBreaks.
        destruct (bool_decide_reflect (0 < count + 1)); lia.
Qed.

(** X27: from a window that starts at no negative index, [view] returns
    without a fault; the number it returns is the number of line breaks it
    has written, one less than the number of rows it has painted, which is
    the number of rows from the start of the window on, cut to the height
    [h]. *)
Theorem legacy_view_returns_the_line_breaks_it_wrote
    (rd : MemoryCsv) (csrpos csrlin w h : Z) (cache : gmap Z string) :
  0 <= StartX rd ->
  0 <= StartY rd ->
  exists out cache' lf,
    view runes RuneWidth rd csrpos csrlin w h cache = Some (out, cache', lf)
    /\ lf = Screen.lineBreaks out
    /\ lf = Z.max 0 (Z.min h (Z.of_nat (length (Data rd)) - StartY rd) - 1).
Proof.
  intros Hx Hy. unfold view.
  destruct (viewLoop_lines csrpos csrlin w (Z.to_nat h) rd 0 0 false cache Hx Hy
              ltac:(lia)) as (out & cache' & lf & -> & Hlf & Hout).
  exists out, cache', lf. split; [reflexivity|]. split; [lia|].
  rewrite bool_decide_eq_false_2 in Hout by lia. lia.
Qed.

(** X28: at the end of a turn of the older editor, with the cursor on a row
    that has a cell, the cursor column is cut back to the last cell of the
    row and the window follows the cursor: with a screen height of 2 or
    more the cursor row is inside the window of [screenHeight - 1] rows
    that starts at the new [startRow], and with one cell or more per screen
    row the cursor column is inside the window of [cols] cells that starts
    at the new [startCol]; the grid and the cursor row do not change. *)
Theorem legacy_window_follows_the_cursor
    (screenHeight cols : Z) (st : State) (row : list string) :
  0 <= rowIndex st ->
  csvlines st !! Z.to_nat (rowIndex st) = Some row ->
  exists st',
    settle screenHeight cols st = Next st'
    /\ csvlines st' = csvlines st
    /\ rowIndex st' = rowIndex st
    /\ colIndex st' = Z.min (colIndex st) (Z.of_nat (length row) - 1)
    /\ (2 <= screenHeight ->
        startRow st' <= rowIndex st' < startRow st' + (screenHeight - 1))
    /\ (1 <= cols -> startCol st' <= colIndex st' < startCol st' + cols).
Proof.
  intros Hr Hrow. unfold settle, cursorRow, getAt.
  pose proof (lookup_lt_Some _ _ _ Hrow) as Hlt.
  rewrite bool_decide_eq_true_2 by lia. rewrite Hrow. simpl.
  eexists. split; [reflexivity|].
  destruct (bool_decide_reflect (Z.of_nat (length row) <= colIndex st)); simpl;
    repeat case_bool_decide; repeat split; lia.
Qed.

End LegacyView.

(** ** Examples: the properties above at concrete inputs *)

Section SearchExamples.

Import Grid Reading.

Lemma searchForward_finds_the_first_match_witness :
  matchAt "x" gridAXX 0 1 = true
  /\ before 0 (-1) 0 1
  /\ forall i j, before 0 (-1) i j -> before i j 0 1 ->
       matchAt "x" gridAXX i j = false.
Proof.
  apply (searchForward_finds_the_first_match "x" gridAXX 0 (-1) 0 1). reflexivity.
Defined.

Lemma searchForward_not_found_is_complete_witness :
  exists found r' c',
    searchForward gridAXX 1 0 "x" = Some (found, r', c')
    /\ (found = false ->
        (forall i j, before 1 0 i j -> matchAt "x" gridAXX i j = false)
        /\ r' = Z.max 1 (Z.of_nat (length gridAXX))).
Proof.
  apply (searchForward_not_found_is_complete "x" gridAXX 1 0); lia.
Defined.

Lemma searchBackward_finds_the_last_match_witness :
  matchAt "x" gridAXX 0 1 = true
  /\ before 0 1 1 0
  /\ forall i j, before 0 1 i j -> before i j 1 0 ->
       matchAt "x" gridAXX i j = false.
Proof.
  apply (searchBackward_finds_the_last_match "x" gridAXX 1 0 0 1). reflexivity.
Defined.

Lemma searchBackward_not_found_is_complete_witness :
  (forall i j, before i j 0 1 -> matchAt "x" gridAXX i j = false)
  /\ -1 = Z.min (0 - 1) (-1).
Proof.
  apply (searchBackward_not_found_is_complete "x" gridAXX 0 1 (-1) (-1)). reflexivity.
Defined.

End SearchExamples.

Section CommandExamples.

Import uncsv csvi Editing.


Lemma navigation_keeps_the_document_witness :
  match command cfgPlain (entered "/" "b") (SearchFor Forward) (loaded [rowAB; rowA]) with
  | Next st' | Done st' _ =>
      app st' = app (loaded [rowAB; rowA])
      /\ fetch st' = fetch (loaded [rowAB; rowA])
      /\ writeCalls st' = writeCalls (loaded [rowAB; rowA])
  | Failed _ _ | Panic => False
  end.
Proof.
  apply (navigation_keeps_the_document cfgPlain (entered "/" "b") (SearchFor Forward)).
  - exact wf_loaded_rowAB.
  - apply list_elem_of_In. simpl. tauto.
Defined.

Lemma rejected_text_leaves_the_document_witness :
  exists st',
    command cfgStrict (entered "a" "12") AppendCell (loaded [rowAB; rowA]) = Next st'
    /\ sameDocument (loaded [rowAB; rowA]) st'
    /\ (checkWriteProtectAndColumn cfgStrict (cursorRow (loaded [rowAB; rowA])) = EmptyString ->
        message st' = errorText (Err "not a number")).
Proof.
  apply (rejected_text_leaves_the_document cfgStrict (entered "a" "12") AppendCell).
  - exact wf_loaded_rowAB.
  - apply list_elem_of_In. simpl. tauto.
  - reflexivity.
  - intros row col. reflexivity.
Defined.

Lemma idle_ingestion_appends_in_order_witness :
  rows (await 2 (loading [rowAB] source1))
  = rows (loading [rowAB] source1) ++ take 2 (pending source1)
    ++ (if bool_decide (length (pending source1) < 2)%nat
           && isEOF (failure source1) && negb (isEmptyRow (last source1))
        then [last source1] else [])
  /\ fetch (await 2 (loading [rowAB] source1))
     = (if bool_decide (2 <= length (pending source1))%nat
        then Some (mkSource (drop 2 (pending source1)) (last source1) (failure source1))
        else None)
  /\ cursorRow (await 2 (loading [rowAB] source1)) = cursorRow (loading [rowAB] source1)
  /\ cursorCol (await 2 (loading [rowAB] source1)) = cursorCol (loading [rowAB] source1).
Proof.
  apply (idle_ingestion_appends_in_order 2 (loading [rowAB] source1) source1).
  reflexivity.
Defined.


Lemma cursor_keys_step_and_stop_at_the_border_witness :
  exists st',
    handleKey cfgPlain (pressed "j") (loaded [rowAB; rowA]) = Next st'
    /\ app st' = app (loaded [rowAB; rowA])
    /\ cursorRow st'
       = match binding (key (pressed "j")) with
         | Up => pred (cursorRow (loaded [rowAB; rowA]))
         | Down => Nat.min (S (cursorRow (loaded [rowAB; rowA])))
                           (length (rows (loaded [rowAB; rowA])) - 1)
         | _ => cursorRow (loaded [rowAB; rowA])
         end
    /\ cursorCol st'
       = Z.min (match binding (key (pressed "j")) with
                | Left => Z.max 0 (cursorCol (loaded [rowAB; rowA]) - 1)
                | Right => cursorCol (loaded [rowAB; rowA]) + 1
                | _ => cursorCol (loaded [rowAB; rowA])
                end)
               (widthAt (loaded [rowAB; rowA]) (cursorRow st') - 1).
Proof.
  apply (cursor_keys_step_and_stop_at_the_border cfgPlain (pressed "j")).
  - exact wf_loaded_rowAB.
  - reflexivity.
  - apply list_elem_of_In. vm_compute. tauto.
Defined.

Lemma row_delete_removes_the_cursor_row_witness :
  exists st' cur,
    command cfgPlain (pressed "D") DeleteRow (loaded [rowAB; rowA]) = Next st'
    /\ rows (loaded [rowAB; rowA]) !! cursorRow (loaded [rowAB; rowA]) = Some cur
    /\ cellsOf (rows st')
       = cellsOf (take (cursorRow (loaded [rowAB; rowA])) (rows (loaded [rowAB; rowA]))
                  ++ drop (S (cursorRow (loaded [rowAB; rowA]))) (rows (loaded [rowAB; rowA])))
    /\ removedRows (app st') = removedRows (app (loaded [rowAB; rowA])) ++ [cur]
    /\ cursorRow st' = Nat.min (cursorRow (loaded [rowAB; rowA]))
                               (length (rows (loaded [rowAB; rowA])) - 2)
    /\ cursorCol st' = cursorCol (loaded [rowAB; rowA]).
Proof.
  apply (row_delete_removes_the_cursor_row cfgPlain (pressed "D")).
  - exact wf_loaded_rowAB.
  - reflexivity.
  - simpl. lia.
Defined.

End CommandExamples.

Section ScreenExamples.

Import uncsv Render Text Screen.


Lemma cutStrInWidth_keeps_the_longest_prefix_that_fits_witness :
  exists rest,
    asciiRunes "abcdef" = (cutStrInWidth asciiRunes asciiWidth "abcdef" 4).1 ++ rest
    /\ (cutStrInWidth asciiRunes asciiWidth "abcdef" 4).2
       = widthOf asciiWidth (cutStrInWidth asciiRunes asciiWidth "abcdef" 4).1
    /\ (cutStrInWidth asciiRunes asciiWidth "abcdef" 4).2 <= 4
    /\ match rest with
       | [] => True
       | c :: _ => 4 < (cutStrInWidth asciiRunes asciiWidth "abcdef" 4).2 + asciiWidth c
       end.
Proof.
  apply (cutStrInWidth_keeps_the_longest_prefix_that_fits asciiRunes asciiWidth "abcdef" 4).
  lia.
Defined.

Lemma drawLine_keeps_the_text_on_the_screen_witness :
  Forall (fun ab : Z * Z =>
            (exists k, 0 <= k /\ ab.1 = k * 5 + 1) /\ ab.2 <= 18 + 1)
         (spans asciiWidth
            (drawLinePieces asciiRunes asciiWidth
               [decode "abcdefgh"; decode "b"; decode EmptyString; decode "c"; decode "d"]
               5 18 1 false bodyColorStyle) 1).
Proof.
  apply (drawLine_keeps_the_text_on_the_screen asciiRunes asciiWidth
           [decode "abcdefgh"; decode "b"; decode EmptyString; decode "c"; decode "d"]
           5 18 1 false bodyColorStyle); lia.
Defined.


Lemma Draw_returns_the_line_breaks_it_wrote_witness :
  exists out v' lfCount,
    Draw asciiRunes asciiWidth [rowAB; rowCD; rowA] newView None (Some O) (Some 1%nat)
         14 0 0 1 24 80 = Some (out, v', lfCount)
    /\ lfCount = lineBreaks out
    /\ 1 <= lfCount <= Z.max 0 0 + Z.max 1 (24 - 1).
Proof.
  destruct (Draw asciiRunes asciiWidth [rowAB; rowCD; rowA] newView None (Some O)
                 (Some 1%nat) 14 0 0 1 24 80) as [[[out v'] lfCount]|] eqn:E;
    [|discriminate E].
  exists out, v', lfCount. split; [reflexivity|].
  exact (Draw_returns_the_line_breaks_it_wrote asciiRunes asciiWidth _ _ _ _ _ _ _ _ _ _ _ _ _ _ E).
Defined.

Lemma the_cursor_cell_is_on_the_page_witness :
  exists (startRow' : nat) (f : Frame),
    scrollRow 2 0 3 = Some startRow'
    /\ bodyStart [rowAB; rowCD; rowA] startRow' 0 = Some startRow'
    /\ bodyFrame [rowAB; rowCD; rowA] startRow' (Some 2%nat) 14 0
                 (scrollCol 0 1 5) 0 3 80 = Some f
    /\ 0 <= csrlin f < h f
    /\ 0 <= csrpos f < 5
    /\ exists cells,
         page f !! Z.to_nat (csrlin f) = Some cells
         /\ cells !! Z.to_nat (csrpos f) = Cells rowA !! Z.to_nat 0
         /\ is_Some (cells !! Z.to_nat (csrpos f)).
Proof.
  apply (the_cursor_cell_is_on_the_page [rowAB; rowCD; rowA] 2 0 rowA 14 0 3 80 0 1 5).
  - lia.
  - lia.
  - lia.
  - reflexivity.
  - simpl. lia.
  - lia.
Defined.

End ScreenExamples.

Section LegacyExamples.

Import Text Legacy.

Lemma ok_legacyDoc : ok legacyDoc.
Proof.
  unfold ok. simpl. split; [repeat constructor; simpl; lia|].
  split; [lia|]. split; [|lia].
  exists ["a"; "b"]. split; [reflexivity | simpl; lia].
Qed.

Lemma legacy_line_fills_the_width_witness :
  columnsOf asciiWidth
    (Draw asciiRunes asciiWidth (mkLineView ["abcdefgh"; "b"; EmptyString; "c"] 5 18 1 false))
  = MaxInLine (mkLineView ["abcdefgh"; "b"; EmptyString; "c"] 5 18 1 false).
Proof.
  apply (legacy_line_fills_the_width asciiRunes asciiWidth
           (mkLineView ["abcdefgh"; "b"; EmptyString; "c"] 5 18 1 false)).
  - discriminate.
  - simpl. lia.
  - simpl. lia.
Defined.

Lemma legacy_loop_never_faults_witness :
  match turns asciiRunes asciiWidth
          [legacyKey "D" EmptyString; legacyKey "x" EmptyString; legacyKey "D" EmptyString;
           legacyKey "a" "z"; legacyKey "$" EmptyString; legacyKey "/" "q"]
          legacyDoc with
  | Next st' => ok st'
  | Done | Failed _ => True
  | Panic => False
  end.
Proof.
  apply (legacy_loop_never_faults asciiRunes asciiWidth
           [legacyKey "D" EmptyString; legacyKey "x" EmptyString; legacyKey "D" EmptyString;
            legacyKey "a" "z"; legacyKey "$" EmptyString; legacyKey "/" "q"]
           legacyDoc).
  exact ok_legacyDoc.
Defined.

Lemma legacy_editing_keys_are_list_operations_witness :
  command (legacyKey "i" "z") "O" legacyDoc
  = Next (setGrid (take (Z.to_nat (rowIndex legacyDoc)) (csvlines legacyDoc)
                   ++ [EmptyString]
                      :: drop (Z.to_nat (rowIndex legacyDoc)) (csvlines legacyDoc))
                  legacyDoc)
  /\ command (legacyKey "i" "z") "o" legacyDoc
     = Next (setGrid (take (Z.to_nat (rowIndex legacyDoc + 1)) (csvlines legacyDoc)
                      ++ [EmptyString]
                         :: drop (Z.to_nat (rowIndex legacyDoc + 1)) (csvlines legacyDoc))
                     (setRow (rowIndex legacyDoc + 1) legacyDoc))
  /\ ((2 <= length (csvlines legacyDoc))%nat ->
      exists st',
        command (legacyKey "i" "z") "D" legacyDoc = Next st'
        /\ csvlines st' = take (Z.to_nat (rowIndex legacyDoc)) (csvlines legacyDoc)
                          ++ drop (Z.to_nat (rowIndex legacyDoc + 1)) (csvlines legacyDoc)
        /\ rowIndex st'
           = Z.min (rowIndex legacyDoc) (Z.of_nat (length (csvlines legacyDoc)) - 2)
        /\ colIndex st' = colIndex legacyDoc)
  /\ ((line (legacyKey "i" "z")).2 = None ->
      command (legacyKey "i" "z") "i" legacyDoc
      = Next (setCol (colIndex legacyDoc + 1)
                (setGrid (<[Z.to_nat (rowIndex legacyDoc) :=
                              take (Z.to_nat (colIndex legacyDoc)) ["a"; "b"]
                              ++ (line (legacyKey "i" "z")).1
                                 :: drop (Z.to_nat (colIndex legacyDoc)) ["a"; "b"]]>
                            (csvlines legacyDoc)) legacyDoc)))
  /\ ((line (legacyKey "i" "z")).2 = None ->
      command (legacyKey "i" "z") "a" legacyDoc
      = Next (setCol (colIndex legacyDoc + 1)
                (setGrid (<[Z.to_nat (rowIndex legacyDoc) :=
                              take (Z.to_nat (colIndex legacyDoc + 1)) ["a"; "b"]
                              ++ (line (legacyKey "i" "z")).1
                                 :: drop (Z.to_nat (colIndex legacyDoc + 1)) ["a"; "b"]]>
                            (csvlines legacyDoc)) legacyDoc)))
  /\ command (legacyKey "i" "z") "d" legacyDoc
     = Next (setGrid (<[Z.to_nat (rowIndex legacyDoc) :=
                          if bool_decide (length ["a"; "b"] <= 1)%nat
                          then <[O := EmptyString]> ["a"; "b"]
                          else take (Z.to_nat (colIndex legacyDoc)) ["a"; "b"]
                               ++ drop (Z.to_nat (colIndex legacyDoc + 1)) ["a"; "b"]]>
                        (csvlines legacyDoc)) legacyDoc).
Proof.
  apply (legacy_editing_keys_are_list_operations (legacyKey "i" "z") legacyDoc ["a"; "b"]).
  - exact ok_legacyDoc.
  - reflexivity.
Defined.

End LegacyExamples.

Section WriteExamples.

Import WriteCommand.

Lemma cmdWrite_asks_before_it_replaces_a_file_witness :
  (yes writeYes = false -> cmdWrite "new" writeYes worldOld = (EmptyString, worldOld))
  /\ (yes writeYes = true ->
      files (cmdWrite "new" writeYes worldOld).2 !! (theFile +:+ "~") = Some "old"
      /\ theFile ∈ overWritten (cmdWrite "new" writeYes worldOld).2
      /\ (createErr writeYes = None ->
          cmdWrite "new" writeYes worldOld
          = (EmptyString,
             mkWorld (<[theFile := "new"]>
                        (<[theFile := EmptyString]>
                           (<[theFile +:+ "~" := "old"]>
                              (delete theFile (delete (theFile +:+ "~") (files worldOld))))))
                     ({[theFile]} ∪ overWritten worldOld) (stdout worldOld)))).
Proof.
  apply (cmdWrite_asks_before_it_replaces_a_file "new" writeYes worldOld theFile "old").
  - reflexivity.
  - discriminate.
  - right. reflexivity.
  - apply lookup_singleton_eq.
  - apply not_elem_of_empty.
Defined.

Lemma a_run_keeps_the_first_content_witness :
  kept theFile "old" (session [("v1", writeYes); ("v2", writeYes)] worldOld).
Proof.
  apply (a_run_keeps_the_first_content [("v1", writeYes); ("v2", writeYes)] worldOld
           theFile "old").
  - repeat constructor.
  - left. split; [apply not_elem_of_empty | apply lookup_singleton_eq].
Defined.

End WriteExamples.

Section LegacyViewExamples.

Import Text Legacy.

Lemma legacy_view_returns_the_line_breaks_it_wrote_witness :
  exists out cache' lf,
    view asciiRunes asciiWidth (mkMemoryCsv [["a"; "b"]; ["c"]; ["d"]] 1 1) 0 0 79 24 ∅
    = Some (out, cache', lf)
    /\ lf = Screen.lineBreaks out
    /\ lf = Z.max 0 (Z.min 24 (Z.of_nat (length (Data (mkMemoryCsv [["a"; "b"]; ["c"]; ["d"]] 1 1)))
                            - StartY (mkMemoryCsv [["a"; "b"]; ["c"]; ["d"]] 1 1)) - 1).
Proof.
  apply (legacy_view_returns_the_line_breaks_it_wrote asciiRunes asciiWidth
           (mkMemoryCsv [["a"; "b"]; ["c"]; ["d"]] 1 1) 0 0 79 24 ∅); simpl; lia.
Defined.

Lemma legacy_window_follows_the_cursor_witness :
  exists st',
    settle 3 5 (setCol 7 (setRow 1 legacyDoc)) = Next st'
    /\ csvlines st' = csvlines (setCol 7 (setRow 1 legacyDoc))
    /\ rowIndex st' = rowIndex (setCol 7 (setRow 1 legacyDoc))
    /\ colIndex st' = Z.min (colIndex (setCol 7 (setRow 1 legacyDoc)))
                            (Z.of_nat (length ["c"]) - 1)
    /\ (2 <= 3 -> startRow st' <= rowIndex st' < startRow st' + (3 - 1))
    /\ (1 <= 5 -> startCol st' <= colIndex st' < startCol st' + 5).
Proof.
  apply (legacy_window_follows_the_cursor 3 5 (setCol 7 (setRow 1 legacyDoc)) ["c"]).
  - simpl. lia.
  - reflexivity.
Defined.

End LegacyViewExamples.
